(** * YTDASH: download queue, credential vault and session registry

    A shallow embedding of [download/queue.py], [download/models.py],
    [download/downloader.py] (progress hook), [auth/cookie_manager.py] and
    [auth/session.py], with the properties the design document states about
    them.

    Conventions.
    - Python dictionaries keyed by strings are [gmap string _].
    - [datetime.utcnow()] is an input: every operation that reads the clock
      takes the reading(s) as arguments, in the order the source reads them.
    - [uuid.uuid4()] is an injective supply indexed by the number of draws.
    - An operation that can raise returns a [result]; an operation that
      mutates the object and can raise after a partial update returns the
      outcome together with the state it leaves behind. *)

From Stdlib Require Import ZArith QArith Lia Lqa List Bool.
From Stdlib.Strings Require Import Byte.
From stdpp Require Import base option gmap strings list fin_maps pretty.

Local Open Scope string_scope.
Local Open Scope list_scope.
Local Open Scope Z_scope.

(** ** Exceptions and fallible results *)

Inductive exn : Type :=
| EncryptionError (message : string)   (* utils/errors.py *)
| QueueFullError                       (* utils/errors.py *)
| QueueFull                            (* asyncio.QueueFull *)
| OverflowError                        (* datetime arithmetic out of range *)
| ValidationError                      (* pydantic field constraint *)
| TypeError                            (* arithmetic on None *)
| KeyError (key : string).

Inductive result (A : Type) : Type :=
| Ok (a : A)
| Raise (e : exn).
Arguments Ok {A} a.
Arguments Raise {A} e.


Definition rbind {A B} (r : result A) (k : A -> result B) : result B :=
  match r with Ok a => k a | Raise e => Raise e end.

(** ** [datetime] and [timedelta]

    A [datetime] is the number of microseconds since 0001-01-01T00:00:00;
    Python accepts the instants of the years 1 to 9999 and raises
    [OverflowError] when arithmetic leaves that range.  A [timedelta] is a
    number of microseconds whose day count has magnitude at most 999999999. *)

Abbreviation datetime := Z (only parsing).
Abbreviation timedelta := Z (only parsing).

Definition US_PER_HOUR : Z := 3600000000.
Definition US_PER_DAY : Z := 86400000000.
Definition DATETIME_MAX : Z := 3652059 * US_PER_DAY - 1.
Definition TIMEDELTA_MIN : Z := - 999999999 * US_PER_DAY.
Definition TIMEDELTA_MAX : Z := 999999999 * US_PER_DAY + (US_PER_DAY - 1).

Definition valid_datetime (t : datetime) : Prop := 0 <= t <= DATETIME_MAX.

(* timedelta(hours=h) *)
Definition timedelta_hours (h : Z) : result timedelta :=
  let us := h * US_PER_HOUR in
  if (TIMEDELTA_MIN <=? us) && (us <=? TIMEDELTA_MAX) then Ok us
  else Raise OverflowError.

(* t + d and t - d on a datetime *)
Definition datetime_add (t : datetime) (d : timedelta) : result datetime :=
  if (0 <=? t + d) && (t + d <=? DATETIME_MAX) then Ok (t + d)
  else Raise OverflowError.

Definition datetime_sub (t : datetime) (d : timedelta) : result datetime :=
  if (0 <=? t - d) && (t - d <=? DATETIME_MAX) then Ok (t - d)
  else Raise OverflowError.

(* now + timedelta(hours=h), as both stores compute an expiry *)
Definition plus_hours (now : datetime) (h : Z) : result datetime :=
  rbind (timedelta_hours h) (datetime_add now).

(** ** [uuid.uuid4()] *)

Class Uuid4 := {
  uuid4 : nat -> string;
  uuid4_inj : Inj (=) (=) uuid4
}.

(** ** External libraries used by the vault

    [cryptography.fernet.Fernet] bound to the manager's key, and the JSON
    codec.  [fernet_encrypt] takes the timestamp and IV material it draws;
    [fernet_decrypt] is [None] on [InvalidToken].  [json_loads] stands for
    [json.loads(b.decode('utf-8'))] followed by [len(..)]: it returns the
    text of the exception when any of the three raises. *)

Abbreviation bytes := (list byte) (only parsing).
Abbreviation Cookies := (gmap string string) (only parsing).

Class Fernet := {
  fernet_encrypt : bytes -> bytes -> bytes;
  fernet_decrypt : bytes -> option bytes;
  fernet_decrypt_encrypt : forall iv p, fernet_decrypt (fernet_encrypt iv p) = Some p
}.

Class Json := {
  json_dumps : Cookies -> bytes;
  json_loads : bytes -> string + Cookies;
  json_loads_dumps : forall c, json_loads (json_dumps c) = inr c
}.

(** ** auth/cookie_manager.py *)

Module CookieManager.

Record Meta := {
  created_at : datetime;
  last_accessed : datetime;
  expires_at : datetime
}.

Record t := {
  _cookie_store : gmap string bytes;
  _metadata : gmap string Meta
}.

Definition init : t := {| _cookie_store := ∅; _metadata := ∅ |}.

Section Ops.
Context `{Fernet} `{Json}.

(* json.dumps and Fernet.encrypt accept every dictionary of strings, so the
   except clause is not entered *)
Definition encrypt_cookies (iv : bytes) (cookies : Cookies) : result bytes :=
  Ok (fernet_encrypt iv (json_dumps cookies)).

Definition decrypt_cookies (encrypted_cookies : bytes) : result Cookies :=
  match fernet_decrypt encrypted_cookies with
  | None => Raise (EncryptionError "Invalid encryption token")
  | Some decrypted =>
      match json_loads decrypted with
      | inr cookies => Ok cookies
      | inl e => Raise (EncryptionError (String.append "Failed to decrypt cookies: " e))
      end
  end.

Definition store_cookies (iv : bytes) (now : datetime)
    (session_id : string) (cookies : Cookies) (expires_in_hours : Z)
    (self : t) : result unit * t :=
  match encrypt_cookies iv cookies with
  | Raise e => (Raise e, self)
  | Ok encrypted =>
      let self1 := {| _cookie_store := <[session_id := encrypted]> (_cookie_store self);
                      _metadata := _metadata self |} in
      match plus_hours now expires_in_hours with
      | Raise e => (Raise e, self1)
      | Ok expiry =>
          (Ok tt,
           {| _cookie_store := _cookie_store self1;
              _metadata := <[session_id := {| created_at := now;
                                              last_accessed := now;
                                              expires_at := expiry |}]>
                             (_metadata self1) |})
      end
  end.

Definition delete_cookies (session_id : string) (self : t) : bool * t :=
  match _cookie_store self !! session_id with
  | Some _ =>
      (true, {| _cookie_store := delete session_id (_cookie_store self);
                _metadata := delete session_id (_metadata self) |})
  | None => (false, self)
  end.

Definition touch (now : datetime) (m : Meta) : Meta :=
  {| created_at := created_at m; last_accessed := now; expires_at := expires_at m |}.

(* [now1] is the clock read by the expiry test, [now2] the one written to
   last_accessed. *)
Definition retrieve_cookies (now1 now2 : datetime) (session_id : string)
    (self : t) : result (option Cookies) * t :=
  match _cookie_store self !! session_id with
  | None => (Ok None, self)
  | Some blob =>
      let metadata := _metadata self !! session_id in
      if match metadata with
         | Some m => expires_at m <? now1
         | None => false
         end
      then (Ok None, snd (delete_cookies session_id self))
      else
        match decrypt_cookies blob with
        | Ok cookies =>
            (Ok (Some cookies),
             match metadata with
             | Some m =>
                 {| _cookie_store := _cookie_store self;
                    _metadata := <[session_id := touch now2 m]> (_metadata self) |}
             | None => self
             end)
        | Raise _ => (Ok None, self)
        end
  end.

Definition is_expired (now : datetime) (session_id : string) (self : t) : bool :=
  match _metadata self !! session_id with
  | None => true
  | Some m => expires_at m <? now
  end.

(* datetime - datetime is a timedelta and never overflows *)
Definition needs_refresh (now : datetime) (session_id : string)
    (threshold_hours : Z) (self : t) : result bool :=
  match _metadata self !! session_id with
  | None => Ok true
  | Some m =>
      rbind (timedelta_hours threshold_hours)
        (fun threshold => Ok (expires_at m - now <? threshold))
  end.

Definition expired_sessions (now : datetime) (self : t) : list string :=
  (List.filter (fun sm : string * Meta => expires_at (snd sm) <? now)
     (map_to_list (_metadata self))).*1.

Definition cleanup_expired (now : datetime) (self : t) : nat * t :=
  let expired := expired_sessions now self in
  (length expired,
   foldl (fun s sid => snd (delete_cookies sid s)) self expired).

Definition get_session_count (self : t) : nat := size (_cookie_store self).

End Ops.
End CookieManager.

(** ** auth/session.py *)

(* bool(s) for an Optional[str] *)
Definition truthy_str (s : option string) : bool :=
  match s with
  | Some v => negb (String.eqb v "")
  | None => false
  end.

(* list.remove(x): drops the first occurrence *)
Fixpoint list_remove (x : string) (l : list string) : list string :=
  match l with
  | [] => []
  | y :: l' => if String.eqb x y then l' else y :: list_remove x l'
  end.

(* x in l *)
Definition list_mem (x : string) (l : list string) : bool :=
  existsb (String.eqb x) l.

Module SessionManager.

Record Session := {
  session_id : string;
  user_id : option string;
  user_email : option string;
  created_at : datetime;
  last_activity : datetime;
  expires_at : datetime;
  authenticated : bool;
  active_downloads : list string
}.

Record t := { _sessions : gmap string Session }.

Definition init : t := {| _sessions := ∅ |}.

Definition set_last_activity (now : datetime) (s : Session) : Session :=
  {| session_id := session_id s; user_id := user_id s; user_email := user_email s;
     created_at := created_at s; last_activity := now; expires_at := expires_at s;
     authenticated := authenticated s; active_downloads := active_downloads s |}.

Definition set_active_downloads (l : list string) (s : Session) : Session :=
  {| session_id := session_id s; user_id := user_id s; user_email := user_email s;
     created_at := created_at s; last_activity := last_activity s;
     expires_at := expires_at s; authenticated := authenticated s;
     active_downloads := l |}.

Section Ops.
Context `{Uuid4}.

(* [draw] is the index of the uuid4 draw this call makes. *)
Definition create_session (draw : nat) (now : datetime)
    (user_id : option string) (user_email : option string) (timeout_hours : Z)
    (self : t) : result string * t :=
  let session_id := uuid4 draw in
  match plus_hours now timeout_hours with
  | Raise e => (Raise e, self)
  | Ok expiry =>
      (Ok session_id,
       {| _sessions :=
            <[session_id := {| session_id := session_id;
                               user_id := user_id;
                               user_email := user_email;
                               created_at := now;
                               last_activity := now;
                               expires_at := expiry;
                               authenticated := truthy_str user_id;
                               active_downloads := [] |}]> (_sessions self) |})
  end.

End Ops.

Definition delete_session (session_id : string) (self : t) : bool * t :=
  match _sessions self !! session_id with
  | Some _ => (true, {| _sessions := delete session_id (_sessions self) |})
  | None => (false, self)
  end.

(* [now1] is the clock read by the expiry test, [now2] the one written to
   last_activity.  The dictionary returned is the stored one, so the caller
   sees the refreshed last_activity. *)
Definition get_session (now1 now2 : datetime) (session_id : string)
    (self : t) : option Session * t :=
  match _sessions self !! session_id with
  | None => (None, self)
  | Some session =>
      if expires_at session <? now1
      then (None, snd (delete_session session_id self))
      else
        let session' := set_last_activity now2 session in
        (Some session', {| _sessions := <[session_id := session']> (_sessions self) |})
  end.

Definition is_authenticated (now1 now2 : datetime) (session_id : string)
    (self : t) : bool * t :=
  match get_session now1 now2 session_id self with
  | (Some session, self') => (authenticated session, self')
  | (None, self') => (false, self')
  end.

Definition add_download (now1 now2 : datetime) (session_id download_id : string)
    (self : t) : bool * t :=
  match get_session now1 now2 session_id self with
  | (None, self') => (false, self')
  | (Some session, self') =>
      if list_mem download_id (active_downloads session)
      then (true, self')
      else
        (true,
         {| _sessions :=
              <[session_id :=
                  set_active_downloads (active_downloads session ++ [download_id]) session]>
                (_sessions self') |})
  end.

Definition remove_download (now1 now2 : datetime) (session_id download_id : string)
    (self : t) : bool * t :=
  match get_session now1 now2 session_id self with
  | (None, self') => (false, self')
  | (Some session, self') =>
      if list_mem download_id (active_downloads session)
      then
        (true,
         {| _sessions :=
              <[session_id :=
                  set_active_downloads (list_remove download_id (active_downloads session)) session]>
                (_sessions self') |})
      else (true, self')
  end.

Definition get_active_download_count (now1 now2 : datetime) (session_id : string)
    (self : t) : nat * t :=
  match get_session now1 now2 session_id self with
  | (Some session, self') => (length (active_downloads session), self')
  | (None, self') => (0%nat, self')
  end.

Definition expired_sessions (now : datetime) (self : t) : list string :=
  (List.filter (fun ss : string * Session => expires_at (snd ss) <? now)
     (map_to_list (_sessions self))).*1.

Definition cleanup_expired (now : datetime) (self : t) : nat * t :=
  let expired := expired_sessions now self in
  (length expired,
   foldl (fun s sid => snd (delete_session sid s)) self expired).

Definition get_session_count (self : t) : nat := size (_sessions self).

End SessionManager.

(** ** download/models.py *)

Module Models.

Inductive DownloadStatus : Type :=
| PENDING | DOWNLOADING | PROCESSING | COMPLETED | FAILED | CANCELLED.

Inductive FormatType : Type := VIDEO | AUDIO | BOTH.

(* the [.value] of the string enum *)
Definition FormatType_value (f : FormatType) : string :=
  match f with VIDEO => "video" | AUDIO => "audio" | BOTH => "both" end.

#[global] Instance DownloadStatus_eq_dec : EqDecision DownloadStatus.
Proof. solve_decision. Defined.

Record DownloadRequest := {
  url : string;
  format_type : FormatType;
  format_id : option string;
  quality : option string;
  audio_format : option string;
  video_codec : option string;
  audio_codec : option string;
  session_id : option string
}.

Record ProgressUpdate := {
  download_id : string;
  status : DownloadStatus;
  progress : Q;
  downloaded_bytes : option Q;
  total_bytes : option Q;
  speed : option Q;
  eta : option Q;
  filename : option string;
  error : option string
}.

(* ProgressUpdate(...): the model's constructor, which enforces
   Field(0.0, ge=0.0, le=100.0) on [progress]. *)
Definition new_ProgressUpdate (download_id : string) (status : DownloadStatus)
    (progress : Q) (downloaded_bytes total_bytes speed eta : option Q)
    (filename error : option string) : result ProgressUpdate :=
  if Qle_bool 0 progress && Qle_bool progress 100
  then Ok {| download_id := download_id; status := status; progress := progress;
             downloaded_bytes := downloaded_bytes; total_bytes := total_bytes;
             speed := speed; eta := eta; filename := filename; error := error |}
  else Raise ValidationError.

(* p.status = s: assignment to a field of an existing model instance *)
Definition set_status (s : DownloadStatus) (p : ProgressUpdate) : ProgressUpdate :=
  {| download_id := download_id p; status := s; progress := progress p;
     downloaded_bytes := downloaded_bytes p; total_bytes := total_bytes p;
     speed := speed p; eta := eta p; filename := filename p; error := error p |}.

End Models.

(** ** download/downloader.py: the progress hook and the failure snapshot *)

Module Downloader.
Import Models.

(* a dictionary entry read with [data.get(key, default)] *)
Inductive Entry (A : Type) : Type :=
| Missing            (* key absent *)
| Null               (* key present, value None *)
| Val (a : A).
Arguments Missing {A}.
Arguments Null {A}.
Arguments Val {A} a.

(* The progress dictionary yt-dlp hands to the hook.  Fields read with
   [data.get(key)] are [None] when the key is absent or maps to None. *)
Record HookData := {
  hd_status : option string;
  hd_downloaded_bytes : Entry Q;
  hd_total_bytes : option Q;
  hd_total_bytes_estimate : option Q;
  hd_speed : option Q;
  hd_eta : option Q;
  hd_filename : option string
}.

(* truth value of an optional number *)
Definition truthy_num (x : option Q) : bool :=
  match x with
  | Some q => negb (Qeq_bool q 0)
  | None => false
  end.

(* a or b *)
Definition py_or (a b : option Q) : option Q := if truthy_num a then a else b.

(* The snapshot the hook passes to [callback], if it calls it. *)
Definition _progress_hook (data : HookData) (download_id : string)
    : result (option ProgressUpdate) :=
  match hd_status data with
  | Some st =>
      if String.eqb st "downloading" then
        let downloaded :=
          match hd_downloaded_bytes data with
          | Missing => Some 0%Q
          | Null => None
          | Val q => Some q
          end in
        let total := py_or (hd_total_bytes data) (hd_total_bytes_estimate data) in
        let progress :=
          if truthy_num total then
            match downloaded, total with
            | Some d, Some t => Ok (d / t * 100)%Q
            | _, _ => Raise TypeError
            end
          else Ok 0%Q in
        rbind progress (fun p =>
        rbind (new_ProgressUpdate download_id DOWNLOADING p downloaded total
                 (hd_speed data) (hd_eta data) (hd_filename data) None)
              (fun u => Ok (Some u)))
      else if String.eqb st "finished" then
        rbind (new_ProgressUpdate download_id PROCESSING 100 (Some 0%Q) None
                 None None (hd_filename data) None)
              (fun u => Ok (Some u))
      else Ok None
  | None => Ok None
  end.

(* ProgressUpdate(download_id=.., status=FAILED, error=msg), built by
   download_video before it re-raises *)
Definition failure_snapshot (download_id error_msg : string) : result ProgressUpdate :=
  new_ProgressUpdate download_id FAILED 0 (Some 0%Q) None None None None (Some error_msg).

(* How an awaited download_video call ends in failure. *)
Inductive Failure : Type :=
| Rejected (message : string)     (* raised before the transfer is attempted *)
| Failed (error_msg : string).    (* raised by the transfer: snapshot, then DownloadError *)

(* str(e) of the exception download_video raises *)
Definition Failure_str (f : Failure) : string :=
  match f with
  | Rejected m => m
  | Failed m => String.append "Download failed: " m
  end.

(* pathlib.Path, through the two observations the queue makes *)
Record Path := { path_str : string; path_name : string }.

End Downloader.

(** ** models/download_history.py: the [downloads] table, as far as the
    queue writes it *)

Module History.

Record Download := {
  download_id : string;
  user_id : Z;
  youtube_url : string;
  format_type : string;
  quality : option string;
  format_id : option string;
  status : Models.DownloadStatus;
  error_message : option string;
  file_path : option string;
  file_name : option string;
  completed_at : option datetime
}.

(* db.query(Download).filter(Download.download_id == id).first() *)
Definition first_by_download_id (id : string) (table : list Download) : option Download :=
  List.find (fun r => String.eqb (download_id r) id) table.

(* db.add(record); db.commit() *)
Definition add (r : Download) (table : list Download) : list Download := table ++ [r].

End History.

(** ** download/queue.py *)

(* asyncio.Queue: maxsize <= 0 means unbounded *)
Record AsyncQueue (A : Type) := { maxsize : Z; items : list A }.
Arguments maxsize {A} _.
Arguments items {A} _.

Definition full {A} (q : AsyncQueue A) : bool :=
  if maxsize q <=? 0 then false else Z.of_nat (length (items q)) >=? maxsize q.

Definition put_nowait {A} (x : A) (q : AsyncQueue A) : result (AsyncQueue A) :=
  if full q then Raise QueueFull
  else Ok {| maxsize := maxsize q; items := items q ++ [x] |}.

Definition qsize {A} (q : AsyncQueue A) : nat := length (items q).

(* bool(n) for an Optional[int] *)
Definition truthy_int (n : option Z) : bool :=
  match n with
  | Some v => negb (v =? 0)
  | None => false
  end.

Module DownloadQueue.
Import Models.

(* The metadata dictionary of one download.  created_at and completed_at
   hold isoformat() strings in the source; they are kept as the datetime
   they print, which fromisoformat() gives back. *)
Record Metadata := {
  download_id : string;
  session_id : option string;
  user_id : option Z;
  url : string;
  status : DownloadStatus;
  created_at : datetime;
  completed_at : option datetime;
  output_file : option string;
  file_name : option string;
  error : option string
}.

Abbreviation Item := (string * DownloadRequest * option Cookies)%type (only parsing).

Record t := {
  max_concurrent : Z;
  queue : AsyncQueue Item;
  active_downloads : gset string;
  downloads : gmap string Metadata;
  progress : gmap string ProgressUpdate
}.

(* DownloadQueue(downloader, max_concurrent) *)
Definition init (max_concurrent : Z) : t :=
  {| max_concurrent := max_concurrent;
     queue := {| maxsize := 0; items := [] |};
     active_downloads := ∅;
     downloads := ∅;
     progress := ∅ |}.

Definition md_set_status (s : DownloadStatus) (m : Metadata) : Metadata :=
  {| download_id := download_id m; session_id := session_id m; user_id := user_id m;
     url := url m; status := s; created_at := created_at m;
     completed_at := completed_at m; output_file := output_file m;
     file_name := file_name m; error := error m |}.

Definition md_set_completed_at (c : datetime) (m : Metadata) : Metadata :=
  {| download_id := download_id m; session_id := session_id m; user_id := user_id m;
     url := url m; status := status m; created_at := created_at m;
     completed_at := Some c; output_file := output_file m;
     file_name := file_name m; error := error m |}.

Definition md_set_output (file name : string) (m : Metadata) : Metadata :=
  {| download_id := download_id m; session_id := session_id m; user_id := user_id m;
     url := url m; status := status m; created_at := created_at m;
     completed_at := completed_at m; output_file := Some file;
     file_name := Some name; error := error m |}.

Definition md_set_error (e : string) (m : Metadata) : Metadata :=
  {| download_id := download_id m; session_id := session_id m; user_id := user_id m;
     url := url m; status := status m; created_at := created_at m;
     completed_at := completed_at m; output_file := output_file m;
     file_name := file_name m; error := Some e |}.

Definition with_downloads (d : gmap string Metadata) (self : t) : t :=
  {| max_concurrent := max_concurrent self; queue := queue self;
     active_downloads := active_downloads self; downloads := d;
     progress := progress self |}.

Definition with_progress (p : gmap string ProgressUpdate) (self : t) : t :=
  {| max_concurrent := max_concurrent self; queue := queue self;
     active_downloads := active_downloads self; downloads := downloads self;
     progress := p |}.

Definition with_queue (q : AsyncQueue Item) (self : t) : t :=
  {| max_concurrent := max_concurrent self; queue := q;
     active_downloads := active_downloads self; downloads := downloads self;
     progress := progress self |}.

Definition with_active_downloads (a : gset string) (self : t) : t :=
  {| max_concurrent := max_concurrent self; queue := queue self;
     active_downloads := a; downloads := downloads self;
     progress := progress self |}.

Definition _update_status (download_id : string) (status : DownloadStatus)
    (self : t) : t :=
  let self1 := with_downloads (alter (md_set_status status) download_id (downloads self)) self in
  with_progress (alter (Models.set_status status) download_id (progress self1)) self1.

Definition _update_progress (download_id : string) (p : ProgressUpdate)
    (self : t) : t :=
  let self1 := with_progress (<[download_id := p]> (progress self)) self in
  with_downloads (alter (md_set_status (Models.status p)) download_id (downloads self1)) self1.

Section Ops.
Context `{Uuid4}.

(* [draw] is the index of the uuid4 draw this call makes.  The state
   returned with [Raise] is the one the exception leaves behind. *)
Definition add_download (draw : nat) (now : datetime) (request : DownloadRequest)
    (session_id : option string) (cookies : option Cookies) (user_id : option Z)
    (self : t) : result string * t :=
  let download_id := uuid4 draw in
  let self1 :=
    with_downloads
      (<[download_id := {| download_id := download_id;
                           session_id := session_id;
                           user_id := user_id;
                           url := Models.url request;
                           status := PENDING;
                           created_at := now;
                           completed_at := None;
                           output_file := None;
                           file_name := None;
                           error := None |}]> (downloads self)) self in
  match new_ProgressUpdate download_id PENDING 0 (Some 0%Q) None None None None None with
  | Raise e => (Raise e, self1)
  | Ok p =>
      let self2 := with_progress (<[download_id := p]> (progress self1)) self1 in
      match put_nowait (download_id, request, cookies) (queue self2) with
      | Raise e => (Raise e, self2)
      | Ok q => (Ok download_id, with_queue q self2)
      end
  end.

End Ops.

Record DownloadStatusResponse := {
  r_download_id : string;
  r_status : DownloadStatus;
  r_progress : option ProgressUpdate;
  r_created_at : datetime;
  r_completed_at : option datetime
}.

Definition get_download_status (download_id : string) (self : t)
    : option DownloadStatusResponse :=
  match downloads self !! download_id with
  | None => None
  | Some metadata =>
      Some {| r_download_id := download_id;
              r_status := status metadata;
              r_progress := progress self !! download_id;
              r_created_at := created_at metadata;
              r_completed_at := completed_at metadata |}
  end.

Definition get_download_progress (download_id : string) (self : t)
    : option ProgressUpdate :=
  progress self !! download_id.

(* metadata['status'], when the download is tracked *)
Definition status_at (download_id : string) (self : t) : option DownloadStatus :=
  status <$> downloads self !! download_id.

Definition cancel_download (now : datetime) (download_id : string) (self : t)
    : bool * t :=
  match downloads self !! download_id with
  | None => (false, self)
  | Some metadata =>
      if bool_decide (status metadata ∈ [COMPLETED; FAILED]) then (false, self)
      else
        let self1 := _update_status download_id CANCELLED self in
        (true,
         with_downloads (alter (md_set_completed_at now) download_id (downloads self1)) self1)
  end.

Definition get_queue_size (self : t) : nat := qsize (queue self).

Definition get_active_count (self : t) : nat :=
  length (List.filter (fun kv : string * Metadata => bool_decide (status (snd kv) = DOWNLOADING))
            (map_to_list (downloads self))).

(* The call a worker makes to download_video. *)
Record EngineCall := {
  call_request : DownloadRequest;
  call_download_id : string;
  call_cookies : option Cookies
}.

(* Lines 85-99 of _worker: take the next item off the queue, mark it
   downloading and call download_video.  [None]: the queue is empty and
   [await self.queue.get()] does not return. *)
Definition worker_take (self : t) : option (EngineCall * t) :=
  match items (queue self) with
  | [] => None
  | (download_id, request, cookies) :: rest =>
      let self1 := with_queue {| maxsize := maxsize (queue self); items := rest |} self in
      Some ({| call_request := request;
               call_download_id := download_id;
               call_cookies := cookies |},
            _update_status download_id DOWNLOADING self1)
  end.

(* _save_history, with db_op run at once on the table *)
Definition _save_history (download_id : string) (request : DownloadRequest)
    (self : t) (table : list History.Download) : list History.Download :=
  match downloads self !! download_id with
  | None => table
  | Some metadata =>
      match user_id metadata with
      | Some uid =>
          if truthy_int (Some uid) then
            match History.first_by_download_id download_id table with
            | Some _ => table
            | None =>
                History.add
                  {| History.download_id := download_id;
                     History.user_id := uid;
                     History.youtube_url := Models.url request;
                     History.format_type := FormatType_value (Models.format_type request);
                     History.quality := Models.quality request;
                     History.format_id := Models.format_id request;
                     History.status := status metadata;
                     History.error_message := error metadata;
                     History.file_path := output_file metadata;
                     History.file_name := file_name metadata;
                     History.completed_at := completed_at metadata |}
                  table
            end
          else table
      | None => table
      end
  end.

(* the finally clause: task_done(), then drop the id from active_downloads *)
Definition worker_finally (download_id : string) (self : t) : t :=
  with_active_downloads (active_downloads self ∖ {[download_id]}) self.

(* The except clause (lines 113-122) and the finally clause.  When the
   metadata is gone, line 116 raises KeyError, which the loop's own handler
   logs. *)
Definition worker_failed (now : datetime) (e : string) (download_id : string)
    (request : DownloadRequest) (self : t) (table : list History.Download)
    : t * list History.Download :=
  let self1 := _update_status download_id FAILED self in
  match downloads self1 !! download_id with
  | None => (worker_finally download_id self1, table)
  | Some _ =>
      let self2 :=
        with_downloads
          (alter (fun m => md_set_completed_at now (md_set_error e m)) download_id
             (downloads self1)) self1 in
      (worker_finally download_id self2, _save_history download_id request self2 table)
  end.

(* Lines 101-111 and the finally clause.  When the metadata is gone, line
   103 raises KeyError inside the try block, so the except clause runs. *)
Definition worker_succeeded (now : datetime) (output_file : Downloader.Path)
    (download_id : string) (request : DownloadRequest) (self : t)
    (table : list History.Download) : t * list History.Download :=
  let self1 := _update_status download_id COMPLETED self in
  match downloads self1 !! download_id with
  | None => worker_failed now (String.append "'" (String.append download_id "'")) download_id request self1 table
  | Some _ =>
      let self2 :=
        with_downloads
          (alter (fun m => md_set_completed_at now
                             (md_set_output (Downloader.path_str output_file)
                                            (Downloader.path_name output_file) m))
             download_id (downloads self1)) self1 in
      (worker_finally download_id self2, _save_history download_id request self2 table)
  end.

(* How the awaited call ended, and the branch of the try statement it
   selects. *)
Definition worker_settle (now : datetime) (outcome : Downloader.Path + string)
    (download_id : string) (request : DownloadRequest) (self : t)
    (table : list History.Download) : t * list History.Download :=
  match outcome with
  | inl output_file => worker_succeeded now output_file download_id request self table
  | inr e => worker_failed now e download_id request self table
  end.

Definition is_old (threshold : datetime) (m : Metadata) : bool :=
  bool_decide (status m ∈ [COMPLETED; FAILED; CANCELLED])
  && match completed_at m with
     | Some c => c <? threshold
     | None => false
     end.

Definition old_downloads (threshold : datetime) (self : t) : list string :=
  (List.filter (fun kv : string * Metadata => is_old threshold (snd kv))
     (map_to_list (downloads self))).*1.

(* del self.downloads[id], and self.progress[id] if present *)
Definition evict (self : t) (download_id : string) : t :=
  with_progress (delete download_id (progress self))
    (with_downloads (delete download_id (downloads self)) self).

Definition cleanup_old_downloads (now : datetime) (max_age_hours : Z) (self : t)
    : result nat * t :=
  match rbind (timedelta_hours max_age_hours) (datetime_sub now) with
  | Raise e => (Raise e, self)
  | Ok threshold =>
      let old := old_downloads threshold self in
      (Ok (length old), foldl evict self old)
  end.

End DownloadQueue.

(** ** The running service

    The queue with its pool of workers, the history table, the session
    registry and the callers, as a transition system.  Each event is one
    stretch of code that runs without yielding: a call made by a route, or
    the part of [_worker] between two awaits.  [in_flight] holds the items
    whose worker is awaiting [download_video]; [engine_calls] records the
    calls made to it. *)

Module System.
Import Models.

Record t := {
  dq : DownloadQueue.t;
  history : list History.Download;
  sessions : SessionManager.t;
  in_flight : list (string * DownloadRequest);
  engine_calls : list DownloadQueue.EngineCall;
  draws : nat
}.

Definition init (max_concurrent : Z) : t :=
  {| dq := DownloadQueue.init max_concurrent;
     history := [];
     sessions := SessionManager.init;
     in_flight := [];
     engine_calls := [];
     draws := 0 |}.

Inductive Event : Type :=
(* download_queue.add_download(request, session_id, cookies, user_id) *)
| Submit (now : datetime) (request : DownloadRequest) (session_id : option string)
         (cookies : option Cookies) (user_id : option Z)
(* a free worker returns from queue.get() and calls download_video *)
| Take
(* yt-dlp calls the progress hook of an awaited download *)
| Hook (download_id : string) (data : Downloader.HookData)
(* an awaited download_video returns output_file *)
| Succeed (now : datetime) (download_id : string) (output_file : Downloader.Path)
(* an awaited download_video raises *)
| Fail (now : datetime) (download_id : string) (f : Downloader.Failure)
(* download_queue.cancel_download(download_id) *)
| Cancel (now : datetime) (download_id : string)
(* download_queue.cleanup_old_downloads(max_age_hours) *)
| Cleanup (now : datetime) (max_age_hours : Z)
(* session_manager.create_session(user_id, user_email, timeout_hours) *)
| SessionCreate (now : datetime) (user_id user_email : option string) (timeout_hours : Z)
(* session_manager.add_download(session_id, download_id) *)
| SessionAttach (now1 now2 : datetime) (session_id download_id : string)
(* session_manager.remove_download(session_id, download_id) *)
| SessionDetach (now1 now2 : datetime) (session_id download_id : string).

Definition with_dq (q : DownloadQueue.t) (s : t) : t :=
  {| dq := q; history := history s; sessions := sessions s;
     in_flight := in_flight s; engine_calls := engine_calls s; draws := draws s |}.

Definition with_sessions (m : SessionManager.t) (s : t) : t :=
  {| dq := dq s; history := history s; sessions := m;
     in_flight := in_flight s; engine_calls := engine_calls s; draws := draws s |}.

Definition flying (download_id : string) (s : t) : option DownloadRequest :=
  snd <$> List.find (fun ir : string * DownloadRequest => String.eqb (fst ir) download_id)
            (in_flight s).

Definition land (download_id : string) (l : list (string * DownloadRequest))
    : list (string * DownloadRequest) :=
  List.filter (fun ir : string * DownloadRequest => negb (String.eqb (fst ir) download_id)) l.

(* download_video calls progress_callback with a failure snapshot before it
   re-raises what the transfer raised *)
Definition last_callback (f : Downloader.Failure) (download_id : string)
    (q : DownloadQueue.t) : DownloadQueue.t :=
  match f with
  | Downloader.Rejected _ => q
  | Downloader.Failed error_msg =>
      match Downloader.failure_snapshot download_id error_msg with
      | Ok p => DownloadQueue._update_progress download_id p q
      | Raise _ => q
      end
  end.

Section Step.
Context `{Uuid4}.

(* [None]: the event cannot happen in this state. *)
Definition step (s : t) (ev : Event) : option t :=
  match ev with
  | Submit now request session_id cookies user_id =>
      Some {| dq := snd (DownloadQueue.add_download (draws s) now request session_id
                           cookies user_id (dq s));
              history := history s; sessions := sessions s;
              in_flight := in_flight s; engine_calls := engine_calls s;
              draws := S (draws s) |}
  | Take =>
      if Z.of_nat (length (in_flight s)) <? DownloadQueue.max_concurrent (dq s) then
        match DownloadQueue.worker_take (dq s) with
        | None => None
        | Some (call, q) =>
            Some {| dq := q; history := history s; sessions := sessions s;
                    in_flight := in_flight s ++
                      [(DownloadQueue.call_download_id call, DownloadQueue.call_request call)];
                    engine_calls := engine_calls s ++ [call];
                    draws := draws s |}
        end
      else None
  | Hook download_id data =>
      match flying download_id s with
      | None => None
      | Some _ =>
          match Downloader._progress_hook data download_id with
          | Ok (Some p) => Some (with_dq (DownloadQueue._update_progress download_id p (dq s)) s)
          | _ => Some s
          end
      end
  | Succeed now download_id output_file =>
      match flying download_id s with
      | None => None
      | Some request =>
          let r := DownloadQueue.worker_succeeded now output_file download_id
                     request (dq s) (history s) in
          Some {| dq := fst r; history := snd r; sessions := sessions s;
                  in_flight := land download_id (in_flight s);
                  engine_calls := engine_calls s; draws := draws s |}
      end
  | Fail now download_id f =>
      match flying download_id s with
      | None => None
      | Some request =>
          let r := DownloadQueue.worker_failed now (Downloader.Failure_str f)
                     download_id request (last_callback f download_id (dq s)) (history s) in
          Some {| dq := fst r; history := snd r; sessions := sessions s;
                  in_flight := land download_id (in_flight s);
                  engine_calls := engine_calls s; draws := draws s |}
      end
  | Cancel now download_id =>
      Some (with_dq (snd (DownloadQueue.cancel_download now download_id (dq s))) s)
  | Cleanup now max_age_hours =>
      Some (with_dq (snd (DownloadQueue.cleanup_old_downloads now max_age_hours (dq s))) s)
  | SessionCreate now user_id user_email timeout_hours =>
      Some {| dq := dq s; history := history s;
              sessions := snd (SessionManager.create_session (draws s) now user_id
                                 user_email timeout_hours (sessions s));
              in_flight := in_flight s; engine_calls := engine_calls s;
              draws := S (draws s) |}
  | SessionAttach now1 now2 session_id download_id =>
      Some (with_sessions
              (snd (SessionManager.add_download now1 now2 session_id download_id (sessions s))) s)
  | SessionDetach now1 now2 session_id download_id =>
      Some (with_sessions
              (snd (SessionManager.remove_download now1 now2 session_id download_id (sessions s))) s)
  end.

Fixpoint run (s : t) (evs : list Event) : option t :=
  match evs with
  | [] => Some s
  | ev :: evs' =>
      match step s ev with
      | None => None
      | Some s' => run s' evs'
      end
  end.

End Step.

(* the status a poller reads for a job *)
Definition status_of (download_id : string) (s : t) : option DownloadStatus :=
  DownloadQueue.status_at download_id (dq s).

End System.

(** * Vocabulary of the properties *)

Section VaultVocabulary.
Context `{Fernet} `{Json}.
Import CookieManager.

(* the session ids with a ciphertext are those with timestamps *)
Definition consistent (self : t) : Prop :=
  dom (_cookie_store self) = dom (_metadata self).



End VaultVocabulary.

Section SupplyVocabulary.
Context `{Uuid4}.

(* the registry only holds ids drawn before draw number [n] *)
Definition sessions_drawn_before (n : nat) (self : SessionManager.t) : Prop :=
  forall k, is_Some (SessionManager._sessions self !! uuid4 k) -> (k < n)%nat.

(* the queue only tracks ids drawn before draw number [n] *)
Definition downloads_drawn_before (n : nat) (self : DownloadQueue.t) : Prop :=
  forall k, is_Some (DownloadQueue.downloads self !! uuid4 k) -> (k < n)%nat.

End SupplyVocabulary.

(* the status the worker gives a job once the awaited call has ended *)
Definition final_status (outcome : Downloader.Path + string) : Models.DownloadStatus :=
  match outcome with inl _ => Models.COMPLETED | inr _ => Models.FAILED end.

Section SystemVocabulary.
Context `{Uuid4}.
Import Models.

Definition queued_ids (s : System.t) : list string :=
  (fun it : DownloadQueue.Item => fst (fst it)) <$> items (DownloadQueue.queue (System.dq s)).

Definition flying_ids (s : System.t) : list string :=
  fst <$> System.in_flight s.

(* the id is one of the uuid4 tokens drawn so far *)
Definition issued (s : System.t) (id : string) : Prop :=
  exists k, (k < System.draws s)%nat /\ id = uuid4 k.

(* every session id in the registry is one of the tokens drawn so far *)
Definition sessions_issued (s : System.t) : Prop :=
  forall id, is_Some (SessionManager._sessions (System.sessions s) !! id) -> issued s id.

(* What an event does to the status a poller reads for job [id]. *)
Inductive moves (s : System.t) (id : string)
  : System.Event -> option DownloadStatus -> option DownloadStatus -> Prop :=
| mv_same ev o :
    moves s id ev o o
| mv_submit now request sid cookies uid o :
    id = uuid4 (System.draws s) ->
    moves s id (System.Submit now request sid cookies uid) o (Some PENDING)
| mv_take st :
    head (queued_ids s) = Some id ->
    moves s id System.Take (Some st) (Some DOWNLOADING)
| mv_hook_downloading data st :
    id ∈ flying_ids s ->
    Downloader.hd_status data = Some "downloading" ->
    moves s id (System.Hook id data) (Some st) (Some DOWNLOADING)
| mv_hook_finished data st :
    id ∈ flying_ids s ->
    Downloader.hd_status data = Some "finished" ->
    moves s id (System.Hook id data) (Some st) (Some PROCESSING)
| mv_succeed now out st :
    id ∈ flying_ids s ->
    moves s id (System.Succeed now id out) (Some st) (Some COMPLETED)
| mv_fail now f st :
    id ∈ flying_ids s ->
    moves s id (System.Fail now id f) (Some st) (Some FAILED)
| mv_cancel now st :
    st <> COMPLETED -> st <> FAILED ->
    moves s id (System.Cancel now id) (Some st) (Some CANCELLED)
| mv_cleanup now hours st :
    st ∈ [COMPLETED; FAILED; CANCELLED] ->
    moves s id (System.Cleanup now hours) (Some st) None.

(* the position of a status along
   pending -> downloading -> processing -> completed | failed | cancelled *)
Definition rank (st : DownloadStatus) : nat :=
  match st with
  | PENDING => 0
  | DOWNLOADING => 1
  | PROCESSING => 2
  | COMPLETED | FAILED | CANCELLED => 3
  end.

(* one observed status followed by the next, along that chain *)
Definition forward (a b : DownloadStatus) : Prop :=
  a = b \/ (rank a < rank b)%nat.

(* two successive observations of a job: it appears as pending, moves
   forward, or is evicted once it has a final status *)
Definition successive (o o' : option DownloadStatus) : Prop :=
  match o, o' with
  | None, None => True
  | None, Some b => b = PENDING
  | Some a, Some b => forward a b
  | Some a, None => rank a = 3%nat
  end.

(* the statuses a poller of job [id] reads after each event of a run *)
Fixpoint observations (id : string) (s : System.t) (evs : list System.Event)
    : list (option DownloadStatus) :=
  match evs with
  | [] => []
  | ev :: evs' =>
      match System.step s ev with
      | None => []
      | Some s' => System.status_of id s' :: observations id s' evs'
      end
  end.

(* every observation follows the previous one along the chain *)
Fixpoint chain (o : option DownloadStatus) (l : list (option DownloadStatus)) : Prop :=
  match l with
  | [] => True
  | o' :: l' => successive o o' /\ chain o' l'
  end.

Definition is_cancel_of (id : string) (ev : System.Event) : bool :=
  match ev with
  | System.Cancel _ id' => String.eqb id' id
  | _ => false
  end.

Definition hook_says (what id : string) (ev : System.Event) : bool :=
  match ev with
  | System.Hook id' data =>
      String.eqb id' id &&
      match Downloader.hd_status data with
      | Some st => String.eqb st what
      | None => false
      end
  | _ => false
  end.

(* the engine reports no downloading sample for [id] once it has reported
   the transfer finished; [fin] tells whether it already has *)
Fixpoint engine_in_order (id : string) (fin : bool) (evs : list System.Event) : Prop :=
  match evs with
  | [] => True
  | ev :: evs' =>
      (hook_says "downloading" id ev = true -> fin = false) /\
      engine_in_order id (fin || hook_says "finished" id ev) evs'
  end.

(* The bookkeeping of a state the service can be in. *)
Record wf (s : System.t) : Prop := {
  wf_unbounded : maxsize (DownloadQueue.queue (System.dq s)) = 0;
  wf_downloads : forall id,
    is_Some (DownloadQueue.downloads (System.dq s) !! id) -> issued s id;
  wf_queued : forall id, id ∈ queued_ids s -> issued s id;
  wf_flying : forall id, id ∈ flying_ids s -> issued s id;
  wf_nodup : NoDup (queued_ids s ++ flying_ids s);
  wf_settled : forall id,
    System.status_of id s = Some COMPLETED \/ System.status_of id s = Some FAILED ->
    id ∉ queued_ids s /\ id ∉ flying_ids s
}.

(* Where a job that nobody has cancelled stands: pending while queued,
   downloading or (once the engine has reported the transfer finished)
   processing while a worker awaits the engine, and otherwise unknown,
   completed or failed. *)
Record tracked (id : string) (fin : bool) (s : System.t) : Prop := {
  tr_queued : id ∈ queued_ids s -> System.status_of id s = Some PENDING;
  tr_flying : id ∈ flying_ids s ->
    System.status_of id s = Some DOWNLOADING \/
    (System.status_of id s = Some PROCESSING /\ fin = true);
  tr_idle : id ∉ queued_ids s -> id ∉ flying_ids s ->
    System.status_of id s = None \/
    System.status_of id s = Some COMPLETED \/
    System.status_of id s = Some FAILED
}.

(* A job the worker has marked completed or failed: its id has been drawn,
   it is neither queued nor in flight, and a poller reads that status until
   the record is evicted. *)
Record settled (id : string) (st : DownloadStatus) (s : System.t) : Prop := {
  st_issued : issued s id;
  st_not_queued : id ∉ queued_ids s;
  st_not_flying : id ∉ flying_ids s;
  st_status : System.status_of id s = Some st \/ System.status_of id s = None
}.

(* every stored progress snapshot has its percentage within [0, 100] *)
Definition in_range (p : ProgressUpdate) : Prop :=
  (0 <= Models.progress p)%Q /\ (Models.progress p <= 100)%Q.

Definition progress_in_range (q : DownloadQueue.t) : Prop :=
  forall id p, DownloadQueue.progress q !! id = Some p -> in_range p.

End SystemVocabulary.

(** ** Concrete stand-ins, to run the model

    The properties below hold for every [Uuid4], [Fernet] and [Json]; these
    instances let the definitions be evaluated on examples. *)

Module Standin.

(* ids "0", "1", "2", ... *)
#[export] Instance uuid4_decimal : Uuid4 :=
  {| uuid4 := pretty; uuid4_inj := pretty_nat_inj |}.

(* a token is the Fernet version byte followed by the plaintext *)
Definition plain_decrypt (token : bytes) : option bytes :=
  match token with
  | x80 :: p => Some p
  | _ => None
  end.

#[export] Instance fernet_plain : Fernet :=
  {| fernet_encrypt := fun _ p => x80 :: p;
     fernet_decrypt := plain_decrypt;
     fernet_decrypt_encrypt := fun _ _ => eq_refl |}.

(* a dictionary is written as the binary digits of its code *)
Fixpoint digits (p : positive) : bytes :=
  match p with
  | xH => []
  | xO p' => x30 :: digits p'
  | xI p' => x31 :: digits p'
  end.

Fixpoint undigits (b : bytes) : option positive :=
  match b with
  | [] => Some xH
  | x30 :: b' => xO <$> undigits b'
  | x31 :: b' => xI <$> undigits b'
  | _ => None
  end.

Definition digits_loads (b : bytes) : string + Cookies :=
  match undigits b ≫= decode with
  | Some c => inr c
  | None => inl "Expecting value"
  end.

#[export] Instance json_digits : Json.
Proof.
  refine {| json_dumps := fun c => digits (encode c); json_loads := digits_loads |}.
  intros c. unfold digits_loads.
  assert (forall p, undigits (digits p) = Some p) as Hd.
  { induction p as [p IH|p IH|]; simpl; rewrite ?IH; reflexivity. }
  rewrite Hd. simpl. rewrite decode_encode. reflexivity.
Defined.

End Standin.

(** ** Example data *)

Module Examples.
Import Standin.

Section VaultData.
Import CookieManager.

(* 2026-01-01T00:00:00 *)
Definition NEW_YEAR_2026 : datetime := 739616 * US_PER_DAY.

Definition one_cookie : Cookies := {["SID" := "abc"]}.

Definition vault_after_store : t :=
  snd (store_cookies [] NEW_YEAR_2026 "s1" one_cookie 24 init).


End VaultData.

Section QueueData.
Import Models DownloadQueue.

Definition a_request : DownloadRequest :=
  {| Models.url := "https://www.youtube.com/watch?v=dQw4w9WgXcQ";
     Models.format_type := VIDEO;
     Models.format_id := None;
     Models.quality := Some "720p";
     Models.audio_format := Some "best";
     Models.video_codec := None;
     Models.audio_codec := None;
     Models.session_id := None |}.

Definition a_path : Downloader.Path :=
  {| Downloader.path_str := "downloads/clip.mp4"; Downloader.path_name := "clip.mp4" |}.

(* a queue of three workers after one submission: the job has id "0" *)
Definition queue_one : t :=
  snd (add_download 0 NEW_YEAR_2026 a_request None None None (init 3)).

(* a queue in which job "0" has owner 42 *)
Definition queue_owned : t :=
  snd (add_download 0 NEW_YEAR_2026 a_request None None (Some 42) (init 3)).

End QueueData.

Definition sample (status : string) (downloaded total : Q) : Downloader.HookData :=
  {| Downloader.hd_status := Some status;
     Downloader.hd_downloaded_bytes := Downloader.Val downloaded;
     Downloader.hd_total_bytes := None;
     Downloader.hd_total_bytes_estimate := Some total;
     Downloader.hd_speed := None;
     Downloader.hd_eta := None;
     Downloader.hd_filename := Some "clip.mp4" |}.

(* one job from submission to completion *)
Definition a_download : list System.Event :=
  [System.Submit NEW_YEAR_2026 a_request None None None;
   System.Take;
   System.Hook "0" (sample "downloading" 50 200);
   System.Hook "0" (sample "finished" 200 200);
   System.Succeed (NEW_YEAR_2026 + 9) "0" a_path].

End Examples.


(** * Further code *)

(** ** utils/validators.py: the URL check the downloader runs first *)

Module Validators.

(* Here a str is the list of its code points. *)
Definition lit (s : string) : list N :=
  Ascii.N_of_ascii <$> String.list_ascii_of_string s.

(* str.isspace() of one character *)
Definition is_space (c : N) : bool :=
  ((9 <=? c) && (c <=? 13) || (28 <=? c) && (c <=? 32) || (c =? 133) || (c =? 160)
   || (c =? 5760) || (8192 <=? c) && (c <=? 8202) || (c =? 8232) || (c =? 8233)
   || (c =? 8239) || (c =? 8287) || (c =? 12288))%N.

Fixpoint lstrip (s : list N) : list N :=
  match s with
  | [] => []
  | c :: s' => if is_space c then lstrip s' else s
  end.

Definition rstrip (s : list N) : list N := rev (lstrip (rev s)).

(* url.strip() *)
Definition strip (s : list N) : list N := rstrip (lstrip s).

(* The regular expressions of YOUTUBE_PATTERNS use literals, optional
   non-capturing groups, one character class repeated a fixed number of
   times, and one capture group. *)
Inductive regex : Type :=
| Lit (s : string)                 (* literal text *)
| Opt (r : regex)                  (* (?:r)? *)
| Cat (r1 r2 : regex)              (* r1r2 *)
| Cls (p : N -> bool) (n : nat)    (* [..]{n} *)
| Grp (r : regex).                 (* (r), group 1 *)

Fixpoint lit_match (l s : list N) : option (list N) :=
  match l, s with
  | [], _ => Some s
  | c :: l', d :: s' => if (c =? d)%N then lit_match l' s' else None
  | _ :: _, [] => None
  end.

Fixpoint cls_match (p : N -> bool) (n : nat) (s : list N) : option (list N) :=
  match n, s with
  | O, _ => Some s
  | S n', c :: s' => if p c then cls_match p n' s' else None
  | S _, [] => None
  end.

(* [run r s g k] matches [r] at the head of [s] with group 1 holding [g],
   and goes on with [k] on the rest; [None] when there is no match.  An
   optional group is tried first with its body and then without, as the
   backtracking matcher of [re] does. *)
Fixpoint run {A} (r : regex) (s : list N) (g : option (list N))
    (k : list N -> option (list N) -> option A) : option A :=
  match r with
  | Lit l =>
      match lit_match (lit l) s with
      | Some s' => k s' g
      | None => None
      end
  | Opt r' =>
      match run r' s g k with
      | Some x => Some x
      | None => k s g
      end
  | Cat r1 r2 => run r1 s g (fun s' g' => run r2 s' g' k)
  | Cls p n =>
      match cls_match p n s with
      | Some s' => k s' g
      | None => None
      end
  | Grp r' => run r' s g (fun s' _ => k s' (Some (take (length s - length s') s)))
  end.

(* a match starting at the head of [s]: its group 1 *)
Definition match_at (r : regex) (s : list N) : option (option (list N)) :=
  run r s None (fun _ g => Some g).

(* re.search(r, s): the leftmost match; [Some g] carries match.group(1) *)
Fixpoint search (r : regex) (s : list N) : option (option (list N)) :=
  match match_at r s with
  | Some g => Some g
  | None =>
      match s with
      | [] => None
      | _ :: s' => search r s'
      end
  end.

(* [a-zA-Z0-9_-] *)
Definition id_char (c : N) : bool :=
  ((97 <=? c) && (c <=? 122) || (65 <=? c) && (c <=? 90) || (48 <=? c) && (c <=? 57)
   || (c =? 95) || (c =? 45))%N.

(* (?:https?://)? *)
Definition scheme : regex := Opt (Cat (Lit "http") (Cat (Opt (Lit "s")) (Lit "://"))).

(* (?:www\.)? *)
Definition www : regex := Opt (Lit "www.").

(* ([a-zA-Z0-9_-]{11}) *)
Definition video_id : regex := Grp (Cls id_char 11).

Definition YOUTUBE_PATTERNS : list regex :=
  [ Cat scheme (Cat www (Cat (Lit "youtube.com/watch?v=") video_id));
    Cat scheme (Cat www (Cat (Lit "youtube.com/embed/") video_id));
    Cat scheme (Cat www (Cat (Lit "youtube.com/v/") video_id));
    Cat scheme (Cat (Lit "youtu.be/") video_id);
    Cat scheme (Cat www (Cat (Lit "youtube.com/shorts/") video_id)) ].

(* the loop over the patterns: group 1 of the first pattern that matches
   somewhere in [url] *)
Fixpoint first_match (patterns : list regex) (url : list N) : option (list N) :=
  match patterns with
  | [] => None
  | pattern :: rest =>
      match search pattern url with
      | Some g => g
      | None => first_match rest url
      end
  end.

(* [inl message]: raise InvalidURLError(message) *)
Definition validate_youtube_url (url : list N) : string + list N :=
  match url with
  | [] => inl "URL must be a non-empty string"
  | _ :: _ =>
      match first_match YOUTUBE_PATTERNS (strip url) with
      | Some (c :: video_id) =>
          inr (lit "https://www.youtube.com/watch?v=" ++ c :: video_id)
      | _ => inl "Not a valid YouTube URL"
      end
  end.

Definition extract_video_id (url : list N) : option (list N) :=
  first_match YOUTUBE_PATTERNS url.

End Validators.

(** * Vocabulary of the further properties *)

Section SessionVocabulary.
Context `{Uuid4}.
Import SessionManager.



(* the record a lookup at clock reading [now1] leaves a session with, when
   the call then sets the job list to [f] of it *)
Definition touched (now1 now2 : datetime) (f : list string -> list string)
    (o : option Session) : option Session :=
  match o with
  | None => None
  | Some s =>
      if expires_at s <? now1 then None
      else Some (set_active_downloads (f (active_downloads s)) (set_last_activity now2 s))
  end.


(* the calls that look a session up *)
Inductive SessionCall : Type :=
| GetSession (now1 now2 : datetime) (session_id : string)
| IsAuthenticated (now1 now2 : datetime) (session_id : string)
| AddDownload (now1 now2 : datetime) (session_id download_id : string)
| RemoveDownload (now1 now2 : datetime) (session_id download_id : string)
| GetActiveDownloadCount (now1 now2 : datetime) (session_id : string).

Definition call (self : t) (c : SessionCall) : t :=
  match c with
  | GetSession now1 now2 sid => snd (get_session now1 now2 sid self)
  | IsAuthenticated now1 now2 sid => snd (is_authenticated now1 now2 sid self)
  | AddDownload now1 now2 sid jid => snd (add_download now1 now2 sid jid self)
  | RemoveDownload now1 now2 sid jid => snd (remove_download now1 now2 sid jid self)
  | GetActiveDownloadCount now1 now2 sid =>
      snd (get_active_download_count now1 now2 sid self)
  end.

(* the session a call looks up and the clock reading of its expiry test *)
Definition call_session (c : SessionCall) : string :=
  match c with
  | GetSession _ _ sid | IsAuthenticated _ _ sid | AddDownload _ _ sid _
  | RemoveDownload _ _ sid _ | GetActiveDownloadCount _ _ sid => sid
  end.

Definition call_clock (c : SessionCall) : datetime :=
  match c with
  | GetSession now1 _ _ | IsAuthenticated now1 _ _ | AddDownload now1 _ _ _
  | RemoveDownload now1 _ _ _ | GetActiveDownloadCount now1 _ _ => now1
  end.

End SessionVocabulary.

Module FurtherExamples.
Import Standin Examples.

(* a registry holding one session, "0", of owner u1, for a day *)
Definition registry_one : SessionManager.t :=
  snd (SessionManager.create_session 0 NEW_YEAR_2026 (Some "u1") None 24
         SessionManager.init).

(* a job of user 42 from submission to completion, while a second job waits *)
Definition an_owned_download : list System.Event :=
  [System.Submit NEW_YEAR_2026 a_request None None (Some 42);
   System.Submit (NEW_YEAR_2026 + 1) a_request None None (Some 42);
   System.Take;
   System.Hook "0" (sample "downloading" 50 200);
   System.Succeed (NEW_YEAR_2026 + 9) "0" a_path].

End FurtherExamples.

Section QueueFurtherVocabulary.
Context `{Uuid4}.
Import Models.

(* the items a run submits, in order; [n] counts the uuid4 draws made
   before the run *)
Fixpoint submitted (n : nat) (evs : list System.Event) : list DownloadQueue.Item :=
  match evs with
  | [] => []
  | System.Submit _ request _ cookies _ :: evs' =>
      (uuid4 n, request, cookies) :: submitted (S n) evs'
  | System.SessionCreate _ _ _ _ :: evs' => submitted (S n) evs'
  | _ :: evs' => submitted n evs'
  end.

(* the items the workers have handed to the engine, in order *)
Definition dispatched (s : System.t) : list DownloadQueue.Item :=
  (fun c => (DownloadQueue.call_download_id c, DownloadQueue.call_request c,
             DownloadQueue.call_cookies c)) <$> System.engine_calls s.

(* the metadata of a job and its progress snapshot tell the same story *)
Definition agree (id : string) (md : DownloadQueue.Metadata) (p : ProgressUpdate) : Prop :=
  DownloadQueue.download_id md = id /\
  Models.download_id p = id /\
  Models.status p = DownloadQueue.status md.

(* every tracked job has a snapshot that agrees with its metadata *)
Definition snapshots_agree (q : DownloadQueue.t) : Prop :=
  forall id md, DownloadQueue.downloads q !! id = Some md ->
    exists p, DownloadQueue.progress q !! id = Some p /\ agree id md p.

(* what the fields of a metadata record tell about its status *)
Record record_ok (md : DownloadQueue.Metadata) : Prop := {
  ok_completed :
    DownloadQueue.status md = COMPLETED <-> is_Some (DownloadQueue.output_file md);
  ok_file_name :
    is_Some (DownloadQueue.file_name md) <-> is_Some (DownloadQueue.output_file md);
  ok_failed :
    DownloadQueue.status md = FAILED <-> is_Some (DownloadQueue.error md);
  ok_final :
    DownloadQueue.status md ∈ [COMPLETED; FAILED; CANCELLED] ->
    is_Some (DownloadQueue.completed_at md);
  ok_pending :
    DownloadQueue.status md = PENDING -> DownloadQueue.completed_at md = None
}.

Definition records_ok (q : DownloadQueue.t) : Prop :=
  forall id md, DownloadQueue.downloads q !! id = Some md -> record_ok md.

(* a job reads downloading or processing only while a worker awaits the
   engine for it *)
Definition busy_flying (s : System.t) : Prop :=
  forall id,
    System.status_of id s = Some DOWNLOADING \/ System.status_of id s = Some PROCESSING ->
    id ∈ flying_ids s.

(* what a row of the history table records *)
Record row_ok (r : History.Download) : Prop := {
  row_status : History.status r = COMPLETED \/ History.status r = FAILED;
  row_user : History.user_id r <> 0;
  row_completed_at : is_Some (History.completed_at r);
  row_file : History.status r = COMPLETED <-> is_Some (History.file_path r);
  row_error : History.status r = FAILED <-> is_Some (History.error_message r)
}.

(* the table holds at most one row per job, and every row is well formed *)
Definition history_ok (table : list History.Download) : Prop :=
  NoDup (History.download_id <$> table) /\ forall r, r ∈ table -> row_ok r.

(* what the runs of the service keep true *)
Record healthy (s : System.t) : Prop := {
  h_wf : wf s;
  h_busy : busy_flying s;
  h_pool : Z.of_nat (length (System.in_flight s)) <=
             Z.max 0 (DownloadQueue.max_concurrent (System.dq s));
  h_agree : snapshots_agree (System.dq s);
  h_records : records_ok (System.dq s);
  h_history : history_ok (System.history s)
}.

End QueueFurtherVocabulary.


(** * Properties *)

(** ** The credential vault *)

Section Vault.
Context `{Fernet} `{Json}.
Import CookieManager.

Lemma decrypt_encrypt_cookies iv cookies blob :
  encrypt_cookies iv cookies = Ok blob -> decrypt_cookies blob = Ok cookies.
Proof.
  unfold encrypt_cookies, decrypt_cookies. intros [= <-].
  rewrite fernet_decrypt_encrypt, json_loads_dumps. reflexivity.
Qed.

Lemma decrypt_cookies_classified blob :
  (exists cookies, decrypt_cookies blob = Ok cookies) \/
  (exists message, decrypt_cookies blob = Raise (EncryptionError message)).
Proof.
  unfold decrypt_cookies.
  destruct (fernet_decrypt blob) as [p|]; [|right; eauto].
  destruct (json_loads p) as [e|c]; [right|left]; eauto.
Qed.

Lemma delete_cookies_store sid sid' self :
  _cookie_store (snd (delete_cookies sid self)) !! sid' =
  if decide (sid = sid') then None else _cookie_store self !! sid'.
Proof.
  unfold delete_cookies.
  destruct (_cookie_store self !! sid) as [b|] eqn:E; simpl.
  - rewrite lookup_delete. reflexivity.
  - case_decide; subst; auto.
Qed.

Lemma delete_cookies_consistent sid self :
  consistent self -> consistent (snd (delete_cookies sid self)).
Proof.
  unfold consistent, delete_cookies. intros Hc.
  destruct (_cookie_store self !! sid); simpl; [|done].
  rewrite !dom_delete_L, Hc. reflexivity.
Qed.


Lemma foldl_delete_invariant (P : t -> Prop) (l : list string) :
  (forall sid s, P s -> P (snd (delete_cookies sid s))) ->
  forall self, P self -> P (foldl (fun s sid => snd (delete_cookies sid s)) self l).
Proof.
  intros Hstep. induction l as [|sid l IH]; simpl; intros self HP; [done|].
  apply IH, Hstep, HP.
Qed.

Lemma cleanup_expired_consistent now self :
  consistent self -> consistent (snd (cleanup_expired now self)).
Proof. apply foldl_delete_invariant. intros; by apply delete_cookies_consistent. Qed.


Lemma retrieve_cookies_consistent now1 now2 sid self :
  consistent self -> consistent (snd (retrieve_cookies now1 now2 sid self)).
Proof.
  intros Hc. unfold retrieve_cookies.
  destruct (_cookie_store self !! sid) as [blob|] eqn:Es; [|done].
  destruct (_metadata self !! sid) as [m|] eqn:Em.
  - destruct (expires_at m <? now1).
    + by apply delete_cookies_consistent.
    + destruct (decrypt_cookies blob); simpl; [|done].
      unfold consistent in *; simpl. rewrite dom_insert_L, Hc.
      apply elem_of_dom_2 in Em. set_solver.
  - destruct (decrypt_cookies blob); done.
Qed.



Lemma store_cookies_consistent iv now sid cookies hours self :
  consistent self ->
  fst (store_cookies iv now sid cookies hours self) = Ok tt ->
  consistent (snd (store_cookies iv now sid cookies hours self)).
Proof.
  unfold store_cookies, consistent. intros Hc.
  destruct (encrypt_cookies iv cookies) as [blob|e]; [|done].
  destruct (plus_hours now hours); simpl; [|done].
  intros _. rewrite !dom_insert_L, Hc. reflexivity.
Qed.


End Vault.

Section VaultClaims.
Context `{Fernet} `{Json}.
Import CookieManager.

Lemma retrieve_cookies_live now1 now2 sid self blob m cookies :
  _cookie_store self !! sid = Some blob ->
  _metadata self !! sid = Some m ->
  now1 <= expires_at m ->
  decrypt_cookies blob = Ok cookies ->
  retrieve_cookies now1 now2 sid self =
    (Ok (Some cookies),
     {| _cookie_store := _cookie_store self;
        _metadata := <[sid := touch now2 m]> (_metadata self) |}).
Proof.
  intros Hs Hm Hlive Hd. unfold retrieve_cookies. rewrite Hs, Hm, Hd.
  destruct (Z.ltb_spec (expires_at m) now1); [lia|reflexivity].
Qed.

Lemma retrieve_cookies_expired now1 now2 sid self blob m :
  _cookie_store self !! sid = Some blob ->
  _metadata self !! sid = Some m ->
  expires_at m < now1 ->
  retrieve_cookies now1 now2 sid self =
    (Ok None,
     {| _cookie_store := delete sid (_cookie_store self);
        _metadata := delete sid (_metadata self) |}).
Proof.
  intros Hs Hm Hexp. unfold retrieve_cookies, delete_cookies. rewrite Hs, Hm.
  destruct (Z.ltb_spec (expires_at m) now1); [reflexivity|lia].
Qed.



(** C10, as the code has it.  From a vault in which the session ids with
    a ciphertext are those with timestamps, [store_cookies] when it returns
    without raising, [retrieve_cookies], [delete_cookies] and
    [cleanup_expired] lead to a vault with the same property. *)
Theorem vault_consistent_preserved (self : t) :
  consistent self ->
  (forall iv now sid cookies hours,
     fst (store_cookies iv now sid cookies hours self) = Ok tt ->
     consistent (snd (store_cookies iv now sid cookies hours self))) /\
  (forall now1 now2 sid, consistent (snd (retrieve_cookies now1 now2 sid self))) /\
  (forall sid, consistent (snd (delete_cookies sid self))) /\
  (forall now, consistent (snd (cleanup_expired now self))).
Proof.
  intros Hc. repeat split; intros.
  - by apply store_cookies_consistent.
  - by apply retrieve_cookies_consistent.
  - by apply delete_cookies_consistent.
  - by apply cleanup_expired_consistent.
Qed.

(* a store with an expiry inside the calendar returns without raising *)
Lemma store_cookies_returns iv now sid cookies hours self :
  valid_datetime now ->
  0 <= hours ->
  now + hours * US_PER_HOUR <= DATETIME_MAX ->
  fst (store_cookies iv now sid cookies hours self) = Ok tt.
Proof.
  unfold valid_datetime, store_cookies, encrypt_cookies, plus_hours, timedelta_hours,
    datetime_add, rbind. intros Hnow Hh Hmax.
  assert (TIMEDELTA_MIN <= 0) by (vm_compute; discriminate).
  assert (DATETIME_MAX <= TIMEDELTA_MAX) by (vm_compute; discriminate).
  assert (0 < US_PER_HOUR) by reflexivity.
  destruct (Z.leb_spec TIMEDELTA_MIN (hours * US_PER_HOUR)); [|nia].
  destruct (Z.leb_spec (hours * US_PER_HOUR) TIMEDELTA_MAX); [|nia]. simpl.
  destruct (Z.leb_spec 0 (now + hours * US_PER_HOUR)); [|nia].
  destruct (Z.leb_spec (now + hours * US_PER_HOUR) DATETIME_MAX); [|nia].
  reflexivity.
Qed.

End VaultClaims.

Section VaultExamples.
Import CookieManager Standin Examples.




(* C10 as stated fails: the expiry of a store with a time-to-live of 10^8
   hours falls after year 9999, so the call raises once the ciphertext is
   written and before the timestamps are. *)
Lemma store_cookies_overflow_inconsistent :
  consistent init /\
  fst (store_cookies [] NEW_YEAR_2026 "s1" one_cookie 100000000 init) = Raise OverflowError /\
  ~ consistent (snd (store_cookies [] NEW_YEAR_2026 "s1" one_cookie 100000000 init)).
Proof.
  split; [reflexivity|]. split; [reflexivity|].
  unfold consistent. intros Heq.
  assert ("s1" ∈ dom (_cookie_store
            (snd (store_cookies [] NEW_YEAR_2026 "s1" one_cookie 100000000 init)))) as Hin.
  { apply elem_of_dom. eexists. reflexivity. }
  rewrite Heq in Hin. apply elem_of_dom in Hin as [m Hm]. vm_compute in Hm. discriminate.
Qed.

Lemma vault_consistent_preserved_witness :
  consistent vault_after_store /\
  consistent (snd (retrieve_cookies (NEW_YEAR_2026 + 1) (NEW_YEAR_2026 + 2) "s1" vault_after_store)).
Proof.
  assert (consistent vault_after_store) as Hc.
  { apply (vault_consistent_preserved init).
    - reflexivity.
    - reflexivity. }
  split; [exact Hc|].
  apply (vault_consistent_preserved vault_after_store Hc).
Defined.

End VaultExamples.

(** ** The session registry *)

Section SessionClaims.
Context `{Uuid4}.
Import SessionManager.

Lemma plus_hours_ok now hours expiry :
  plus_hours now hours = Ok expiry -> expiry = now + hours * US_PER_HOUR.
Proof.
  unfold plus_hours, timedelta_hours, datetime_add, rbind.
  destruct (_ && _); [|discriminate].
  destruct (_ && _); [|discriminate].
  by intros [= <-].
Qed.

(* what a successful create_session does to a registry of earlier tokens *)
Lemma create_session_effect (draw : nat) (now : datetime)
    (user_id user_email : option string) (timeout_hours : Z)
    (self self' : t) (sid : string) :
  sessions_drawn_before draw self ->
  create_session draw now user_id user_email timeout_hours self = (Ok sid, self') ->
  sid = uuid4 draw /\
  (forall k, (k < draw)%nat -> uuid4 k <> sid) /\
  _sessions self !! sid = None /\
  sessions_drawn_before (S draw) self' /\
  (forall sid', sid' <> sid -> _sessions self' !! sid' = _sessions self !! sid') /\
  (exists session,
     _sessions self' !! sid = Some session /\
     session_id session = sid /\
     active_downloads session = [] /\
     expires_at session = now + timeout_hours * US_PER_HOUR /\
     (authenticated session = true <-> exists u, user_id = Some u /\ u <> "")) /\
  (forall now1 now2, now1 <= now + timeout_hours * US_PER_HOUR ->
     exists session,
       fst (get_session now1 now2 sid self') = Some session /\
       active_downloads session = [] /\
       (user_id = None -> authenticated session = false)) /\
  (forall now1 now2, now + timeout_hours * US_PER_HOUR < now1 ->
     fst (get_session now1 now2 sid self') = None /\
     _sessions (snd (get_session now1 now2 sid self')) !! sid = None).
Proof.
  intros Hdrawn. unfold create_session.
  destruct (plus_hours now timeout_hours) as [expiry|e] eqn:Hp; [|discriminate].
  apply plus_hours_ok in Hp. subst expiry. intros [= <- <-].
  split; [reflexivity|].
  split. { intros k Hk Heq. apply uuid4_inj in Heq. lia. }
  split.
  { destruct (_sessions self !! uuid4 draw) eqn:E; [|reflexivity].
    assert (draw < draw)%nat by (apply Hdrawn; rewrite E; eauto). lia. }
  split.
  { intros k. simpl. rewrite lookup_insert. case_decide as Heq.
    - apply uuid4_inj in Heq. lia.
    - intros Hk. apply Hdrawn in Hk. lia. }
  split. { intros sid' Hne. simpl. by rewrite lookup_insert_ne. }
  split.
  { eexists. simpl. rewrite lookup_insert_eq. split; [reflexivity|]. simpl.
    repeat split.
    - unfold truthy_str. destruct user_id as [u|]; [|discriminate].
      intros Hu. exists u. split; [reflexivity|]. intros ->. discriminate.
    - intros (u & -> & Hu). simpl.
      destruct (String.eqb_spec u ""); [contradiction|reflexivity]. }
  split.
  - intros now1 now2 Hlive. unfold get_session. simpl.
    rewrite lookup_insert_eq. simpl.
    destruct (Z.ltb_spec (now + timeout_hours * US_PER_HOUR) now1); [lia|].
    eexists. simpl. split; [reflexivity|]. simpl. split; [reflexivity|].
    intros ->. reflexivity.
  - intros now1 now2 Hdead. unfold get_session, delete_session. simpl.
    rewrite lookup_insert_eq. simpl.
    destruct (Z.ltb_spec (now + timeout_hours * US_PER_HOUR) now1); [|lia].
    simpl. rewrite lookup_delete_eq. done.
Qed.

End SessionClaims.

Section SessionExamples.
Import SessionManager Standin Examples.

(* C9 as stated fails: an owner id was supplied, the empty string, and the
   session is not authenticated. *)
Lemma create_session_empty_owner :
  fst (create_session 0 NEW_YEAR_2026 (Some "") None 24 init) = Ok "0" /\
  (user_id <$> _sessions (snd (create_session 0 NEW_YEAR_2026 (Some "") None 24 init)) !! "0")
    = Some (Some "") /\
  (authenticated <$> _sessions (snd (create_session 0 NEW_YEAR_2026 (Some "") None 24 init)) !! "0")
    = Some false.
Proof. repeat split; reflexivity. Qed.

End SessionExamples.

(** ** The download queue: single operations *)

Section QueueLemmas.
Import Models DownloadQueue.

Lemma status_alter (f : Metadata -> Metadata) (g : DownloadStatus -> DownloadStatus)
    (id id' : string) (d : gmap string Metadata) :
  (forall m, status (f m) = g (status m)) ->
  status <$> alter f id d !! id' =
    if decide (id = id') then g <$> (status <$> d !! id') else status <$> d !! id'.
Proof.
  intros Hf. rewrite lookup_alter. case_decide; [subst id'|done].
  destruct (d !! id); simpl; [by rewrite Hf|done].
Qed.

Lemma status_at_update_status id st id' self :
  status_at id' (_update_status id st self) =
    if decide (id = id') then (fun _ => st) <$> status_at id' self else status_at id' self.
Proof. unfold status_at, _update_status. simpl. by apply status_alter. Qed.

Lemma status_at_update_progress id p id' self :
  status_at id' (_update_progress id p self) =
    if decide (id = id') then (fun _ => Models.status p) <$> status_at id' self
    else status_at id' self.
Proof. unfold status_at, _update_progress. simpl. by apply status_alter. Qed.

Lemma status_at_cancel now id id' self :
  status_at id' (snd (cancel_download now id self)) =
    if decide (id = id')
    then (fun s => if bool_decide (s ∈ [COMPLETED; FAILED]) then s else CANCELLED)
           <$> status_at id' self
    else status_at id' self.
Proof.
  unfold cancel_download, status_at.
  destruct (downloads self !! id) as [md|] eqn:E.
  - destruct (bool_decide (status md ∈ [COMPLETED; FAILED])) eqn:Hb; simpl.
    + destruct (decide (id = id')); [subst; rewrite E; simpl; by rewrite Hb|done].
    + rewrite (status_alter _ (fun s => s)) by (intros; reflexivity).
      rewrite (status_alter _ (fun _ => CANCELLED)) by (intros; reflexivity).
      destruct (decide (id = id')); [subst; rewrite E; simpl; by rewrite Hb|done].
  - simpl. destruct (decide (id = id')); [subst; by rewrite E|done].
Qed.

Lemma save_history_cases id request self table :
  _save_history id request self table = table \/
  exists md uid (r : History.Download),
    downloads self !! id = Some md /\ user_id md = Some uid /\ uid <> 0 /\
    History.first_by_download_id id table = None /\
    _save_history id request self table = table ++ [r] /\
    History.download_id r = id /\ History.user_id r = uid /\
    History.status r = status md /\
    History.youtube_url r = Models.url request /\
    History.error_message r = error md /\
    History.file_path r = output_file md /\
    History.completed_at r = completed_at md.
Proof.
  unfold _save_history.
  destruct (downloads self !! id) as [md|]; [|by left].
  destruct (user_id md) as [uid|] eqn:Hu; [|by left].
  unfold truthy_int. destruct (Z.eqb_spec uid 0); simpl; [by left|].
  destruct (History.first_by_download_id id table) eqn:Hf; [by left|].
  right. eexists md, uid, _. unfold History.add. repeat split; eauto.
Qed.

Lemma first_by_download_id_app id table (r : History.Download) :
  History.download_id r = id ->
  is_Some (History.first_by_download_id id (table ++ [r])).
Proof.
  intros Hr. unfold History.first_by_download_id.
  induction table as [|x table IH]; simpl.
  - rewrite Hr, String.eqb_refl. eauto.
  - destruct (String.eqb (History.download_id x) id); eauto.
Qed.

Lemma save_history_skip_existing id request self table :
  is_Some (History.first_by_download_id id table) ->
  _save_history id request self table = table.
Proof.
  intros [r Hr]. unfold _save_history.
  destruct (downloads self !! id) as [md|]; [|done].
  destruct (user_id md) as [uid|]; [|done].
  destruct (truthy_int (Some uid)); [|done]. by rewrite Hr.
Qed.

Lemma save_history_idempotent id request self table :
  _save_history id request self (_save_history id request self table)
    = _save_history id request self table.
Proof.
  destruct (save_history_cases id request self table)
    as [Heq|(md & uid & r & _ & _ & _ & _ & Heq & Hid & _)].
  - by rewrite !Heq.
  - rewrite Heq. apply save_history_skip_existing.
    by apply first_by_download_id_app.
Qed.

Lemma downloads_update_status_ne id st id' self :
  id <> id' -> downloads (_update_status id st self) !! id' = downloads self !! id'.
Proof. intros Hne. unfold _update_status. simpl. by rewrite lookup_alter_ne. Qed.

Lemma downloads_update_status_eq id st self :
  downloads (_update_status id st self) !! id = md_set_status st <$> downloads self !! id.
Proof. unfold _update_status. simpl. by rewrite lookup_alter_eq. Qed.

Lemma worker_failed_effect now e id request self table :
  match downloads self !! id with
  | None =>
      downloads (fst (worker_failed now e id request self table)) !! id = None /\
      snd (worker_failed now e id request self table) = table
  | Some md =>
      exists md',
        downloads (fst (worker_failed now e id request self table)) !! id = Some md' /\
        user_id md' = user_id md /\ status md' = FAILED /\ completed_at md' = Some now /\
        snd (worker_failed now e id request self table) =
          _save_history id request (fst (worker_failed now e id request self table)) table
  end.
Proof.
  unfold worker_failed. rewrite downloads_update_status_eq.
  destruct (downloads self !! id) as [md|] eqn:E; simpl.
  - eexists. rewrite lookup_alter_eq, lookup_alter_eq, E. simpl.
    split; [reflexivity|]. repeat split.
  - rewrite lookup_alter_eq, E. done.
Qed.

Lemma worker_succeeded_effect now out id request self table :
  match downloads self !! id with
  | None =>
      downloads (fst (worker_succeeded now out id request self table)) !! id = None /\
      snd (worker_succeeded now out id request self table) = table
  | Some md =>
      exists md',
        downloads (fst (worker_succeeded now out id request self table)) !! id = Some md' /\
        user_id md' = user_id md /\ status md' = COMPLETED /\ completed_at md' = Some now /\
        snd (worker_succeeded now out id request self table) =
          _save_history id request (fst (worker_succeeded now out id request self table)) table
  end.
Proof.
  unfold worker_succeeded. rewrite downloads_update_status_eq.
  destruct (downloads self !! id) as [md|] eqn:E; simpl.
  - eexists. rewrite lookup_alter_eq, lookup_alter_eq, E. simpl.
    split; [reflexivity|]. repeat split.
  - pose proof (worker_failed_effect now (String.append "'" (String.append id "'")) id request
                  (_update_status id COMPLETED self) table) as Hf.
    rewrite downloads_update_status_eq, E in Hf. exact Hf.
Qed.

Lemma worker_settle_effect now outcome id request self table :
  match downloads self !! id with
  | None =>
      downloads (fst (worker_settle now outcome id request self table)) !! id = None /\
      snd (worker_settle now outcome id request self table) = table
  | Some md =>
      exists md',
        downloads (fst (worker_settle now outcome id request self table)) !! id = Some md' /\
        user_id md' = user_id md /\ status md' = final_status outcome /\
        completed_at md' = Some now /\
        snd (worker_settle now outcome id request self table) =
          _save_history id request (fst (worker_settle now outcome id request self table)) table
  end.
Proof.
  destruct outcome as [out|e]; simpl.
  - apply worker_succeeded_effect.
  - apply worker_failed_effect.
Qed.

End QueueLemmas.

Section QueueClaims.
Context `{Uuid4}.
Import Models DownloadQueue.

(** C1, as the code has it.  [cancel_download] returns false and changes
    nothing when the job is unknown or its status is completed or failed.
    Otherwise, also when the job is already cancelled, it returns true, sets
    the status to cancelled and the completion time to the clock reading, and
    leaves the other jobs alone; a further cancel of that job returns true
    again. *)
Theorem cancel_download_spec (now : datetime) (id : string) (self : t) :
  (downloads self !! id = None -> cancel_download now id self = (false, self)) /\
  (forall md, downloads self !! id = Some md ->
     status md = COMPLETED \/ status md = FAILED ->
     cancel_download now id self = (false, self)) /\
  (forall md, downloads self !! id = Some md ->
     status md <> COMPLETED -> status md <> FAILED ->
     fst (cancel_download now id self) = true /\
     downloads (snd (cancel_download now id self)) !! id
       = Some (md_set_completed_at now (md_set_status CANCELLED md)) /\
     (forall id', id' <> id ->
        downloads (snd (cancel_download now id self)) !! id' = downloads self !! id') /\
     forall now', fst (cancel_download now' id (snd (cancel_download now id self))) = true).
Proof.
  split; [|split].
  - intros Hn. unfold cancel_download. by rewrite Hn.
  - intros md Hmd Hst. unfold cancel_download. rewrite Hmd.
    rewrite bool_decide_eq_true_2; [done|]. destruct Hst as [-> | ->]; set_solver.
  - intros md Hmd Hc Hf.
    assert (cancel_download now id self =
            (true, with_downloads (alter (md_set_completed_at now) id
                     (downloads (_update_status id CANCELLED self)))
                     (_update_status id CANCELLED self))) as Heq.
    { unfold cancel_download. rewrite Hmd.
      rewrite bool_decide_eq_false_2; [done|]. set_solver. }
    rewrite Heq. simpl. split; [done|]. split; [|split].
    + rewrite !lookup_alter_eq, Hmd. done.
    + intros id' Hne. by rewrite !lookup_alter_ne.
    + intros now'. unfold cancel_download. simpl.
      rewrite !lookup_alter_eq, Hmd. simpl. done.
Qed.

(** C3, as the code has it.  Cancelling a job that waits in the queue
    with status pending succeeds and labels the job cancelled, but leaves its
    item in the queue.  The worker that later finds that item at the head of
    the queue does not look at the label: it sets the status back to
    downloading and calls the extraction engine with the job's request, id
    and credentials. *)
Theorem worker_take_after_cancel (now : datetime) (id : string)
    (request : DownloadRequest) (cookies : option Cookies)
    (md : Metadata) (self : t) :
  (id, request, cookies) ∈ items (queue self) ->
  downloads self !! id = Some md ->
  status md = PENDING ->
  fst (cancel_download now id self) = true /\
  status_at id (snd (cancel_download now id self)) = Some CANCELLED /\
  items (queue (snd (cancel_download now id self))) = items (queue self) /\
  forall self1 rest,
    items (queue self1) = (id, request, cookies) :: rest ->
    status_at id self1 = Some CANCELLED ->
    exists self2,
      worker_take self1 =
        Some ({| call_request := request; call_download_id := id; call_cookies := cookies |},
              self2) /\
      status_at id self2 = Some DOWNLOADING /\
      items (queue self2) = rest.
Proof.
  intros Hq Hmd Hst.
  assert (cancel_download now id self =
          (true, with_downloads (alter (md_set_completed_at now) id
                   (downloads (_update_status id CANCELLED self)))
                   (_update_status id CANCELLED self))) as Heq.
  { unfold cancel_download. rewrite Hmd, Hst. done. }
  rewrite Heq. simpl. split; [done|]. split.
  { unfold status_at. simpl. rewrite !lookup_alter_eq, Hmd. done. }
  split; [done|].
  intros self1 rest Hhead Hcancelled.
  unfold worker_take. rewrite Hhead. eexists. split; [reflexivity|].
  split; [|done].
  rewrite status_at_update_status, decide_True by done.
  change (status_at id (with_queue _ self1)) with (status_at id self1).
  by rewrite Hcancelled.
Qed.

(* what add_download does to an unbounded queue tracking earlier tokens *)
Lemma add_download_effect (draw : nat) (now : datetime) (request : DownloadRequest)
    (session_id : option string) (cookies : option Cookies) (user_id : option Z)
    (self : t) :
  maxsize (queue self) <= 0 ->
  downloads_drawn_before draw self ->
  exists self',
    add_download draw now request session_id cookies user_id self = (Ok (uuid4 draw), self') /\
    (forall k, (k < draw)%nat -> uuid4 k <> uuid4 draw) /\
    downloads self !! uuid4 draw = None /\
    downloads self' =
      <[uuid4 draw := {| download_id := uuid4 draw;
                         DownloadQueue.session_id := session_id;
                         DownloadQueue.user_id := user_id;
                         url := Models.url request;
                         status := PENDING;
                         created_at := now;
                         completed_at := None;
                         output_file := None;
                         file_name := None;
                         error := None |}]> (downloads self) /\
    progress self' =
      <[uuid4 draw := {| Models.download_id := uuid4 draw;
                         Models.status := PENDING;
                         Models.progress := 0;
                         downloaded_bytes := Some 0%Q;
                         total_bytes := None;
                         speed := None;
                         eta := None;
                         filename := None;
                         Models.error := None |}]> (progress self) /\
    items (queue self') = items (queue self) ++ [(uuid4 draw, request, cookies)] /\
    maxsize (queue self') = maxsize (queue self) /\
    downloads_drawn_before (S draw) self'.
Proof.
  intros Hmax Hdrawn.
  assert ((maxsize (queue self) <=? 0) = true) as Hleb by lia.
  unfold add_download, new_ProgressUpdate, put_nowait, full. cbn.
  change (Qle_bool 0 0 && Qle_bool 0 100) with true. cbn.
  eexists. split; [rewrite Hleb; reflexivity|]. cbn.
  split. { intros k Hk Heq. apply uuid4_inj in Heq. lia. }
  split.
  { destruct (downloads self !! uuid4 draw) eqn:E; [|done].
    assert (draw < draw)%nat by (apply Hdrawn; rewrite E; eauto). lia. }
  repeat split.
  intros k. cbn. rewrite lookup_insert. case_decide as Heq.
  - apply uuid4_inj in Heq. lia.
  - intros Hk. apply Hdrawn in Hk. lia.
Qed.

(** C5, as the code has it.  When the awaited call has ended and the
    worker has marked the job completed or failed, it writes a history row
    keyed by the job id, carrying the final status, exactly when the job is
    tracked with a non-zero owner user id and the table has no row with that
    job id; in every other case the table is left as it is.  Saving again
    after that changes nothing. *)
Theorem worker_history_spec (now : datetime) (outcome : Downloader.Path + string)
    (id : string) (request : DownloadRequest) (self : t)
    (table : list History.Download) :
  let self' := fst (worker_settle now outcome id request self table) in
  let table' := snd (worker_settle now outcome id request self table) in
  (downloads self !! id = None -> table' = table) /\
  (forall md, downloads self !! id = Some md ->
     truthy_int (DownloadQueue.user_id md) = false -> table' = table) /\
  (is_Some (History.first_by_download_id id table) -> table' = table) /\
  (forall md uid, downloads self !! id = Some md ->
     DownloadQueue.user_id md = Some uid -> uid <> 0 ->
     History.first_by_download_id id table = None ->
     exists r,
       table' = table ++ [r] /\
       History.download_id r = id /\
       History.user_id r = uid /\
       History.status r = final_status outcome /\
       History.completed_at r = Some now) /\
  _save_history id request self' table' = table'.
Proof.
  intros self' table'. subst self' table'.
  pose proof (worker_settle_effect now outcome id request self table) as Heff.
  destruct (downloads self !! id) as [md|] eqn:E.
  - destruct Heff as (md' & Hmd' & Hu & Hst & Hc & Htab).
    set (self' := fst (worker_settle now outcome id request self table)) in *.
    rewrite Htab.
    split; [done|]. split; [|split; [|split]].
    + intros ? [= <-] Hfalse. unfold _save_history. rewrite Hmd', Hu.
      destruct (DownloadQueue.user_id md) as [uid|]; [|done].
      by rewrite Hfalse.
    + apply save_history_skip_existing.
    + intros ? uid [= <-] Huid Hnz Hnone.
      destruct (save_history_cases id request self' table)
        as [Heq|(md2 & uid2 & r & Hmd2 & Hu2 & _ & _ & Heq & Hid & Hruid & Hrst & _ & _ & _ & Hrc)].
      * exfalso. revert Heq. unfold _save_history. rewrite Hmd', Hu, Huid, Hnone.
        unfold truthy_int. destruct (Z.eqb_spec uid 0); [done|]. simpl.
        unfold History.add. intros Heq.
        apply (f_equal (@length _)) in Heq. rewrite length_app in Heq. simpl in Heq. lia.
      * rewrite Hmd' in Hmd2. injection Hmd2 as <-.
        exists r. rewrite Hrst, Hrc, Hruid. repeat split; try done. congruence.
    + apply save_history_idempotent.
  - destruct Heff as [Hnone ->].
    split; [done|]. split; [done|]. split; [done|]. split; [done|].
    unfold _save_history. by rewrite Hnone.
Qed.

End QueueClaims.

Section QueueExamples.
Import Models DownloadQueue Standin Examples.

(* C1 as stated fails: both cancel calls on the same job return true. *)
Lemma cancel_download_twice_true :
  fst (cancel_download (NEW_YEAR_2026 + 1) "0" queue_one) = true /\
  status_at "0" (snd (cancel_download (NEW_YEAR_2026 + 1) "0" queue_one)) = Some CANCELLED /\
  fst (cancel_download (NEW_YEAR_2026 + 2) "0"
         (snd (cancel_download (NEW_YEAR_2026 + 1) "0" queue_one))) = true.
Proof. repeat split; reflexivity. Qed.

Lemma cancel_download_spec_witness :
  fst (cancel_download (NEW_YEAR_2026 + 1) "0" queue_one) = true /\
  cancel_download (NEW_YEAR_2026 + 1) "7" queue_one = (false, queue_one).
Proof.
  destruct (cancel_download_spec (NEW_YEAR_2026 + 1) "0" queue_one) as (_ & _ & H3).
  destruct (cancel_download_spec (NEW_YEAR_2026 + 1) "7" queue_one) as (H1 & _).
  split.
  - eapply H3; [reflexivity| |]; vm_compute; discriminate.
  - apply H1. reflexivity.
Defined.

(* C3 as stated fails: job "0" is cancelled while it waits in the queue,
   and the next worker still calls the extraction engine for it. *)
Lemma cancelled_job_is_dispatched :
  exists s1 s2,
    System.run (System.init 3)
      [System.Submit NEW_YEAR_2026 a_request None None None;
       System.Cancel (NEW_YEAR_2026 + 1) "0"] = Some s1 /\
    System.status_of "0" s1 = Some CANCELLED /\
    System.in_flight s1 = [] /\
    System.engine_calls s1 = [] /\
    System.step s1 System.Take = Some s2 /\
    System.engine_calls s2 =
      [{| call_request := a_request; call_download_id := "0"; call_cookies := None |}] /\
    System.status_of "0" s2 = Some DOWNLOADING.
Proof. do 2 eexists. repeat split; reflexivity. Qed.

Lemma worker_take_after_cancel_witness :
  exists self2,
    worker_take (snd (cancel_download (NEW_YEAR_2026 + 1) "0" queue_one)) =
      Some ({| call_request := a_request; call_download_id := "0"; call_cookies := None |},
            self2) /\
    status_at "0" self2 = Some DOWNLOADING /\
    items (queue self2) = [].
Proof.
  destruct (worker_take_after_cancel (NEW_YEAR_2026 + 1) "0" a_request None
              {| download_id := "0"; DownloadQueue.session_id := None; user_id := None;
                 url := Models.url a_request; status := PENDING;
                 created_at := NEW_YEAR_2026; completed_at := None; output_file := None;
                 file_name := None; error := None |} queue_one)
    as (_ & _ & _ & Htake).
  - apply list_elem_of_singleton. reflexivity.
  - reflexivity.
  - reflexivity.
  - apply Htake; reflexivity.
Defined.

(* C5 as stated fails: job "1" belongs to session "0" and has no owner
   user id.  Once the worker has marked it completed, the session still
   lists it as active and the history table has no row for it. *)
Lemma completed_job_not_detached_nor_saved :
  exists s,
    System.run (System.init 3)
      [System.SessionCreate NEW_YEAR_2026 None None 24;
       System.Submit (NEW_YEAR_2026 + 1) a_request (Some "0") None None;
       System.SessionAttach (NEW_YEAR_2026 + 2) (NEW_YEAR_2026 + 3) "0" "1";
       System.Take;
       System.Succeed (NEW_YEAR_2026 + 4) "1" a_path] = Some s /\
    System.status_of "1" s = Some COMPLETED /\
    (SessionManager.active_downloads <$>
       SessionManager._sessions (System.sessions s) !! "0") = Some ["1"] /\
    System.history s = [].
Proof. eexists. repeat split; reflexivity. Qed.

Lemma worker_history_spec_witness :
  exists r,
    snd (worker_settle (NEW_YEAR_2026 + 4) (inl a_path) "0" a_request queue_owned [])
      = [] ++ [r] /\
    History.download_id r = "0" /\
    History.user_id r = 42 /\
    History.status r = COMPLETED /\
    History.completed_at r = Some (NEW_YEAR_2026 + 4).
Proof.
  eapply (proj1 (proj2 (proj2 (proj2
            (worker_history_spec (NEW_YEAR_2026 + 4) (inl a_path) "0" a_request queue_owned []))))).
  - reflexivity.
  - reflexivity.
  - discriminate.
  - reflexivity.
Defined.

End QueueExamples.


Section QueueEffects.
Context `{Uuid4}.
Import Models DownloadQueue.

Lemma downloads_add_download draw now request sid cookies uid self :
  exists md,
    status md = PENDING /\
    downloads (snd (add_download draw now request sid cookies uid self))
      = <[uuid4 draw := md]> (downloads self).
Proof.
  eexists. split; [|unfold add_download, new_ProgressUpdate; cbn;
    change (Qle_bool 0 0 && Qle_bool 0 100) with true; cbn;
    destruct (put_nowait _ _); reflexivity].
  reflexivity.
Qed.

Lemma status_at_add_download draw now request sid cookies uid id self :
  status_at id (snd (add_download draw now request sid cookies uid self)) =
    if decide (uuid4 draw = id) then Some PENDING else status_at id self.
Proof.
  destruct (downloads_add_download draw now request sid cookies uid self) as (md & Hst & Heq).
  unfold status_at. rewrite Heq, lookup_insert.
  destruct (decide (uuid4 draw = id)); [simpl; by rewrite Hst|done].
Qed.

Lemma queue_add_download draw now request sid cookies uid self :
  maxsize (queue self) <= 0 ->
  queue (snd (add_download draw now request sid cookies uid self)) =
    {| maxsize := maxsize (queue self);
       items := items (queue self) ++ [(uuid4 draw, request, cookies)] |}.
Proof.
  intros Hmax. assert ((maxsize (queue self) <=? 0) = true) as Hleb by lia.
  unfold add_download, new_ProgressUpdate, put_nowait, full. cbn.
  change (Qle_bool 0 0 && Qle_bool 0 100) with true. cbn. rewrite Hleb. reflexivity.
Qed.

Lemma worker_take_effect self call q :
  worker_take self = Some (call, q) ->
  exists rest,
    items (queue self) = (call_download_id call, call_request call, call_cookies call) :: rest /\
    q = _update_status (call_download_id call) DOWNLOADING
          (with_queue {| maxsize := maxsize (queue self); items := rest |} self).
Proof.
  unfold worker_take. destruct (items (queue self)) as [|[[id request] cookies] rest]; [done|].
  intros [= <- <-]. exists rest. done.
Qed.

Lemma status_at_worker_failed now e id request self table id' :
  status_at id' (fst (worker_failed now e id request self table)) =
    if decide (id = id') then (fun _ => FAILED) <$> status_at id' self else status_at id' self.
Proof.
  unfold worker_failed.
  destruct (downloads (_update_status id FAILED self) !! id) eqn:E; simpl;
    unfold status_at; simpl.
  - rewrite (status_alter _ (fun s => s)) by (intros; reflexivity).
    rewrite (status_alter _ (fun _ => FAILED)) by (intros; reflexivity).
    destruct (decide (id = id')); [|done]. by destruct (downloads self !! id').
  - by rewrite (status_alter _ (fun _ => FAILED)) by (intros; reflexivity).
Qed.

Lemma status_at_worker_succeeded now out id request self table id' :
  status_at id' (fst (worker_succeeded now out id request self table)) =
    if decide (id = id') then (fun _ => COMPLETED) <$> status_at id' self else status_at id' self.
Proof.
  unfold worker_succeeded.
  destruct (downloads (_update_status id COMPLETED self) !! id) eqn:E.
  - simpl. unfold status_at; simpl.
    rewrite (status_alter _ (fun s => s)) by (intros; reflexivity).
    rewrite (status_alter _ (fun _ => COMPLETED)) by (intros; reflexivity).
    destruct (decide (id = id')); [|done]. by destruct (downloads self !! id').
  - rewrite status_at_worker_failed, status_at_update_status.
    destruct (decide (id = id')); [subst id'|done].
    rewrite downloads_update_status_eq in E. unfold status_at.
    destruct (downloads self !! id); [done|done].
Qed.

Lemma queue_worker_failed now e id request self table :
  queue (fst (worker_failed now e id request self table)) = queue self.
Proof.
  unfold worker_failed.
  by destruct (downloads (_update_status id FAILED self) !! id).
Qed.

Lemma queue_worker_succeeded now out id request self table :
  queue (fst (worker_succeeded now out id request self table)) = queue self.
Proof.
  unfold worker_succeeded.
  destruct (downloads (_update_status id COMPLETED self) !! id); [done|].
  by rewrite queue_worker_failed.
Qed.

Lemma queue_cancel_download now id self :
  queue (snd (cancel_download now id self)) = queue self.
Proof.
  unfold cancel_download. destruct (downloads self !! id) as [md|]; [|done].
  by destruct (bool_decide _).
Qed.

Lemma foldl_evict_downloads (l : list string) (self : t) (id : string) :
  downloads (foldl evict self l) !! id =
    if decide (id ∈ l) then None else downloads self !! id.
Proof.
  revert self. induction l as [|x l IH]; intros self; simpl.
  - done.
  - rewrite IH. unfold evict. simpl. rewrite lookup_delete.
    destruct (decide (id ∈ l)), (decide (x = id)), (decide (id ∈ x :: l));
      try done; subst; set_solver.
Qed.

Lemma foldl_evict_progress (l : list string) (self : t) (id : string) :
  progress (foldl evict self l) !! id =
    if decide (id ∈ l) then None else progress self !! id.
Proof.
  revert self. induction l as [|x l IH]; intros self; simpl.
  - done.
  - rewrite IH. unfold evict. simpl. rewrite lookup_delete.
    destruct (decide (id ∈ l)), (decide (x = id)), (decide (id ∈ x :: l));
      try done; subst; set_solver.
Qed.

Lemma foldl_evict_queue (l : list string) (self : t) :
  queue (foldl evict self l) = queue self.
Proof. revert self. induction l as [|x l IH]; intros self; simpl; [done|by rewrite IH]. Qed.

Lemma elem_of_old_downloads threshold self id :
  id ∈ old_downloads threshold self ->
  exists md, downloads self !! id = Some md /\ is_old threshold md = true.
Proof.
  unfold old_downloads. rewrite list_elem_of_fmap. intros ([id' md] & -> & Hin).
  apply list_elem_of_In, filter_In in Hin as [Hin Hold]. simpl in *.
  apply list_elem_of_In, elem_of_map_to_list in Hin. eauto.
Qed.

Lemma cleanup_downloads now hours self id :
  downloads (snd (cleanup_old_downloads now hours self)) !! id = downloads self !! id \/
  (downloads (snd (cleanup_old_downloads now hours self)) !! id = None /\
   exists md, downloads self !! id = Some md /\
              status md ∈ [COMPLETED; FAILED; CANCELLED]).
Proof.
  unfold cleanup_old_downloads.
  destruct (rbind (timedelta_hours hours) (datetime_sub now)) as [threshold|e]; [|by left].
  simpl. rewrite foldl_evict_downloads.
  destruct (decide (id ∈ old_downloads threshold self)) as [Hin|]; [|by left].
  right. split; [done|].
  apply elem_of_old_downloads in Hin as (md & Hmd & Hold).
  exists md. split; [done|]. unfold is_old in Hold.
  apply andb_prop in Hold as [Hst _]. by apply bool_decide_eq_true in Hst.
Qed.

Lemma cleanup_progress now hours self id :
  progress (snd (cleanup_old_downloads now hours self)) !! id = progress self !! id \/
  progress (snd (cleanup_old_downloads now hours self)) !! id = None.
Proof.
  unfold cleanup_old_downloads.
  destruct (rbind (timedelta_hours hours) (datetime_sub now)) as [threshold|e]; [|by left].
  simpl. rewrite foldl_evict_progress.
  destruct (decide (id ∈ old_downloads threshold self)); [by right|by left].
Qed.

Lemma cleanup_queue now hours self :
  queue (snd (cleanup_old_downloads now hours self)) = queue self.
Proof.
  unfold cleanup_old_downloads.
  destruct (rbind (timedelta_hours hours) (datetime_sub now)) as [threshold|e]; [|done].
  simpl. apply foldl_evict_queue.
Qed.

End QueueEffects.

Section SystemLemmas.
Context `{Uuid4}.
Import Models.

Lemma flying_elem id s request :
  System.flying id s = Some request -> id ∈ flying_ids s.
Proof.
  unfold System.flying, flying_ids.
  destruct (List.find _ (System.in_flight s)) as [[id' r]|] eqn:E; [|done].
  intros _. apply find_some in E as [Hin Heq]. simpl in Heq.
  apply String.eqb_eq in Heq. subst id'.
  apply list_elem_of_fmap. exists (id, r). split; [done|by apply list_elem_of_In].
Qed.

Lemma new_ProgressUpdate_ok id st pr db tb sp et fn er p :
  new_ProgressUpdate id st pr db tb sp et fn er = Ok p ->
  in_range p /\ Models.status p = st /\ Models.progress p = pr.
Proof.
  unfold new_ProgressUpdate.
  destruct (Qle_bool 0 pr) eqn:H0; [|done].
  destruct (Qle_bool pr 100) eqn:H1; [|done]. simpl.
  intros [= <-]. unfold in_range. simpl.
  apply Qle_bool_iff in H0, H1. done.
Qed.

Lemma hook_status data id p :
  Downloader._progress_hook data id = Ok (Some p) ->
  in_range p /\
  ((Downloader.hd_status data = Some "downloading" /\ Models.status p = DOWNLOADING) \/
   (Downloader.hd_status data = Some "finished" /\ Models.status p = PROCESSING)).
Proof.
  unfold Downloader._progress_hook.
  destruct (Downloader.hd_status data) as [st|]; [|done].
  destruct (String.eqb_spec st "downloading") as [->|_].
  - unfold rbind.
    destruct (if Downloader.truthy_num _ then _ else _) as [pr|]; [|done].
    destruct (new_ProgressUpdate _ _ _ _ _ _ _ _ _) as [u|] eqn:E; [|done].
    intros [= <-]. apply new_ProgressUpdate_ok in E as (Hr & Hs & _). eauto.
  - destruct (String.eqb_spec st "finished") as [->|_]; [|done].
    unfold rbind.
    destruct (new_ProgressUpdate _ _ _ _ _ _ _ _ _) as [u|] eqn:E; [|done].
    intros [= <-]. apply new_ProgressUpdate_ok in E as (Hr & Hs & _). eauto.
Qed.

Lemma failure_snapshot_ok id msg p :
  Downloader.failure_snapshot id msg = Ok p ->
  in_range p /\ Models.status p = FAILED.
Proof.
  unfold Downloader.failure_snapshot. intros E.
  apply new_ProgressUpdate_ok in E as (Hr & Hs & _). done.
Qed.

Lemma status_at_last_callback f id id' q :
  DownloadQueue.status_at id' (System.last_callback f id q) =
    if decide (id = id')
    then (fun st => match f with Downloader.Rejected _ => st | Downloader.Failed _ => FAILED end)
           <$> DownloadQueue.status_at id' q
    else DownloadQueue.status_at id' q.
Proof.
  unfold System.last_callback. destruct f as [m|m].
  - destruct (decide (id = id')); [|done]. by destruct (DownloadQueue.status_at id' q).
  - destruct (Downloader.failure_snapshot id m) as [p|] eqn:E; [|done].
    apply failure_snapshot_ok in E as [_ Hst].
    rewrite status_at_update_progress, Hst. done.
Qed.

(* what one event does to the status of a job *)
Lemma step_moves s ev s' id :
  System.step s ev = Some s' ->
  moves s id ev (System.status_of id s) (System.status_of id s').
Proof.
  unfold System.status_of.
  destruct ev as [now request sid cookies uid| |jid data|now jid out|now jid f
                 |now jid|now hours|now uid email hours|n1 n2 sid jid|n1 n2 sid jid]; simpl.
  - (* Submit *)
    intros [= <-]. simpl. rewrite status_at_add_download.
    destruct (decide (uuid4 (System.draws s) = id)); [|constructor].
    by apply mv_submit.
  - (* Take *)
    destruct (_ <? _); [|done].
    destruct (DownloadQueue.worker_take (System.dq s)) as [[call q]|] eqn:E; [|done].
    intros [= <-]. simpl.
    apply worker_take_effect in E as (rest & Hitems & ->).
    rewrite status_at_update_status.
    destruct (decide (DownloadQueue.call_download_id call = id)) as [<-|]; [|constructor].
    change (DownloadQueue.status_at (DownloadQueue.call_download_id call)
              (DownloadQueue.with_queue _ (System.dq s)))
      with (DownloadQueue.status_at (DownloadQueue.call_download_id call) (System.dq s)).
    destruct (DownloadQueue.status_at _ (System.dq s)) as [st|]; simpl; [|constructor].
    apply mv_take. unfold queued_ids. by rewrite Hitems.
  - (* Hook *)
    destruct (System.flying jid s) as [request|] eqn:Hfly; [|done].
    destruct (Downloader._progress_hook data jid) as [[p|]|] eqn:Hhook;
      intros [= <-]; try constructor.
    simpl. rewrite status_at_update_progress.
    destruct (decide (jid = id)) as [<-|]; [|constructor].
    apply flying_elem in Hfly.
    destruct (DownloadQueue.status_at jid (System.dq s)) as [st|]; simpl; [|constructor].
    apply hook_status in Hhook as (_ & [[Hd ->]|[Hd ->]]).
    + by apply mv_hook_downloading.
    + by apply mv_hook_finished.
  - (* Succeed *)
    destruct (System.flying jid s) as [request|] eqn:Hfly; [|done].
    intros [= <-]. simpl. rewrite status_at_worker_succeeded.
    destruct (decide (jid = id)) as [<-|]; [|constructor].
    apply flying_elem in Hfly.
    destruct (DownloadQueue.status_at jid (System.dq s)) as [st|]; simpl; [|constructor].
    by apply mv_succeed.
  - (* Fail *)
    destruct (System.flying jid s) as [request|] eqn:Hfly; [|done].
    intros [= <-]. simpl. rewrite status_at_worker_failed, status_at_last_callback.
    destruct (decide (jid = id)) as [<-|]; [|constructor].
    apply flying_elem in Hfly.
    destruct (DownloadQueue.status_at jid (System.dq s)) as [st|]; simpl; [|constructor].
    destruct f; simpl; by apply mv_fail.
  - (* Cancel *)
    intros [= <-]. simpl. rewrite status_at_cancel.
    destruct (decide (jid = id)) as [<-|]; [|constructor].
    destruct (DownloadQueue.status_at jid (System.dq s)) as [st|]; simpl; [|constructor].
    destruct (bool_decide (st ∈ [COMPLETED; FAILED])) eqn:Hb; [constructor|].
    apply bool_decide_eq_false in Hb. apply mv_cancel; set_solver.
  - (* Cleanup *)
    intros [= <-]. simpl. unfold DownloadQueue.status_at.
    destruct (cleanup_downloads now hours (System.dq s) id)
      as [->|[-> (md & -> & Hst)]]; [constructor|].
    simpl. by apply mv_cleanup.
  - intros [= <-]. constructor.
  - intros [= <-]. constructor.
  - intros [= <-]. constructor.
Qed.

Lemma flying_ids_land id (l : list (string * DownloadRequest)) :
  fst <$> System.land id l = List.filter (fun x => negb (String.eqb x id)) (fst <$> l).
Proof.
  unfold System.land. induction l as [|[x r] l IH]; [done|].
  rewrite fmap_cons. cbn [List.filter fst].
  destruct (negb (String.eqb x id)); [rewrite fmap_cons|]; by rewrite IH.
Qed.

Lemma elem_of_landed id x (l : list string) :
  x ∈ List.filter (fun y => negb (String.eqb y id)) l <-> x ∈ l /\ x <> id.
Proof.
  rewrite !list_elem_of_In, filter_In. rewrite negb_true_iff, String.eqb_neq. done.
Qed.

Lemma NoDup_landed id (l : list string) :
  NoDup l -> NoDup (List.filter (fun y => negb (String.eqb y id)) l).
Proof. rewrite !NoDup_ListNoDup. apply List.NoDup_filter. Qed.

(* what one event does to the queue, the jobs in flight and the draw count *)
Lemma step_shape s ev s' :
  maxsize (DownloadQueue.queue (System.dq s)) = 0 ->
  System.step s ev = Some s' ->
  maxsize (DownloadQueue.queue (System.dq s')) = 0 /\
  (System.draws s <= System.draws s')%nat /\
  match ev with
  | System.Submit _ _ _ _ _ =>
      System.draws s' = S (System.draws s) /\
      queued_ids s' = queued_ids s ++ [uuid4 (System.draws s)] /\
      flying_ids s' = flying_ids s
  | System.Take =>
      exists id, queued_ids s = id :: queued_ids s' /\ flying_ids s' = flying_ids s ++ [id]
  | System.Succeed _ id _ | System.Fail _ id _ =>
      queued_ids s' = queued_ids s /\
      flying_ids s' = List.filter (fun y => negb (String.eqb y id)) (flying_ids s)
  | _ => queued_ids s' = queued_ids s /\ flying_ids s' = flying_ids s
  end.
Proof.
  intros Hmax.
  destruct ev as [now request sid cookies uid| |jid data|now jid out|now jid f
                 |now jid|now hours|now uid email hours|n1 n2 sid jid|n1 n2 sid jid]; simpl.
  - intros [= <-]. unfold queued_ids, flying_ids. simpl.
    rewrite queue_add_download by lia. simpl. rewrite fmap_app. simpl.
    repeat split; try done. lia.
  - destruct (_ <? _); [|done].
    destruct (DownloadQueue.worker_take (System.dq s)) as [[call q]|] eqn:E; [|done].
    intros [= <-]. apply worker_take_effect in E as (rest & Hitems & ->).
    unfold queued_ids, flying_ids. simpl. rewrite Hitems, fmap_app. simpl.
    repeat split; try done. eauto.
  - destruct (System.flying jid s) as [request|]; [|done].
    destruct (Downloader._progress_hook data jid) as [[p|]|]; intros [= <-]; done.
  - destruct (System.flying jid s) as [request|]; [|done].
    intros [= <-]. unfold queued_ids, flying_ids. simpl.
    rewrite queue_worker_succeeded, flying_ids_land. done.
  - destruct (System.flying jid s) as [request|]; [|done].
    intros [= <-]. unfold queued_ids, flying_ids. simpl.
    rewrite queue_worker_failed, flying_ids_land.
    assert (DownloadQueue.queue (System.last_callback f jid (System.dq s))
            = DownloadQueue.queue (System.dq s)) as ->; [|done].
    unfold System.last_callback. destruct f; [done|].
    by destruct (Downloader.failure_snapshot jid error_msg).
  - intros [= <-]. unfold queued_ids, flying_ids. simpl.
    rewrite queue_cancel_download. done.
  - intros [= <-]. unfold queued_ids, flying_ids. simpl.
    rewrite cleanup_queue. done.
  - intros [= <-]. repeat split; try done. simpl. lia.
  - intros [= <-]. done.
  - intros [= <-]. done.
Qed.

Lemma issued_mono s s' id :
  (System.draws s <= System.draws s')%nat -> issued s id -> issued s' id.
Proof. intros Hle (k & Hk & ->). exists k. split; [lia|done]. Qed.

Lemma issued_not_next s id : issued s id -> id <> uuid4 (System.draws s).
Proof. intros (k & Hk & ->) Heq. apply uuid4_inj in Heq. lia. Qed.

Lemma moves_known s id ev o st :
  moves s id ev o (Some st) ->
  is_Some o \/
  (st = PENDING /\ id = uuid4 (System.draws s) /\
   exists now request sid cookies uid, ev = System.Submit now request sid cookies uid).
Proof.
  inversion 1; subst; eauto.
  right. repeat split; eauto 10.
Qed.

Lemma status_of_is_Some id s :
  is_Some (System.status_of id s) <->
  is_Some (DownloadQueue.downloads (System.dq s) !! id).
Proof.
  unfold System.status_of, DownloadQueue.status_at.
  destruct (DownloadQueue.downloads (System.dq s) !! id); simpl; split; intros [? ?]; eauto; done.
Qed.

Lemma wf_init max_concurrent : wf (System.init max_concurrent).
Proof.
  split; simpl.
  - done.
  - intros id [md Hmd]. rewrite lookup_empty in Hmd. done.
  - intros id Hin. unfold queued_ids in Hin. simpl in Hin. by apply elem_of_nil in Hin.
  - intros id Hin. unfold flying_ids in Hin. simpl in Hin. by apply elem_of_nil in Hin.
  - constructor.
  - intros id [Hs|Hs]; unfold System.status_of, DownloadQueue.status_at in Hs;
      simpl in Hs; rewrite lookup_empty in Hs; done.
Qed.

Lemma moves_settled s id ev o st :
  moves s id ev o (Some st) ->
  st = COMPLETED \/ st = FAILED ->
  o = Some st \/
  (id ∈ flying_ids s /\
   ((exists now out, ev = System.Succeed now id out) \/
    (exists now f, ev = System.Fail now id f))).
Proof.
  inversion 1; subst; intros [?|?]; try discriminate; eauto 10.
Qed.

Lemma step_queued s ev s' id :
  maxsize (DownloadQueue.queue (System.dq s)) = 0 ->
  System.step s ev = Some s' ->
  id ∈ queued_ids s' ->
  id ∈ queued_ids s \/
  (id = uuid4 (System.draws s) /\ System.draws s' = S (System.draws s)).
Proof.
  intros Hmax Hstep. destruct (step_shape s ev s' Hmax Hstep) as (_ & _ & Hshape).
  destruct ev; simpl in Hshape.
  - destruct Hshape as (Hd & -> & _). rewrite elem_of_app, list_elem_of_singleton.
    intros [?|?]; eauto.
  - destruct Hshape as (h & -> & _). rewrite elem_of_cons. eauto.
  - destruct Hshape as [-> _]. eauto.
  - destruct Hshape as [-> _]. eauto.
  - destruct Hshape as [-> _]. eauto.
  - destruct Hshape as [-> _]. eauto.
  - destruct Hshape as [-> _]. eauto.
  - destruct Hshape as [-> _]. eauto.
  - destruct Hshape as [-> _]. eauto.
  - destruct Hshape as [-> _]. eauto.
Qed.

Lemma step_flying s ev s' id :
  maxsize (DownloadQueue.queue (System.dq s)) = 0 ->
  System.step s ev = Some s' ->
  id ∈ flying_ids s' ->
  id ∈ flying_ids s \/ (ev = System.Take /\ head (queued_ids s) = Some id).
Proof.
  intros Hmax Hstep. destruct (step_shape s ev s' Hmax Hstep) as (_ & _ & Hshape).
  destruct ev; simpl in Hshape.
  - destruct Hshape as (_ & _ & ->). eauto.
  - destruct Hshape as (h & Hq & ->). rewrite elem_of_app, list_elem_of_singleton.
    intros [? | ->]; [eauto|]. right. by rewrite Hq.
  - destruct Hshape as [_ ->]. eauto.
  - destruct Hshape as [_ ->]. rewrite elem_of_landed. intros [? _]. eauto.
  - destruct Hshape as [_ ->]. rewrite elem_of_landed. intros [? _]. eauto.
  - destruct Hshape as [_ ->]. eauto.
  - destruct Hshape as [_ ->]. eauto.
  - destruct Hshape as [_ ->]. eauto.
  - destruct Hshape as [_ ->]. eauto.
  - destruct Hshape as [_ ->]. eauto.
Qed.

Lemma step_nodup s ev s' :
  wf s -> System.step s ev = Some s' -> NoDup (queued_ids s' ++ flying_ids s').
Proof.
  intros Hwf Hstep.
  destruct (step_shape s ev s' (wf_unbounded _ Hwf) Hstep) as (_ & _ & Hshape).
  pose proof (wf_nodup _ Hwf) as Hnd.
  assert (forall id, NoDup
            (queued_ids s ++ List.filter (fun y => negb (String.eqb y id)) (flying_ids s)))
    as Hland.
  { intros id. apply NoDup_app in Hnd as (Hq & Hdisj & Hf).
    apply NoDup_app. split; [done|]. split; [|by apply NoDup_landed].
    intros x Hx. rewrite elem_of_landed. intros [Hxf _]. by apply (Hdisj x). }
  destruct ev; simpl in Hshape.
  - destruct Hshape as (_ & -> & ->).
    rewrite <- app_assoc. simpl. rewrite <- Permutation_middle.
    apply NoDup_cons. split; [|done].
    rewrite elem_of_app. intros [Hin|Hin].
    + by apply (issued_not_next s _ (wf_queued _ Hwf _ Hin)).
    + by apply (issued_not_next s _ (wf_flying _ Hwf _ Hin)).
  - destruct Hshape as (h & Hq & ->). rewrite Hq in Hnd.
    rewrite app_assoc, <- Permutation_cons_append. exact Hnd.
  - by destruct Hshape as [-> ->].
  - destruct Hshape as [-> ->]. apply Hland.
  - destruct Hshape as [-> ->]. apply Hland.
  - by destruct Hshape as [-> ->].
  - by destruct Hshape as [-> ->].
  - by destruct Hshape as [-> ->].
  - by destruct Hshape as [-> ->].
  - by destruct Hshape as [-> ->].
Qed.

(* the bookkeeping survives every event *)
Lemma wf_step s ev s' : wf s -> System.step s ev = Some s' -> wf s'.
Proof.
  intros Hwf Hstep.
  pose proof (wf_unbounded _ Hwf) as Hmax.
  destruct (step_shape s ev s' Hmax Hstep) as (Hmax' & Hdraws & Hshape).
  assert (forall id, is_Some (DownloadQueue.downloads (System.dq s') !! id) -> issued s' id)
    as Hdl.
  { intros id Hsome. apply status_of_is_Some in Hsome as [st Hst].
    pose proof (step_moves s ev s' id Hstep) as Hmv. rewrite Hst in Hmv.
    apply moves_known in Hmv as [Hold|(_ & -> & (? & ? & ? & ? & ? & ->))].
    - apply (issued_mono s); [done|]. by apply (wf_downloads _ Hwf), status_of_is_Some.
    - simpl in Hshape. destruct Hshape as (Hd & _). exists (System.draws s). split; [lia|done]. }
  split.
  - done.
  - done.
  - intros id Hin. apply (step_queued s ev s' id Hmax Hstep) in Hin as [Hin|[-> Hd]].
    + apply (issued_mono s); [done|]. by apply (wf_queued _ Hwf).
    + exists (System.draws s). split; [lia|done].
  - intros id Hin. apply (step_flying s ev s' id Hmax Hstep) in Hin as [Hin|[_ Hhd]].
    + apply (issued_mono s); [done|]. by apply (wf_flying _ Hwf).
    + apply (issued_mono s); [done|]. apply (wf_queued _ Hwf).
      by apply head_Some_elem_of.
  - by apply (step_nodup s ev).
  - intros id Hst.
    assert (exists st, System.status_of id s' = Some st /\ (st = COMPLETED \/ st = FAILED))
      as (st & Hst' & Hfinal) by (destruct Hst; eauto).
    pose proof (step_moves s ev s' id Hstep) as Hmv. rewrite Hst' in Hmv.
    destruct (moves_settled _ _ _ _ _ Hmv Hfinal) as [Hold|[Hfly Hev]].
    + assert (id ∉ queued_ids s /\ id ∉ flying_ids s) as [Hnq Hnf].
      { apply (wf_settled _ Hwf). rewrite Hold. destruct Hfinal as [-> | ->]; eauto. }
      assert (issued s id) as Hiss.
      { apply (wf_downloads _ Hwf), status_of_is_Some. rewrite Hold. eauto. }
      split.
      * intros Hin. apply (step_queued s ev s' id Hmax Hstep) in Hin as [Hin|[Heq _]]; [done|].
        by apply (issued_not_next s id).
      * intros Hin. apply (step_flying s ev s' id Hmax Hstep) in Hin as [Hin|[_ Hhd]]; [done|].
        apply Hnq. by apply head_Some_elem_of.
    + assert (id ∉ queued_ids s) as Hnq.
      { pose proof (wf_nodup _ Hwf) as Hnd. apply NoDup_app in Hnd as (_ & Hdisj & _).
        intros Hin. by apply (Hdisj id). }
      destruct Hev as [(now & out & ->)|(now & f & ->)]; simpl in Hshape;
        destruct Hshape as [-> ->]; (split; [done|]);
        rewrite elem_of_landed; intros [_ Hne]; done.
Qed.

Lemma wf_run evs : forall s s', wf s -> System.run s evs = Some s' -> wf s'.
Proof.
  induction evs as [|ev evs IH]; simpl; intros s s' Hwf.
  - by intros [= <-].
  - destruct (System.step s ev) as [s1|] eqn:Hstep; [|done].
    apply IH. by apply (wf_step s ev).
Qed.

(* the status of a job after an event, from its status before *)
Lemma step_status s ev s' id :
  System.step s ev = Some s' ->
  match ev with
  | System.Submit _ _ _ _ _ =>
      System.status_of id s' =
        if decide (uuid4 (System.draws s) = id) then Some PENDING else System.status_of id s
  | System.Take =>
      exists h, head (queued_ids s) = Some h /\
        System.status_of id s' =
          if decide (h = id) then (fun _ => DOWNLOADING) <$> System.status_of id s
          else System.status_of id s
  | System.Hook jid data =>
      jid ∈ flying_ids s /\
      System.status_of id s' =
        if decide (jid = id) then
          match Downloader._progress_hook data jid with
          | Ok (Some p) => (fun _ => Models.status p) <$> System.status_of id s
          | _ => System.status_of id s
          end
        else System.status_of id s
  | System.Succeed _ jid _ =>
      jid ∈ flying_ids s /\
      System.status_of id s' =
        if decide (jid = id) then (fun _ => COMPLETED) <$> System.status_of id s
        else System.status_of id s
  | System.Fail _ jid _ =>
      jid ∈ flying_ids s /\
      System.status_of id s' =
        if decide (jid = id) then (fun _ => FAILED) <$> System.status_of id s
        else System.status_of id s
  | System.Cancel _ jid =>
      System.status_of id s' =
        if decide (jid = id)
        then (fun st => if bool_decide (st ∈ [COMPLETED; FAILED]) then st else CANCELLED)
               <$> System.status_of id s
        else System.status_of id s
  | System.Cleanup _ _ =>
      System.status_of id s' = System.status_of id s \/
      (System.status_of id s' = None /\
       exists st, System.status_of id s = Some st /\ st ∈ [COMPLETED; FAILED; CANCELLED])
  | _ => System.status_of id s' = System.status_of id s
  end.
Proof.
  unfold System.status_of.
  destruct ev as [now request sid cookies uid| |jid data|now jid out|now jid f
                 |now jid|now hours|now uid email hours|n1 n2 sid jid|n1 n2 sid jid]; simpl.
  - intros [= <-]. simpl. apply status_at_add_download.
  - destruct (_ <? _); [|done].
    destruct (DownloadQueue.worker_take (System.dq s)) as [[call q]|] eqn:E; [|done].
    intros [= <-]. simpl.
    apply worker_take_effect in E as (rest & Hitems & ->).
    exists (DownloadQueue.call_download_id call). split.
    { unfold queued_ids. by rewrite Hitems. }
    by rewrite status_at_update_status.
  - destruct (System.flying jid s) as [request|] eqn:Hfly; [|done].
    apply flying_elem in Hfly.
    destruct (Downloader._progress_hook data jid) as [[p|]|];
      intros [= <-]; (split; [done|]); simpl.
    + apply status_at_update_progress.
    + by destruct (decide (jid = id)).
    + by destruct (decide (jid = id)).
  - destruct (System.flying jid s) as [request|] eqn:Hfly; [|done].
    apply flying_elem in Hfly. intros [= <-]. simpl. split; [done|].
    apply status_at_worker_succeeded.
  - destruct (System.flying jid s) as [request|] eqn:Hfly; [|done].
    apply flying_elem in Hfly. intros [= <-]. simpl. split; [done|].
    rewrite status_at_worker_failed, status_at_last_callback.
    destruct (decide (jid = id)); [|done].
    destruct (DownloadQueue.status_at id (System.dq s)); [|done]. by destruct f.
  - intros [= <-]. simpl. apply status_at_cancel.
  - intros [= <-]. simpl. unfold DownloadQueue.status_at.
    destruct (cleanup_downloads now hours (System.dq s) id)
      as [->|[-> (md & -> & Hst)]]; [by left|].
    right. split; [done|]. simpl. eauto.
  - by intros [= <-].
  - by intros [= <-].
  - by intros [= <-].
Qed.

Lemma successive_refl o : successive o o.
Proof. destruct o; simpl; [by left|done]. Qed.

Lemma tracked_same id fin b s s' :
  tracked id fin s ->
  System.status_of id s' = System.status_of id s ->
  (id ∈ queued_ids s' -> id ∈ queued_ids s) ->
  (id ∈ flying_ids s' -> id ∈ flying_ids s) ->
  (id ∈ queued_ids s -> id ∈ queued_ids s') ->
  (id ∈ flying_ids s -> id ∈ flying_ids s') ->
  successive (System.status_of id s) (System.status_of id s') /\
  tracked id (fin || b) s'.
Proof.
  intros [Hq Hf Hi] Hst Hq1 Hf1 Hq2 Hf2. rewrite Hst. split; [apply successive_refl|].
  split; rewrite Hst.
  - intros Hin. by apply Hq, Hq1.
  - intros Hin. destruct (Hf (Hf1 Hin)) as [?|[? ->]]; [by left|by right].
  - intros Hnq Hnf. apply Hi; intros Hin; [by apply Hnq, Hq2|by apply Hnf, Hf2].
Qed.

Lemma hook_says_self what id data :
  Downloader.hd_status data = Some what ->
  hook_says what id (System.Hook id data) = true.
Proof. intros Hd. unfold hook_says. by rewrite Hd, !String.eqb_refl. Qed.

(* one event on a job that nobody cancels *)
Lemma tracked_step id fin s ev s' :
  wf s -> tracked id fin s -> System.step s ev = Some s' ->
  is_cancel_of id ev = false ->
  (hook_says "downloading" id ev = true -> fin = false) ->
  successive (System.status_of id s) (System.status_of id s') /\
  tracked id (fin || hook_says "finished" id ev) s'.
Proof.
  intros Hwf Htr Hstep Hnc Hord.
  pose proof (wf_unbounded _ Hwf) as Hmax.
  destruct (step_shape s ev s' Hmax Hstep) as (_ & _ & Hshape).
  pose proof (step_status s ev s' id Hstep) as Hst.
  pose proof (wf_nodup _ Hwf) as Hnd. apply NoDup_app in Hnd as (Hndq & Hdisj & Hndf).
  pose proof Htr as [Hq Hf Hi].
  destruct ev as [now request sid cookies uid| |jid data|now jid out|now jid f
                 |now jid|now hours|now uid email hours|n1 n2 sid jid|n1 n2 sid jid];
    simpl in Hshape, Hst, Hnc.
  - (* Submit *)
    destruct Hshape as (_ & Hq' & Hf').
    destruct (decide (uuid4 (System.draws s) = id)) as [<-|Hne].
    + assert (~ issued s (uuid4 (System.draws s))) as Hfresh.
      { intros Hiss. by apply (issued_not_next s _ Hiss). }
      assert (System.status_of (uuid4 (System.draws s)) s = None) as Hnone.
      { destruct (System.status_of (uuid4 (System.draws s)) s) eqn:E; [|done].
        exfalso. apply Hfresh, (wf_downloads _ Hwf), status_of_is_Some. rewrite E. eauto. }
      rewrite Hnone. split; [by rewrite Hst|]. split; rewrite Hst.
      * done.
      * rewrite Hf'. intros Hin. exfalso. by apply Hfresh, (wf_flying _ Hwf).
      * rewrite Hq'. intros Hnq. exfalso. apply Hnq.
        rewrite elem_of_app, list_elem_of_singleton. eauto.
    + apply tracked_same; try done; rewrite ?Hq', ?Hf', ?elem_of_app, ?list_elem_of_singleton;
        try tauto. intros [?|?]; [done|]. by subst.
  - (* Take *)
    destruct Hst as (h & Hhd & Hst). destruct Hshape as (h' & Hq' & Hf').
    rewrite Hq' in Hhd. injection Hhd as ->.
    destruct (decide (h = id)) as [->|Hne].
    + assert (id ∈ queued_ids s) as Hin by (rewrite Hq'; left).
      rewrite (Hq Hin) in Hst. simpl in Hst.
      rewrite (Hq Hin). split; [rewrite Hst; right; simpl; lia|]. split; rewrite Hst.
      * intros Hin'. exfalso. rewrite Hq' in Hndq. by apply NoDup_cons in Hndq as [? _].
      * intros _. by left.
      * rewrite Hf'. intros _ Hnf. exfalso. apply Hnf.
        rewrite elem_of_app, list_elem_of_singleton. eauto.
    + apply tracked_same; try done; rewrite ?Hq', ?Hf'; set_solver.
  - (* Hook *)
    destruct Hst as (Hfly & Hst). destruct Hshape as (Hq' & Hf').
    destruct (decide (jid = id)) as [->|Hne];
      [|apply tracked_same; try done; rewrite ?Hq', ?Hf'; tauto].
    destruct (Downloader._progress_hook data id) as [[p|]|] eqn:Hhook;
      try (apply tracked_same; try done; rewrite ?Hq', ?Hf'; tauto).
    apply hook_status in Hhook as (_ & [[Hd Hp]|[Hd Hp]]); rewrite Hp in Hst.
    + rewrite (hook_says_self _ _ _ Hd) in Hord. specialize (Hord eq_refl). subst fin.
      destruct (Hf Hfly) as [Hs|[_ ?]]; [|done].
      rewrite Hs in Hst. simpl in Hst.
      rewrite Hs. split; [rewrite Hst; by left|]. split; rewrite Hst.
      * rewrite Hq'. intros Hin. exfalso. by apply (Hdisj id).
      * intros _. by left.
      * rewrite Hf'. done.
    + rewrite (hook_says_self _ _ _ Hd), orb_true_r.
      assert (exists st, System.status_of id s = Some st /\ forward st PROCESSING)
        as (st & Hs & Hfw).
      { destruct (Hf Hfly) as [Hs|[Hs _]]; eexists; (split; [exact Hs|]);
          [right; simpl; lia|by left]. }
      rewrite Hs in Hst. simpl in Hst.
      rewrite Hs. split; [by rewrite Hst|]. split; rewrite Hst.
      * rewrite Hq'. intros Hin. exfalso. by apply (Hdisj id).
      * intros _. by right.
      * rewrite Hf'. done.
  - (* Succeed *)
    destruct Hst as (Hfly & Hst). destruct Hshape as (Hq' & Hf').
    destruct (decide (jid = id)) as [->|Hne].
    + assert (exists st, System.status_of id s = Some st /\ forward st COMPLETED)
        as (st & Hs & Hfw).
      { destruct (Hf Hfly) as [Hs|[Hs _]]; eexists; (split; [exact Hs|]);
          right; simpl; lia. }
      rewrite Hs in Hst. simpl in Hst.
      rewrite Hs. split; [by rewrite Hst|]. split; rewrite Hst.
      * rewrite Hq'. intros Hin. exfalso. by apply (Hdisj id).
      * rewrite Hf', elem_of_landed. intros [_ ?]. done.
      * intros _ _. right. by left.
    + apply tracked_same; try done; rewrite ?Hq', ?Hf', ?elem_of_landed;
        intuition congruence.
  - (* Fail *)
    destruct Hst as (Hfly & Hst). destruct Hshape as (Hq' & Hf').
    destruct (decide (jid = id)) as [->|Hne].
    + assert (exists st, System.status_of id s = Some st /\ forward st FAILED)
        as (st & Hs & Hfw).
      { destruct (Hf Hfly) as [Hs|[Hs _]]; eexists; (split; [exact Hs|]);
          right; simpl; lia. }
      rewrite Hs in Hst. simpl in Hst.
      rewrite Hs. split; [by rewrite Hst|]. split; rewrite Hst.
      * rewrite Hq'. intros Hin. exfalso. by apply (Hdisj id).
      * rewrite Hf', elem_of_landed. intros [_ ?]. done.
      * intros _ _. right. by right.
    + apply tracked_same; try done; rewrite ?Hq', ?Hf', ?elem_of_landed;
        intuition congruence.
  - (* Cancel *)
    destruct Hshape as (Hq' & Hf'). apply String.eqb_neq in Hnc.
    rewrite decide_False in Hst by done.
    apply tracked_same; try done; rewrite ?Hq', ?Hf'; tauto.
  - (* Cleanup *)
    destruct Hshape as (Hq' & Hf').
    destruct Hst as [Hst|(Hst & st & Hs & Hfinal)];
      [apply tracked_same; try done; rewrite ?Hq', ?Hf'; tauto|].
    assert (id ∉ queued_ids s) as Hnq.
    { intros Hin. rewrite (Hq Hin) in Hs. injection Hs as <-. set_solver. }
    assert (id ∉ flying_ids s) as Hnf.
    { intros Hin. destruct (Hf Hin) as [Hs'|[Hs' _]]; rewrite Hs' in Hs;
        injection Hs as <-; set_solver. }
    rewrite Hs. split.
    { rewrite Hst. simpl. rewrite !elem_of_cons in Hfinal.
      destruct Hfinal as [->|[->|[->|Hnil]]]; try done. by apply elem_of_nil in Hnil. }
    split; rewrite Hst.
    + by rewrite Hq'.
    + by rewrite Hf'.
    + intros _ _. by left.
  - destruct Hshape as (Hq' & Hf').
    apply tracked_same; try done; rewrite ?Hq', ?Hf'; tauto.
  - destruct Hshape as (Hq' & Hf').
    apply tracked_same; try done; rewrite ?Hq', ?Hf'; tauto.
  - destruct Hshape as (Hq' & Hf').
    apply tracked_same; try done; rewrite ?Hq', ?Hf'; tauto.
Qed.

Lemma tracked_init id max_concurrent : tracked id false (System.init max_concurrent).
Proof.
  split.
  - intros Hin. unfold queued_ids in Hin. simpl in Hin. by apply elem_of_nil in Hin.
  - intros Hin. unfold flying_ids in Hin. simpl in Hin. by apply elem_of_nil in Hin.
  - intros _ _. left. unfold System.status_of, DownloadQueue.status_at. simpl.
    by rewrite lookup_empty.
Qed.

(* a run on a job that nobody cancels *)
Lemma tracked_chain id evs :
  forall fin s,
    wf s -> tracked id fin s ->
    (forall ev, ev ∈ evs -> is_cancel_of id ev = false) ->
    engine_in_order id fin evs ->
    chain (System.status_of id s) (observations id s evs).
Proof.
  induction evs as [|ev evs IH]; intros fin s Hwf Htr Hnc Hord; simpl; [done|].
  destruct (System.step s ev) as [s'|] eqn:Hstep; [|done].
  simpl in Hord. destruct Hord as [Hord Hrest].
  destruct (tracked_step id fin s ev s' Hwf Htr Hstep) as [Hsucc Htr'].
  { apply Hnc. left. }
  { exact Hord. }
  simpl. split; [exact Hsucc|].
  apply (IH (fin || hook_says "finished" id ev)); try done.
  - by apply (wf_step s ev).
  - intros ev' Hin. apply Hnc. by right.
Qed.

Lemma settled_intro id st s :
  wf s -> System.status_of id s = Some st -> st = COMPLETED \/ st = FAILED ->
  settled id st s.
Proof.
  intros Hwf Hst Hfinal.
  destruct (wf_settled _ Hwf id) as [Hnq Hnf].
  { rewrite Hst. destruct Hfinal as [-> | ->]; eauto. }
  split; try done.
  - apply (wf_downloads _ Hwf), status_of_is_Some. rewrite Hst. eauto.
  - by left.
Qed.

(* one event on a job the worker has marked completed or failed *)
Lemma settled_step id st s ev s' :
  wf s -> st = COMPLETED \/ st = FAILED ->
  settled id st s -> System.step s ev = Some s' -> settled id st s'.
Proof.
  intros Hwf Hfinal [Hiss Hnq Hnf Hst] Hstep.
  pose proof (wf_unbounded _ Hwf) as Hmax.
  destruct (step_shape s ev s' Hmax Hstep) as (_ & Hdraws & _).
  pose proof (step_status s ev s' id Hstep) as Hst'.
  split.
  - by apply (issued_mono s).
  - intros Hin. apply (step_queued s ev s' id Hmax Hstep) in Hin as [Hin|[Heq _]]; [done|].
    by apply (issued_not_next s id).
  - intros Hin. apply (step_flying s ev s' id Hmax Hstep) in Hin as [Hin|[_ Hhd]]; [done|].
    apply Hnq. by apply head_Some_elem_of.
  - destruct ev as [now request sid cookies uid| |jid data|now jid out|now jid f
                   |now jid|now hours|now uid email hours|n1 n2 sid jid|n1 n2 sid jid];
      simpl in Hst'.
    + rewrite decide_False in Hst'; [by rewrite Hst'|].
      intros Heq. by apply (issued_not_next s id).
    + destruct Hst' as (h & Hhd & Hst').
      rewrite decide_False in Hst'; [by rewrite Hst'|].
      intros ->. apply Hnq. by apply head_Some_elem_of.
    + destruct Hst' as (Hfly & Hst').
      rewrite decide_False in Hst'; [by rewrite Hst'|]. by intros ->.
    + destruct Hst' as (Hfly & Hst').
      rewrite decide_False in Hst'; [by rewrite Hst'|]. by intros ->.
    + destruct Hst' as (Hfly & Hst').
      rewrite decide_False in Hst'; [by rewrite Hst'|]. by intros ->.
    + destruct (decide (jid = id)) as [->|]; [|by rewrite Hst'].
      rewrite Hst'. destruct Hst as [-> | ->]; simpl; [|by right].
      left. rewrite bool_decide_eq_true_2; [done|].
      destruct Hfinal as [-> | ->]; set_solver.
    + destruct Hst' as [->|[-> _]]; [done|by right].
    + by rewrite Hst'.
    + by rewrite Hst'.
    + by rewrite Hst'.
Qed.

Lemma settled_run id st evs :
  forall s s', wf s -> st = COMPLETED \/ st = FAILED ->
    settled id st s -> System.run s evs = Some s' -> settled id st s'.
Proof.
  induction evs as [|ev evs IH]; simpl; intros s s' Hwf Hfinal Hset.
  - by intros [= <-].
  - destruct (System.step s ev) as [s1|] eqn:Hstep; [|done].
    apply IH; [by apply (wf_step s ev)|done|by apply (settled_step id st s ev)].
Qed.

(** *** Stored progress snapshots *)

Lemma in_range_set_status st p : in_range p -> in_range (Models.set_status st p).
Proof. done. Qed.

Lemma pir_update_status id st q :
  progress_in_range q -> progress_in_range (DownloadQueue._update_status id st q).
Proof.
  intros Hq id' p. unfold DownloadQueue._update_status. simpl.
  rewrite lookup_alter. destruct (decide (id = id')) as [<-|]; [|apply Hq].
  destruct (DownloadQueue.progress q !! id) as [p0|] eqn:E; simpl; [|done].
  intros [= <-]. apply in_range_set_status. by apply (Hq id).
Qed.

Lemma pir_update_progress id p q :
  in_range p -> progress_in_range q ->
  progress_in_range (DownloadQueue._update_progress id p q).
Proof.
  intros Hp Hq id' p'. unfold DownloadQueue._update_progress. simpl.
  rewrite lookup_insert. destruct (decide (id = id')); [by intros [= <-]|apply Hq].
Qed.

Lemma pir_add_download draw now request sid cookies uid q :
  progress_in_range q ->
  progress_in_range (snd (DownloadQueue.add_download draw now request sid cookies uid q)).
Proof.
  intros Hq id p. unfold DownloadQueue.add_download.
  destruct (new_ProgressUpdate _ _ _ _ _ _ _ _ _) as [p0|] eqn:E; [|apply Hq].
  apply new_ProgressUpdate_ok in E as (Hr & _).
  destruct (put_nowait _ _); simpl; rewrite lookup_insert;
    (destruct (decide (uuid4 draw = id)); [by intros [= <-]|apply Hq]).
Qed.

Lemma pir_cancel now id q :
  progress_in_range q -> progress_in_range (snd (DownloadQueue.cancel_download now id q)).
Proof.
  intros Hq. unfold DownloadQueue.cancel_download.
  destruct (DownloadQueue.downloads q !! id) as [md|]; [|done].
  destruct (bool_decide _); [done|]. simpl.
  intros id' p. simpl. apply (pir_update_status id CANCELLED q Hq).
Qed.

Lemma pir_worker_failed now e id request q table :
  progress_in_range q ->
  progress_in_range (fst (DownloadQueue.worker_failed now e id request q table)).
Proof.
  intros Hq. unfold DownloadQueue.worker_failed.
  destruct (DownloadQueue.downloads _ !! id); simpl;
    intros id' p; simpl; apply (pir_update_status id FAILED q Hq).
Qed.

Lemma pir_worker_succeeded now out id request q table :
  progress_in_range q ->
  progress_in_range (fst (DownloadQueue.worker_succeeded now out id request q table)).
Proof.
  intros Hq. unfold DownloadQueue.worker_succeeded.
  destruct (DownloadQueue.downloads _ !! id).
  - simpl. intros id' p; simpl. apply (pir_update_status id COMPLETED q Hq).
  - by apply pir_worker_failed, pir_update_status.
Qed.

Lemma pir_cleanup now hours q :
  progress_in_range q ->
  progress_in_range (snd (DownloadQueue.cleanup_old_downloads now hours q)).
Proof.
  intros Hq id p.
  destruct (cleanup_progress now hours q id) as [-> | ->]; [apply Hq|done].
Qed.

Lemma pir_last_callback f id q :
  progress_in_range q -> progress_in_range (System.last_callback f id q).
Proof.
  intros Hq. unfold System.last_callback. destruct f as [m|m]; [done|].
  destruct (Downloader.failure_snapshot id m) as [p|] eqn:E; [|done].
  apply failure_snapshot_ok in E as [Hr _]. by apply pir_update_progress.
Qed.

Lemma pir_step s ev s' :
  progress_in_range (System.dq s) -> System.step s ev = Some s' ->
  progress_in_range (System.dq s').
Proof.
  intros Hq.
  destruct ev as [now request sid cookies uid| |jid data|now jid out|now jid f
                 |now jid|now hours|now uid email hours|n1 n2 sid jid|n1 n2 sid jid]; simpl.
  - intros [= <-]. simpl. by apply pir_add_download.
  - destruct (_ <? _); [|done].
    destruct (DownloadQueue.worker_take (System.dq s)) as [[call q]|] eqn:E; [|done].
    intros [= <-]. simpl. apply worker_take_effect in E as (rest & _ & ->).
    apply pir_update_status. exact Hq.
  - destruct (System.flying jid s); [|done].
    destruct (Downloader._progress_hook data jid) as [[p|]|] eqn:E; intros [= <-]; try done.
    simpl. apply hook_status in E as [Hr _]. by apply pir_update_progress.
  - destruct (System.flying jid s); [|done]. intros [= <-]. simpl.
    by apply pir_worker_succeeded.
  - destruct (System.flying jid s); [|done]. intros [= <-]. simpl.
    by apply pir_worker_failed, pir_last_callback.
  - intros [= <-]. simpl. by apply pir_cancel.
  - intros [= <-]. simpl. by apply pir_cleanup.
  - by intros [= <-].
  - by intros [= <-].
  - by intros [= <-].
Qed.

Lemma pir_run evs :
  forall s s', progress_in_range (System.dq s) -> System.run s evs = Some s' ->
    progress_in_range (System.dq s').
Proof.
  induction evs as [|ev evs IH]; simpl; intros s s' Hq.
  - by intros [= <-].
  - destruct (System.step s ev) as [s1|] eqn:Hstep; [|done].
    apply IH. by apply (pir_step s ev).
Qed.

(** *** The ids in the session registry *)

Lemma delete_session_keys sid m id :
  is_Some (SessionManager._sessions (snd (SessionManager.delete_session sid m)) !! id) ->
  is_Some (SessionManager._sessions m !! id).
Proof.
  unfold SessionManager.delete_session.
  destruct (SessionManager._sessions m !! sid); simpl; [|done].
  rewrite lookup_delete. by destruct (decide (sid = id)); [intros [? ?]|].
Qed.

Lemma get_session_keys now1 now2 sid m id :
  is_Some (SessionManager._sessions (snd (SessionManager.get_session now1 now2 sid m)) !! id) ->
  is_Some (SessionManager._sessions m !! id).
Proof.
  unfold SessionManager.get_session.
  destruct (SessionManager._sessions m !! sid) as [session|] eqn:E; [|done].
  destruct (_ <? _).
  - apply delete_session_keys.
  - simpl. rewrite lookup_insert. destruct (decide (sid = id)) as [<-|]; [|done].
    intros _. rewrite E. eauto.
Qed.

Lemma get_session_found now1 now2 sid m session :
  fst (SessionManager.get_session now1 now2 sid m) = Some session ->
  is_Some (SessionManager._sessions m !! sid).
Proof.
  unfold SessionManager.get_session.
  destruct (SessionManager._sessions m !! sid) as [s0|]; [eauto|done].
Qed.

Lemma session_add_download_keys now1 now2 sid did m id :
  is_Some (SessionManager._sessions
             (snd (SessionManager.add_download now1 now2 sid did m)) !! id) ->
  is_Some (SessionManager._sessions m !! id).
Proof.
  unfold SessionManager.add_download.
  pose proof (get_session_keys now1 now2 sid m id) as Hk.
  pose proof (get_session_found now1 now2 sid m) as Hf.
  destruct (SessionManager.get_session now1 now2 sid m) as [[session|] m1]; simpl in *; [|done].
  destruct (list_mem did _); simpl; [done|].
  rewrite lookup_insert. destruct (decide (sid = id)) as [<-|]; [|done].
  intros _. by apply (Hf session).
Qed.

Lemma session_remove_download_keys now1 now2 sid did m id :
  is_Some (SessionManager._sessions
             (snd (SessionManager.remove_download now1 now2 sid did m)) !! id) ->
  is_Some (SessionManager._sessions m !! id).
Proof.
  unfold SessionManager.remove_download.
  pose proof (get_session_keys now1 now2 sid m id) as Hk.
  pose proof (get_session_found now1 now2 sid m) as Hf.
  destruct (SessionManager.get_session now1 now2 sid m) as [[session|] m1]; simpl in *; [|done].
  destruct (list_mem did _); simpl; [|done].
  rewrite lookup_insert. destruct (decide (sid = id)) as [<-|]; [|done].
  intros _. by apply (Hf session).
Qed.

Lemma create_session_keys draw now uid email hours m id :
  is_Some (SessionManager._sessions
             (snd (SessionManager.create_session draw now uid email hours m)) !! id) ->
  is_Some (SessionManager._sessions m !! id) \/ id = uuid4 draw.
Proof.
  unfold SessionManager.create_session.
  destruct (plus_hours now hours); simpl; [|eauto].
  rewrite lookup_insert. destruct (decide (uuid4 draw = id)); eauto.
Qed.

Lemma sessions_issued_step s ev s' :
  sessions_issued s -> System.step s ev = Some s' -> sessions_issued s'.
Proof.
  intros Hs.
  assert (forall s1, System.sessions s1 = System.sessions s ->
                     (System.draws s <= System.draws s1)%nat -> sessions_issued s1) as Hsame.
  { intros s1 Heq Hle id. rewrite Heq. intros Hin. by apply (issued_mono s), Hs. }
  destruct ev as [now request sid cookies uid| |jid data|now jid out|now jid f
                 |now jid|now hours|now uid email hours|n1 n2 sid jid|n1 n2 sid jid]; simpl.
  - intros [= <-]. apply Hsame; simpl; [done|lia].
  - destruct (_ <? _); [|done].
    destruct (DownloadQueue.worker_take (System.dq s)) as [[call q]|]; [|done].
    intros [= <-]. by apply Hsame.
  - destruct (System.flying jid s); [|done].
    destruct (Downloader._progress_hook data jid) as [[p|]|]; intros [= <-]; by apply Hsame.
  - destruct (System.flying jid s); [|done]. intros [= <-]. by apply Hsame.
  - destruct (System.flying jid s); [|done]. intros [= <-]. by apply Hsame.
  - intros [= <-]. by apply Hsame.
  - intros [= <-]. by apply Hsame.
  - intros [= <-] id. simpl. intros Hin.
    apply create_session_keys in Hin as [Hin| ->].
    + apply (issued_mono s); [simpl; lia|by apply Hs].
    + exists (System.draws s). simpl. split; [lia|done].
  - intros [= <-] id. simpl. intros Hin.
    apply session_add_download_keys in Hin. by apply (issued_mono s), Hs.
  - intros [= <-] id. simpl. intros Hin.
    apply session_remove_download_keys in Hin. by apply (issued_mono s), Hs.
Qed.

Lemma sessions_issued_run evs :
  forall s s', sessions_issued s -> System.run s evs = Some s' -> sessions_issued s'.
Proof.
  induction evs as [|ev evs IH]; simpl; intros s s' Hs.
  - by intros [= <-].
  - destruct (System.step s ev) as [s1|] eqn:Hstep; [|done].
    apply IH. by apply (sessions_issued_step s ev).
Qed.

Lemma issued_drawn_before s id k :
  issued s id -> id = uuid4 k -> (k < System.draws s)%nat.
Proof. intros (k' & Hk' & ->) Heq. apply uuid4_inj in Heq. lia. Qed.

End SystemLemmas.

(** ** The running service: claims *)

Section SystemClaims.
Context `{Uuid4}.
Import Models.

(** C2, as the code has it.  Every event changes the status of a job
    in one of the ways listed by [moves]: the worker that takes a job sets
    it to downloading and each progress sample sets the sample's status,
    whatever the status was, so a cancelled job moves back to downloading
    when it is taken; only cancel looks at the status first, and it leaves
    completed and failed jobs alone.  Once a job is completed or failed, a
    poller reads that same status until the record is evicted.  For a job
    that nobody cancels, and whose engine reports no downloading sample after
    it has reported the transfer finished, the statuses read after each
    event follow pending, downloading, processing, completed or failed
    without ever stepping back. *)
Theorem status_moves_forward (max_concurrent : Z) (id : string) :
  (forall s ev s',
     System.step s ev = Some s' ->
     moves s id ev (System.status_of id s) (System.status_of id s')) /\
  (forall evs s st evs' s',
     System.run (System.init max_concurrent) evs = Some s ->
     System.status_of id s = Some st ->
     st = COMPLETED \/ st = FAILED ->
     System.run s evs' = Some s' ->
     System.status_of id s' = Some st \/ System.status_of id s' = None) /\
  (forall evs,
     (forall ev, ev ∈ evs -> is_cancel_of id ev = false) ->
     engine_in_order id false evs ->
     chain None (observations id (System.init max_concurrent) evs)).
Proof.
  split; [|split].
  - intros s ev s' Hstep. by apply step_moves.
  - intros evs s st evs' s' Hrun Hst Hfinal Hrun'.
    assert (wf s) as Hwf by (eapply wf_run; [apply wf_init|exact Hrun]).
    apply (settled_run id st evs' s s' Hwf Hfinal); [|exact Hrun'].
    by apply settled_intro.
  - intros evs Hnc Hord.
    apply (tracked_chain id evs false (System.init max_concurrent)); try done.
    + apply wf_init.
    + apply tracked_init.
Qed.

(** C4.  In every state the service reaches, [add_download] returns
    without raising, for any request: the queue has no size bound, so
    [put_nowait] accepts the item.  The id it returns is the uuid4 token it
    draws, which differs from every token drawn before and is not yet
    tracked; the job is recorded as pending, its progress snapshot is pending
    with progress 0 and 0 bytes downloaded, and (id, request, cookies) is
    appended at the back of the queue. *)
Theorem add_download_spec (max_concurrent : Z) (evs : list System.Event) (s : System.t)
    (now : datetime) (request : DownloadRequest)
    (session_id : option string) (cookies : option Cookies) (user_id : option Z) :
  System.run (System.init max_concurrent) evs = Some s ->
  let id := uuid4 (System.draws s) in
  exists self',
    DownloadQueue.add_download (System.draws s) now request session_id cookies user_id
      (System.dq s) = (Ok id, self') /\
    (forall k, (k < System.draws s)%nat -> uuid4 k <> id) /\
    DownloadQueue.downloads (System.dq s) !! id = None /\
    DownloadQueue.downloads self' =
      <[id := {| DownloadQueue.download_id := id;
                 DownloadQueue.session_id := session_id;
                 DownloadQueue.user_id := user_id;
                 DownloadQueue.url := Models.url request;
                 DownloadQueue.status := PENDING;
                 DownloadQueue.created_at := now;
                 DownloadQueue.completed_at := None;
                 DownloadQueue.output_file := None;
                 DownloadQueue.file_name := None;
                 DownloadQueue.error := None |}]> (DownloadQueue.downloads (System.dq s)) /\
    DownloadQueue.progress self' =
      <[id := {| Models.download_id := id;
                 Models.status := PENDING;
                 Models.progress := 0;
                 downloaded_bytes := Some 0%Q;
                 total_bytes := None;
                 speed := None;
                 eta := None;
                 filename := None;
                 Models.error := None |}]> (DownloadQueue.progress (System.dq s)) /\
    items (DownloadQueue.queue self') =
      items (DownloadQueue.queue (System.dq s)) ++ [(id, request, cookies)].
Proof.
  intros Hrun id.
  assert (wf s) as Hwf by (eapply wf_run; [apply wf_init|exact Hrun]).
  destruct (add_download_effect (System.draws s) now request session_id cookies user_id
              (System.dq s)) as (self' & Heq & Huniq & Hfresh & Hd & Hp & Hq & _).
  - rewrite (wf_unbounded _ Hwf). done.
  - intros k Hk. apply (issued_drawn_before s (uuid4 k)); [|done].
    by apply (wf_downloads _ Hwf).
  - exists self'. done.
Qed.

(** C9, as the code has it.  In every state the service reaches, when
    [create_session] returns, the id it returns is the uuid4 token it drew,
    which differs from every token drawn before and is not yet in the
    registry; the
    session stored under it has an empty list of active downloads, expires
    [timeout_hours] after the clock reading, and is authenticated iff a
    non-empty owner user id was given; the other sessions are untouched.  A
    [get_session] on that id no later than the expiry returns the session,
    with authenticated false when no owner was given; a [get_session] after
    the expiry returns none and removes the session. *)
Theorem create_session_spec (max_concurrent : Z) (evs : list System.Event) (s : System.t)
    (now : datetime) (user_id user_email : option string) (timeout_hours : Z)
    (self' : SessionManager.t) (sid : string) :
  System.run (System.init max_concurrent) evs = Some s ->
  SessionManager.create_session (System.draws s) now user_id user_email timeout_hours
    (System.sessions s) = (Ok sid, self') ->
  sid = uuid4 (System.draws s) /\
  (forall k, (k < System.draws s)%nat -> uuid4 k <> sid) /\
  SessionManager._sessions (System.sessions s) !! sid = None /\
  (forall sid', sid' <> sid ->
     SessionManager._sessions self' !! sid' = SessionManager._sessions (System.sessions s) !! sid') /\
  (exists session,
     SessionManager._sessions self' !! sid = Some session /\
     SessionManager.session_id session = sid /\
     SessionManager.active_downloads session = [] /\
     SessionManager.expires_at session = now + timeout_hours * US_PER_HOUR /\
     (SessionManager.authenticated session = true <-> exists u, user_id = Some u /\ u <> "")) /\
  (forall now1 now2, now1 <= now + timeout_hours * US_PER_HOUR ->
     exists session,
       fst (SessionManager.get_session now1 now2 sid self') = Some session /\
       SessionManager.active_downloads session = [] /\
       (user_id = None -> SessionManager.authenticated session = false)) /\
  (forall now1 now2, now + timeout_hours * US_PER_HOUR < now1 ->
     fst (SessionManager.get_session now1 now2 sid self') = None /\
     SessionManager._sessions (snd (SessionManager.get_session now1 now2 sid self')) !! sid = None).
Proof.
  intros Hrun Hcreate.
  assert (sessions_issued s) as Hs.
  { apply (sessions_issued_run evs (System.init max_concurrent)); [|exact Hrun].
    intros id [x Hx]. simpl in Hx. rewrite lookup_empty in Hx. done. }
  destruct (create_session_effect (System.draws s) now user_id user_email timeout_hours
              (System.sessions s) self' sid) as (H1 & H2 & H3 & _ & H5 & H6 & H7 & H8).
  - intros k Hk. apply (issued_drawn_before s (uuid4 k)); [|done]. by apply Hs.
  - exact Hcreate.
  - done.
Qed.

(** C6.  The constructor of a progress snapshot only returns a snapshot
    whose percentage lies in [0, 100]; so does the progress hook whenever it
    hands a snapshot to its callback, whatever byte counts, totals or
    estimates it was given, and so does the failure snapshot.  In every state
    the service reaches, every snapshot stored for a job, as returned by
    get_download_progress or inside get_download_status, has its percentage
    in [0, 100]. *)
Theorem progress_within_bounds :
  (forall id st pr db tb sp et fn er p,
     new_ProgressUpdate id st pr db tb sp et fn er = Ok p -> in_range p) /\
  (forall data id p,
     Downloader._progress_hook data id = Ok (Some p) -> in_range p) /\
  (forall id msg p,
     Downloader.failure_snapshot id msg = Ok p -> in_range p) /\
  (forall max_concurrent evs s id p,
     System.run (System.init max_concurrent) evs = Some s ->
     DownloadQueue.get_download_progress id (System.dq s) = Some p ->
     in_range p) /\
  (forall max_concurrent evs s id r p,
     System.run (System.init max_concurrent) evs = Some s ->
     DownloadQueue.get_download_status id (System.dq s) = Some r ->
     DownloadQueue.r_progress r = Some p ->
     in_range p).
Proof.
  assert (forall max_concurrent evs s,
            System.run (System.init max_concurrent) evs = Some s ->
            progress_in_range (System.dq s)) as Hreach.
  { intros max_concurrent evs s Hrun.
    apply (pir_run evs (System.init max_concurrent)); [|exact Hrun].
    intros id p. simpl. by rewrite lookup_empty. }
  split; [|split; [|split; [|split]]].
  - intros id st pr db tb sp et fn er p E.
    by apply new_ProgressUpdate_ok in E as (? & _).
  - intros data id p E. by apply hook_status in E as (? & _).
  - intros id msg p E. by apply failure_snapshot_ok in E as (? & _).
  - intros max_concurrent evs s id p Hrun Hget. by apply (Hreach _ _ _ Hrun id).
  - intros max_concurrent evs s id r p Hrun Hget Hp.
    unfold DownloadQueue.get_download_status in Hget.
    destruct (DownloadQueue.downloads (System.dq s) !! id); [|done].
    injection Hget as <-. simpl in Hp. by apply (Hreach _ _ _ Hrun id).
Qed.

End SystemClaims.

Section SystemExamples.
Import Models Standin Examples.

(* C2 as stated fails: job "0" is cancelled while pending, a terminal
   status, and the worker that takes it moves it back to downloading. *)
Lemma cancelled_moves_back :
  observations "0" (System.init 3)
    [System.Submit NEW_YEAR_2026 a_request None None None;
     System.Cancel (NEW_YEAR_2026 + 1) "0";
     System.Take]
    = [Some PENDING; Some CANCELLED; Some DOWNLOADING] /\
  ~ successive (Some CANCELLED) (Some DOWNLOADING) /\
  ~ chain None [Some PENDING; Some CANCELLED; Some DOWNLOADING].
Proof.
  split; [reflexivity|].
  assert (~ successive (Some CANCELLED) (Some DOWNLOADING)) as Hback.
  { intros [Heq|Hlt]; [discriminate|simpl in Hlt; lia]. }
  split; [exact Hback|]. simpl. intros (_ & _ & Hb & _). by apply Hback.
Qed.

(* the progress callback mirrors the engine: a downloading sample after a
   finished one moves the job from processing back to downloading *)
Lemma late_sample_moves_back :
  observations "0" (System.init 3)
    [System.Submit NEW_YEAR_2026 a_request None None None;
     System.Take;
     System.Hook "0" (sample "finished" 200 200);
     System.Hook "0" (sample "downloading" 10 200)]
    = [Some PENDING; Some DOWNLOADING; Some PROCESSING; Some DOWNLOADING].
Proof. reflexivity. Qed.

(* a job cancelled while in flight is overwritten when the engine returns *)
Lemma cancelled_then_completed :
  observations "0" (System.init 3)
    [System.Submit NEW_YEAR_2026 a_request None None None;
     System.Take;
     System.Cancel (NEW_YEAR_2026 + 1) "0";
     System.Succeed (NEW_YEAR_2026 + 9) "0" a_path]
    = [Some PENDING; Some DOWNLOADING; Some CANCELLED; Some COMPLETED].
Proof. reflexivity. Qed.

Lemma add_download_spec_witness :
  exists self',
    DownloadQueue.add_download 0 NEW_YEAR_2026 a_request None None None
      (DownloadQueue.init 3) = (Ok "0", self') /\
    items (DownloadQueue.queue self') = [("0", a_request, None)].
Proof.
  destruct (add_download_spec 3 [] (System.init 3) NEW_YEAR_2026 a_request None None None
              eq_refl) as (self' & Heq & _ & _ & _ & _ & Hq).
  exists self'. split; [exact Heq|exact Hq].
Defined.

Lemma create_session_spec_witness :
  exists session,
    fst (SessionManager.get_session (NEW_YEAR_2026 + 1) (NEW_YEAR_2026 + 2) "0"
           (snd (SessionManager.create_session 0 NEW_YEAR_2026 None None 24
                   SessionManager.init))) = Some session /\
    SessionManager.active_downloads session = [] /\
    (@None string = None -> SessionManager.authenticated session = false).
Proof.
  destruct (create_session_spec 3 [] (System.init 3) NEW_YEAR_2026 None None 24
              (snd (SessionManager.create_session 0 NEW_YEAR_2026 None None 24
                      SessionManager.init)) "0")
    as (_ & _ & _ & _ & _ & Hget & _).
  - reflexivity.
  - reflexivity.
  - apply Hget. vm_compute. discriminate.
Defined.

Lemma status_moves_forward_witness :
  observations "0" (System.init 3) a_download
    = [Some PENDING; Some DOWNLOADING; Some DOWNLOADING; Some PROCESSING; Some COMPLETED] /\
  chain None (observations "0" (System.init 3) a_download).
Proof.
  split; [reflexivity|].
  apply (status_moves_forward 3 "0").
  - intros ev Hin. unfold a_download in Hin.
    repeat (apply elem_of_cons in Hin as [->|Hin]; [reflexivity|]).
    by apply elem_of_nil in Hin.
  - simpl. repeat split; discriminate.
Defined.

(* a sample whose byte count exceeds the estimated total is refused by the
   constructor, so the hook raises and hands nothing to its callback *)
Lemma hook_over_estimate :
  Downloader._progress_hook (sample "downloading" 300 200) "0" = Raise ValidationError.
Proof. reflexivity. Qed.

Lemma progress_within_bounds_witness :
  exists s p,
    System.run (System.init 3)
      [System.Submit NEW_YEAR_2026 a_request None None None;
       System.Take;
       System.Hook "0" (sample "downloading" 50 200)] = Some s /\
    DownloadQueue.get_download_progress "0" (System.dq s) = Some p /\
    (Models.progress p == 25)%Q /\
    in_range p.
Proof.
  do 2 eexists. split; [reflexivity|]. split; [reflexivity|]. split; [reflexivity|].
  eapply (proj1 (proj2 (proj2 (proj2 progress_within_bounds))) 3
            [System.Submit NEW_YEAR_2026 a_request None None None;
             System.Take;
             System.Hook "0" (sample "downloading" 50 200)] _ "0");
    reflexivity.
Defined.

End SystemExamples.

(** * Further properties of the code *)

(** ** The credential vault: store, delete, sweep, refresh *)

Section VaultFurther.
Context `{Fernet} `{Json}.
Import CookieManager.

Lemma store_cookies_ok iv now sid cookies hours self :
  fst (store_cookies iv now sid cookies hours self) = Ok tt ->
  snd (store_cookies iv now sid cookies hours self) =
    {| _cookie_store := <[sid := fernet_encrypt iv (json_dumps cookies)]> (_cookie_store self);
       _metadata := <[sid := {| created_at := now; last_accessed := now;
                                expires_at := now + hours * US_PER_HOUR |}]>
                      (_metadata self) |}.
Proof.
  unfold store_cookies, encrypt_cookies.
  destruct (plus_hours now hours) as [expiry|e] eqn:Hp; simpl; [|done].
  intros _. unfold plus_hours, timedelta_hours, datetime_add, rbind in Hp.
  destruct (_ && _); [|done]. destruct (_ && _); [|done].
  by injection Hp as <-.
Qed.

Lemma retrieve_cookies_other now1 now2 sid self self' :
  _cookie_store self' !! sid = _cookie_store self !! sid ->
  _metadata self' !! sid = _metadata self !! sid ->
  fst (retrieve_cookies now1 now2 sid self') = fst (retrieve_cookies now1 now2 sid self).
Proof.
  intros Hs Hm. unfold retrieve_cookies. rewrite Hs, Hm.
  destruct (_cookie_store self !! sid) as [blob|]; [|done].
  destruct (match _metadata self !! sid with
            | Some m => expires_at m <? now1 | None => false end); [done|].
  by destruct (decrypt_cookies blob).
Qed.

(** X1.  After a [store_cookies] that returns without raising, whatever
    the vault held before, [retrieve_cookies] for that session returns the
    cookies just stored at any clock reading up to [expires_in_hours] later,
    and returns none and forgets the record at any later reading; what
    [retrieve_cookies] returns for another session is not affected by the
    store. *)
Theorem store_then_retrieve (iv : bytes) (now : datetime) (sid : string)
    (cookies : Cookies) (hours : Z) (self : t) :
  fst (store_cookies iv now sid cookies hours self) = Ok tt ->
  (forall now1 now2, now1 <= now + hours * US_PER_HOUR ->
     fst (retrieve_cookies now1 now2 sid (snd (store_cookies iv now sid cookies hours self)))
       = Ok (Some cookies)) /\
  (forall now1 now2, now + hours * US_PER_HOUR < now1 ->
     fst (retrieve_cookies now1 now2 sid (snd (store_cookies iv now sid cookies hours self)))
       = Ok None /\
     _cookie_store
       (snd (retrieve_cookies now1 now2 sid (snd (store_cookies iv now sid cookies hours self))))
       !! sid = None) /\
  (forall now1 now2 sid', sid' <> sid ->
     fst (retrieve_cookies now1 now2 sid' (snd (store_cookies iv now sid cookies hours self)))
       = fst (retrieve_cookies now1 now2 sid' self)).
Proof.
  intros Hok. rewrite (store_cookies_ok _ _ _ _ _ _ Hok). split; [|split].
  - intros now1 now2 Hlive.
    erewrite retrieve_cookies_live; [done|simpl..].
    + apply lookup_insert_eq.
    + apply lookup_insert_eq.
    + done.
    + by apply (decrypt_encrypt_cookies iv).
  - intros now1 now2 Hdead.
    erewrite retrieve_cookies_expired; [|simpl..].
    + simpl. by rewrite lookup_delete_eq.
    + apply lookup_insert_eq.
    + apply lookup_insert_eq.
    + done.
  - intros now1 now2 sid' Hne.
    apply retrieve_cookies_other; simpl; by rewrite lookup_insert_ne.
Qed.

(** X2.  [delete_cookies] returns true exactly when a ciphertext is stored
    for the session; afterwards nothing is stored for it, so retrieve returns
    none and a second delete returns false, and the other sessions keep
    their ciphertext and timestamps. *)
Theorem delete_cookies_spec (sid : string) (self : t) :
  (fst (delete_cookies sid self) = true <-> is_Some (_cookie_store self !! sid)) /\
  _cookie_store (snd (delete_cookies sid self)) !! sid = None /\
  (forall now1 now2,
     retrieve_cookies now1 now2 sid (snd (delete_cookies sid self))
       = (Ok None, snd (delete_cookies sid self))) /\
  fst (delete_cookies sid (snd (delete_cookies sid self))) = false /\
  (forall sid', sid' <> sid ->
     _cookie_store (snd (delete_cookies sid self)) !! sid' = _cookie_store self !! sid' /\
     _metadata (snd (delete_cookies sid self)) !! sid' = _metadata self !! sid').
Proof.
  assert (_cookie_store (snd (delete_cookies sid self)) !! sid = None) as Hgone.
  { rewrite delete_cookies_store. by rewrite decide_True. }
  split; [|split; [|split; [|split]]].
  - unfold delete_cookies. destruct (_cookie_store self !! sid); simpl.
    + split; eauto.
    + split; [done|]. by intros [? ?].
  - done.
  - intros now1 now2. unfold retrieve_cookies. by rewrite Hgone.
  - unfold delete_cookies at 1. by rewrite Hgone.
  - intros sid' Hne. unfold delete_cookies.
    destruct (_cookie_store self !! sid); simpl; [|done].
    by rewrite !lookup_delete_ne.
Qed.

Lemma NoDup_fst_filter {A} (f : string * A -> bool) (l : list (string * A)) :
  NoDup (l.*1) -> NoDup ((List.filter f l).*1).
Proof.
  induction l as [|x l IH]; simpl; [done|].
  rewrite NoDup_cons. intros [Hx Hl].
  destruct (f x); simpl; [|by apply IH].
  apply NoDup_cons. split; [|by apply IH].
  intros Hin. apply Hx. apply list_elem_of_fmap in Hin as (y & Hy & Hin).
  apply list_elem_of_In, filter_In in Hin as [Hin _].
  apply list_elem_of_fmap. exists y. split; [done|by apply list_elem_of_In].
Qed.

Lemma elem_of_expired_sessions now self sid :
  sid ∈ expired_sessions now self <->
  exists m, _metadata self !! sid = Some m /\ expires_at m < now.
Proof.
  unfold expired_sessions. rewrite list_elem_of_fmap. split.
  - intros ([sid' m] & -> & Hin).
    apply list_elem_of_In, filter_In in Hin as [Hin Hexp]. simpl in *.
    apply list_elem_of_In, elem_of_map_to_list in Hin. exists m. split; [done|lia].
  - intros (m & Hm & Hexp). exists (sid, m). split; [done|].
    apply list_elem_of_In, filter_In. split.
    + by apply list_elem_of_In, elem_of_map_to_list.
    + simpl. lia.
Qed.

Lemma vault_sweep (l : list string) :
  forall self,
    consistent self -> NoDup l ->
    (forall sid, sid ∈ l -> is_Some (_metadata self !! sid)) ->
    (forall sid,
       _cookie_store (foldl (fun s sid => snd (delete_cookies sid s)) self l) !! sid =
         (if decide (sid ∈ l) then None else _cookie_store self !! sid) /\
       _metadata (foldl (fun s sid => snd (delete_cookies sid s)) self l) !! sid =
         (if decide (sid ∈ l) then None else _metadata self !! sid)) /\
    (size (_cookie_store (foldl (fun s sid => snd (delete_cookies sid s)) self l))
       + length l = size (_cookie_store self))%nat.
Proof.
  induction l as [|x l IH]; intros self Hc Hnd Hin; simpl.
  - split; [done|lia].
  - apply NoDup_cons in Hnd as [Hx Hnd].
    assert (is_Some (_cookie_store self !! x)) as [blob Hblob].
    { apply elem_of_dom. rewrite Hc. apply elem_of_dom, Hin. left. }
    assert (snd (delete_cookies x self) =
            {| _cookie_store := delete x (_cookie_store self);
               _metadata := delete x (_metadata self) |}) as Hdel.
    { unfold delete_cookies. by rewrite Hblob. }
    destruct (IH (snd (delete_cookies x self))) as [Hlook Hsize].
    + by apply delete_cookies_consistent.
    + done.
    + intros sid Hsid. rewrite Hdel. simpl. rewrite lookup_delete_ne.
      * apply Hin. by right.
      * intros ->. done.
    + rewrite Hdel in Hlook, Hsize. simpl in Hlook, Hsize. rewrite Hdel. simpl. split.
      * intros sid. destruct (Hlook sid) as [-> ->]. rewrite !lookup_delete.
        destruct (decide (sid ∈ l)), (decide (x = sid)), (decide (sid ∈ x :: l));
          try done; subst; set_solver.
      * rewrite map_size_delete_Some in Hsize by eauto.
        assert (size (_cookie_store self) <> 0%nat).
        { apply map_size_ne_0_lookup. eauto. }
        lia.
Qed.

(** X3.  On a vault whose ciphertexts and timestamps cover the same
    session ids, [cleanup_expired] removes every record whose expiry lies
    before the clock reading and leaves every other record untouched; no
    record that remains is expired at that reading, and the number it
    returns is the number of records removed. *)
Theorem vault_cleanup_expired_spec (now : datetime) (self : t) :
  consistent self ->
  (forall sid m, _metadata self !! sid = Some m -> expires_at m < now ->
     _cookie_store (snd (cleanup_expired now self)) !! sid = None /\
     _metadata (snd (cleanup_expired now self)) !! sid = None) /\
  (forall sid, (forall m, _metadata self !! sid = Some m -> now <= expires_at m) ->
     _cookie_store (snd (cleanup_expired now self)) !! sid = _cookie_store self !! sid /\
     _metadata (snd (cleanup_expired now self)) !! sid = _metadata self !! sid) /\
  (forall sid, is_Some (_cookie_store (snd (cleanup_expired now self)) !! sid) ->
     is_expired now sid (snd (cleanup_expired now self)) = false) /\
  (get_session_count (snd (cleanup_expired now self)) + fst (cleanup_expired now self)
     = get_session_count self)%nat.
Proof.
  intros Hc. unfold cleanup_expired, get_session_count. simpl.
  destruct (vault_sweep (expired_sessions now self) self Hc) as [Hlook Hsize].
  { unfold expired_sessions. apply NoDup_fst_filter, NoDup_fst_map_to_list. }
  { intros sid Hin. apply elem_of_expired_sessions in Hin as (m & -> & _). eauto. }
  assert (forall sid, (forall m, _metadata self !! sid = Some m -> now <= expires_at m) ->
            sid ∉ expired_sessions now self) as Hlive.
  { intros sid Hsid Hin. apply elem_of_expired_sessions in Hin as (m & Hm & Hexp).
    specialize (Hsid m Hm). lia. }
  split; [|split; [|split]].
  - intros sid m Hm Hexp. destruct (Hlook sid) as [-> ->].
    by rewrite !decide_True by (apply elem_of_expired_sessions; eauto).
  - intros sid Hsid. destruct (Hlook sid) as [-> ->].
    by rewrite !decide_False by by apply Hlive.
  - intros sid Hsome. unfold is_expired.
    destruct (Hlook sid) as [Hs Hm]. rewrite Hs in Hsome. rewrite Hm.
    destruct (decide (sid ∈ expired_sessions now self)) as [|Hnot]; [by destruct Hsome|].
    assert (is_Some (_metadata self !! sid)) as [m Hmeta].
    { apply elem_of_dom. rewrite <- Hc. by apply elem_of_dom. }
    rewrite Hmeta. destruct (Z.ltb_spec (expires_at m) now); [|done].
    exfalso. apply Hnot, elem_of_expired_sessions. eauto.
  - exact Hsize.
Qed.

(** X4.  [needs_refresh] answers true for a session without timestamps,
    whatever the threshold.  For a session with timestamps and a threshold
    that is a valid timedelta it answers whether the time left until expiry
    is below the threshold; hence a session that [is_expired] reports as
    expired needs a refresh for every threshold that is not negative. *)
Theorem needs_refresh_spec (now : datetime) (sid : string) (threshold_hours : Z) (self : t) :
  (_metadata self !! sid = None ->
     needs_refresh now sid threshold_hours self = Ok true) /\
  (forall m, _metadata self !! sid = Some m ->
     TIMEDELTA_MIN <= threshold_hours * US_PER_HOUR <= TIMEDELTA_MAX ->
     needs_refresh now sid threshold_hours self
       = Ok (bool_decide (expires_at m - now < threshold_hours * US_PER_HOUR))) /\
  (0 <= threshold_hours -> threshold_hours * US_PER_HOUR <= TIMEDELTA_MAX ->
     is_expired now sid self = true ->
     needs_refresh now sid threshold_hours self = Ok true).
Proof.
  assert (forall m, _metadata self !! sid = Some m ->
            TIMEDELTA_MIN <= threshold_hours * US_PER_HOUR <= TIMEDELTA_MAX ->
            needs_refresh now sid threshold_hours self
              = Ok (bool_decide (expires_at m - now < threshold_hours * US_PER_HOUR))) as Hknown.
  { intros m Hm [Hlo Hhi]. unfold needs_refresh, timedelta_hours, rbind. rewrite Hm.
    destruct (Z.leb_spec TIMEDELTA_MIN (threshold_hours * US_PER_HOUR)); [|lia].
    destruct (Z.leb_spec (threshold_hours * US_PER_HOUR) TIMEDELTA_MAX); [|lia]. simpl.
    f_equal. destruct (Z.ltb_spec (expires_at m - now) (threshold_hours * US_PER_HOUR)).
    - by rewrite bool_decide_eq_true_2.
    - rewrite bool_decide_eq_false_2; [done|lia]. }
  split; [|split].
  - intros Hm. unfold needs_refresh. by rewrite Hm.
  - exact Hknown.
  - intros Hpos Hmax. unfold is_expired.
    destruct (_metadata self !! sid) as [m|] eqn:Hm.
    + intros Hexp. apply Z.ltb_lt in Hexp.
      assert (TIMEDELTA_MIN <= 0) by (vm_compute; discriminate).
      assert (0 < US_PER_HOUR) by reflexivity.
      rewrite (Hknown m eq_refl) by nia.
      rewrite bool_decide_eq_true_2; [done|]. nia.
    + intros _. unfold needs_refresh. by rewrite Hm.
Qed.

End VaultFurther.

Section VaultFurtherExamples.
Import CookieManager Standin Examples.

Lemma store_then_retrieve_witness :
  fst (retrieve_cookies (NEW_YEAR_2026 + 1) (NEW_YEAR_2026 + 2) "s1" vault_after_store)
    = Ok (Some one_cookie).
Proof.
  apply (store_then_retrieve [] NEW_YEAR_2026 "s1" one_cookie 24 init).
  - reflexivity.
  - vm_compute. discriminate.
Defined.

Lemma delete_cookies_spec_witness :
  fst (delete_cookies "s1" vault_after_store) = true.
Proof.
  apply (delete_cookies_spec "s1" vault_after_store). eexists. reflexivity.
Defined.

Lemma vault_cleanup_expired_spec_witness :
  (get_session_count (snd (cleanup_expired (NEW_YEAR_2026 + 25 * US_PER_HOUR) vault_after_store))
     + fst (cleanup_expired (NEW_YEAR_2026 + 25 * US_PER_HOUR) vault_after_store)
   = get_session_count vault_after_store)%nat /\
  fst (cleanup_expired (NEW_YEAR_2026 + 25 * US_PER_HOUR) vault_after_store) = 1%nat.
Proof.
  split; [|reflexivity].
  apply (vault_cleanup_expired_spec (NEW_YEAR_2026 + 25 * US_PER_HOUR) vault_after_store).
  reflexivity.
Defined.

Lemma needs_refresh_spec_witness :
  needs_refresh (NEW_YEAR_2026 + 25 * US_PER_HOUR) "s1" 6 vault_after_store = Ok true.
Proof.
  apply (needs_refresh_spec (NEW_YEAR_2026 + 25 * US_PER_HOUR) "s1" 6 vault_after_store).
  - lia.
  - vm_compute. discriminate.
  - reflexivity.
Defined.

End VaultFurtherExamples.

(** ** The session registry: lookups, job lists, sweep *)

Section SessionFurther.
Context `{Uuid4}.
Import SessionManager.

Lemma list_mem_spec x l : list_mem x l = true <-> x ∈ l.
Proof.
  unfold list_mem. rewrite existsb_exists. split.
  - intros (y & Hin & Heq). apply String.eqb_eq in Heq. subst. by apply list_elem_of_In.
  - intros Hin. exists x. split; [by apply list_elem_of_In|apply String.eqb_refl].
Qed.

Lemma list_remove_absent x l : x ∉ l -> list_remove x l = l.
Proof.
  induction l as [|y l IH]; simpl; [done|].
  rewrite not_elem_of_cons. intros [Hne Hl].
  destruct (String.eqb_spec x y); [done|]. by rewrite IH.
Qed.



Lemma length_list_remove x l : x ∈ l -> S (length (list_remove x l)) = length l.
Proof.
  induction l as [|z l IH]; simpl.
  - by intros ?%elem_of_nil.
  - destruct (String.eqb_spec x z) as [->|Hne]; [done|].
    rewrite elem_of_cons. intros [->|Hin]; [done|]. simpl. by rewrite IH.
Qed.

(* what a lookup returns and leaves behind *)
Lemma get_session_cases now1 now2 sid self :
  (_sessions self !! sid = None /\ get_session now1 now2 sid self = (None, self)) \/
  (exists s, _sessions self !! sid = Some s /\ expires_at s < now1 /\
     get_session now1 now2 sid self = (None, {| _sessions := delete sid (_sessions self) |})) \/
  (exists s, _sessions self !! sid = Some s /\ now1 <= expires_at s /\
     get_session now1 now2 sid self =
       (Some (set_last_activity now2 s),
        {| _sessions := <[sid := set_last_activity now2 s]> (_sessions self) |})).
Proof.
  unfold get_session, delete_session.
  destruct (_sessions self !! sid) as [s|] eqn:E; [|by left]. right.
  destruct (Z.ltb_spec (expires_at s) now1); [left|right]; exists s; done.
Qed.

Lemma set_active_downloads_same now s :
  set_active_downloads (active_downloads s) (set_last_activity now s) = set_last_activity now s.
Proof. by destruct s. Qed.

Lemma get_session_lookup now1 now2 sid self sid' :
  _sessions (snd (get_session now1 now2 sid self)) !! sid' =
    if decide (sid' = sid) then touched now1 now2 (fun l => l) (_sessions self !! sid)
    else _sessions self !! sid'.
Proof.
  unfold touched.
  destruct (get_session_cases now1 now2 sid self)
    as [[E ->]|[(s & E & Hexp & ->)|(s & E & Hexp & ->)]]; simpl; rewrite E.
  - destruct (decide (sid' = sid)) as [->|]; done.
  - destruct (Z.ltb_spec (expires_at s) now1); [|lia].
    rewrite lookup_delete. destruct (decide (sid' = sid)) as [->|];
      [by rewrite decide_True|by rewrite decide_False].
  - destruct (Z.ltb_spec (expires_at s) now1); [lia|].
    rewrite lookup_insert. destruct (decide (sid' = sid)) as [->|].
    + rewrite decide_True by done. by rewrite set_active_downloads_same.
    + by rewrite decide_False.
Qed.

Lemma add_download_lookup now1 now2 sid jid self sid' :
  _sessions (snd (add_download now1 now2 sid jid self)) !! sid' =
    if decide (sid' = sid)
    then touched now1 now2 (fun l => if list_mem jid l then l else l ++ [jid])
           (_sessions self !! sid)
    else _sessions self !! sid'.
Proof.
  unfold touched, add_download.
  destruct (get_session_cases now1 now2 sid self)
    as [[E ->]|[(s & E & Hexp & ->)|(s & E & Hexp & ->)]]; simpl; rewrite E.
  - destruct (decide (sid' = sid)) as [->|]; done.
  - destruct (Z.ltb_spec (expires_at s) now1); [|lia].
    rewrite lookup_delete. destruct (decide (sid' = sid)) as [->|];
      [by rewrite decide_True|by rewrite decide_False].
  - destruct (Z.ltb_spec (expires_at s) now1); [lia|].
    destruct (list_mem jid (active_downloads s)); simpl.
    + rewrite lookup_insert. destruct (decide (sid' = sid)) as [->|].
      * rewrite decide_True by done. by rewrite set_active_downloads_same.
      * by rewrite decide_False.
    + rewrite !lookup_insert. destruct (decide (sid' = sid)) as [->|].
      * by rewrite decide_True.
      * by rewrite !decide_False.
Qed.

Lemma remove_download_lookup now1 now2 sid jid self sid' :
  _sessions (snd (remove_download now1 now2 sid jid self)) !! sid' =
    if decide (sid' = sid)
    then touched now1 now2 (list_remove jid) (_sessions self !! sid)
    else _sessions self !! sid'.
Proof.
  unfold touched, remove_download.
  destruct (get_session_cases now1 now2 sid self)
    as [[E ->]|[(s & E & Hexp & ->)|(s & E & Hexp & ->)]]; simpl; rewrite E.
  - destruct (decide (sid' = sid)) as [->|]; done.
  - destruct (Z.ltb_spec (expires_at s) now1); [|lia].
    rewrite lookup_delete. destruct (decide (sid' = sid)) as [->|];
      [by rewrite decide_True|by rewrite decide_False].
  - destruct (Z.ltb_spec (expires_at s) now1); [lia|].
    destruct (list_mem jid (active_downloads s)) eqn:Hmem; simpl.
    + rewrite !lookup_insert. destruct (decide (sid' = sid)) as [->|].
      * by rewrite decide_True.
      * by rewrite !decide_False.
    + rewrite lookup_insert. destruct (decide (sid' = sid)) as [->|].
      * rewrite decide_True by done. rewrite list_remove_absent.
        -- by rewrite set_active_downloads_same.
        -- intros Hin. apply list_mem_spec in Hin. simpl in Hin. congruence.
      * by rewrite decide_False.
Qed.

Lemma is_authenticated_state now1 now2 sid self :
  snd (is_authenticated now1 now2 sid self) = snd (get_session now1 now2 sid self).
Proof. unfold is_authenticated. by destruct (get_session _ _ _ _) as [[?|] ?]. Qed.

Lemma get_active_download_count_state now1 now2 sid self :
  snd (get_active_download_count now1 now2 sid self) = snd (get_session now1 now2 sid self).
Proof. unfold get_active_download_count. by destruct (get_session _ _ _ _) as [[?|] ?]. Qed.

(* every call that looks a session up leaves it with a record of this shape *)
Lemma call_lookup c self sid' :
  exists f,
    _sessions (call self c) !! sid' =
      if decide (sid' = call_session c)
      then touched (call_clock c) (match c with
                                   | GetSession _ n _ | IsAuthenticated _ n _
                                   | AddDownload _ n _ _ | RemoveDownload _ n _ _
                                   | GetActiveDownloadCount _ n _ => n
                                   end) f (_sessions self !! call_session c)
      else _sessions self !! sid'.
Proof.
  destruct c as [n1 n2 sid|n1 n2 sid|n1 n2 sid jid|n1 n2 sid jid|n1 n2 sid]; simpl.
  - eexists. apply get_session_lookup.
  - eexists. rewrite is_authenticated_state. apply get_session_lookup.
  - eexists. apply add_download_lookup.
  - eexists. apply remove_download_lookup.
  - eexists. rewrite get_active_download_count_state. apply get_session_lookup.
Qed.

(** X5.  For a session that is stored and not past its expiry at the
    clock reading, [add_download] and [remove_download] both return true,
    whether or not the job was listed; [add_download] appends the job unless
    it is listed already, [remove_download] drops its first occurrence, and
    [get_active_download_count] returns the length of the list. *)
Theorem session_job_list_spec (now1 now2 : datetime) (sid jid : string)
    (self : t) (s : Session) :
  _sessions self !! sid = Some s ->
  now1 <= expires_at s ->
  fst (add_download now1 now2 sid jid self) = true /\
  active_downloads <$> _sessions (snd (add_download now1 now2 sid jid self)) !! sid
    = Some (if list_mem jid (active_downloads s)
            then active_downloads s else active_downloads s ++ [jid]) /\
  fst (remove_download now1 now2 sid jid self) = true /\
  active_downloads <$> _sessions (snd (remove_download now1 now2 sid jid self)) !! sid
    = Some (list_remove jid (active_downloads s)) /\
  fst (get_active_download_count now1 now2 sid self) = length (active_downloads s).
Proof.
  intros E Hlive.
  rewrite add_download_lookup, remove_download_lookup, !decide_True by done.
  unfold touched. rewrite E. destruct (Z.ltb_spec (expires_at s) now1); [lia|].
  unfold add_download, remove_download, get_active_download_count.
  destruct (get_session_cases now1 now2 sid self)
    as [[E' _]|[(s' & E' & Hexp & _)|(s' & E' & _ & ->)]]; [congruence| |].
  { assert (s' = s) by congruence. subst. lia. }
  assert (s' = s) by congruence. subst. simpl.
  by destruct (list_mem jid (active_downloads s)).
Qed.

(** X6.  A session that is unknown, or past its expiry at the clock
    reading, is treated alike by every call: [get_session] returns none,
    [is_authenticated], [add_download] and [remove_download] return false
    and [get_active_download_count] returns 0; afterwards the session is not
    stored, and the other sessions are as before. *)
Theorem session_absent_or_expired (c : SessionCall) (self : t) :
  (forall s, _sessions self !! call_session c = Some s -> expires_at s < call_clock c) ->
  match c with
  | GetSession now1 now2 sid => fst (get_session now1 now2 sid self) = None
  | IsAuthenticated now1 now2 sid => fst (is_authenticated now1 now2 sid self) = false
  | AddDownload now1 now2 sid jid => fst (add_download now1 now2 sid jid self) = false
  | RemoveDownload now1 now2 sid jid => fst (remove_download now1 now2 sid jid self) = false
  | GetActiveDownloadCount now1 now2 sid =>
      fst (get_active_download_count now1 now2 sid self) = 0%nat
  end /\
  _sessions (call self c) !! call_session c = None /\
  (forall sid', sid' <> call_session c ->
     _sessions (call self c) !! sid' = _sessions self !! sid').
Proof.
  intros Hgone. split; [|split].
  - destruct c as [n1 n2 sid|n1 n2 sid|n1 n2 sid jid|n1 n2 sid jid|n1 n2 sid]; simpl in *;
      unfold is_authenticated, add_download, remove_download, get_active_download_count;
      destruct (get_session_cases n1 n2 sid self)
        as [[E ->]|[(s & E & Hexp & ->)|(s & E & Hexp & ->)]]; try done;
      specialize (Hgone s E); lia.
  - destruct (call_lookup c self (call_session c)) as [f ->].
    rewrite decide_True by done. unfold touched.
    destruct (_sessions self !! call_session c) as [s|] eqn:E; [|done].
    specialize (Hgone s eq_refl). by destruct (Z.ltb_spec (expires_at s) (call_clock c)); [|lia].
  - intros sid' Hne. destruct (call_lookup c self sid') as [f ->].
    by rewrite decide_False.
Qed.


Lemma delete_session_lookup sid self sid' :
  _sessions (snd (delete_session sid self)) !! sid' =
    if decide (sid' = sid) then None else _sessions self !! sid'.
Proof.
  unfold delete_session. destruct (_sessions self !! sid) eqn:E; simpl.
  - rewrite lookup_delete. destruct (decide (sid' = sid)) as [->|];
      [by rewrite decide_True|by rewrite decide_False].
  - destruct (decide (sid' = sid)) as [->|]; done.
Qed.

Lemma foldl_delete_session_lookup (l : list string) :
  forall self sid,
    _sessions (foldl (fun s sid => snd (delete_session sid s)) self l) !! sid =
      if decide (sid ∈ l) then None else _sessions self !! sid.
Proof.
  induction l as [|x l IH]; intros self sid; simpl; [done|].
  rewrite IH, delete_session_lookup.
  destruct (decide (sid ∈ l)), (decide (sid = x)), (decide (sid ∈ x :: l));
    try done; subst; set_solver.
Qed.




Lemma touched_fixed now1 now2 f o s' :
  touched now1 now2 f o = Some s' ->
  exists s, o = Some s /\ now1 <= expires_at s /\
    expires_at s' = expires_at s /\ created_at s' = created_at s /\
    user_id s' = user_id s /\ user_email s' = user_email s /\
    authenticated s' = authenticated s.
Proof.
  unfold touched. destruct o as [s|]; [|done].
  destruct (Z.ltb_spec (expires_at s) now1); [done|]. intros [= <-]. exists s. done.
Qed.

(** X8.  No call that looks a session up moves its expiry: after any
    sequence of [get_session], [is_authenticated], [add_download],
    [remove_download] and [get_active_download_count] calls a session that is
    still stored has the expiry, creation time, owner and flag it had before,
    and a lookup at a clock reading past that expiry returns none.  The
    session is still stored if every call that looked it up read a clock not
    past the expiry. *)
Theorem session_lifetime_fixed (calls : list SessionCall) (self : t) (sid : string)
    (s : Session) :
  _sessions self !! sid = Some s ->
  (forall s', _sessions (foldl call self calls) !! sid = Some s' ->
     expires_at s' = expires_at s /\ created_at s' = created_at s /\
     user_id s' = user_id s /\ user_email s' = user_email s /\
     authenticated s' = authenticated s) /\
  (forall now1 now2, expires_at s < now1 ->
     fst (get_session now1 now2 sid (foldl call self calls)) = None) /\
  ((forall c, c ∈ calls -> call_session c = sid -> call_clock c <= expires_at s) ->
   is_Some (_sessions (foldl call self calls) !! sid)).
Proof.
  intros E.
  assert (forall s', _sessions (foldl call self calls) !! sid = Some s' ->
     expires_at s' = expires_at s /\ created_at s' = created_at s /\
     user_id s' = user_id s /\ user_email s' = user_email s /\
     authenticated s' = authenticated s) as Hfixed.
  { revert self s E. induction calls as [|c calls IH]; intros self s E s'; simpl.
    - rewrite E. by intros [= <-].
    - destruct (_sessions (call self c) !! sid) as [s1|] eqn:E1.
      + intros Hs'. destruct (IH _ _ E1 _ Hs') as (-> & -> & -> & -> & ->).
        destruct (call_lookup c self sid) as [f Hf]. rewrite E1 in Hf.
        destruct (decide (sid = call_session c)) as [->|];
          [|by assert (s1 = s) by congruence; subst].
        symmetry in Hf. apply touched_fixed in Hf as (s0 & Hs0 & _ & Hf).
        assert (s0 = s) by congruence. by subst.
      + intros Hs'. exfalso. clear IH E.
        assert (forall m, _sessions m !! sid = None ->
                  _sessions (foldl call m calls) !! sid = None) as Hnone.
        { clear. induction calls as [|c calls IH]; intros m Hm; simpl; [done|].
          apply IH. destruct (call_lookup c m sid) as [f ->].
          destruct (decide (sid = call_session c)) as [->|]; [|done]. by rewrite Hm. }
        rewrite (Hnone _ E1) in Hs'. done. }
  split; [exact Hfixed|]. split.
  - intros now1 now2 Hpast.
    destruct (get_session_cases now1 now2 sid (foldl call self calls))
      as [[_ ->]|[(s' & _ & _ & ->)|(s' & E' & Hlive & _)]]; [done..|].
    destruct (Hfixed s' E') as (Hexp & _). lia.
  - clear Hfixed. revert self s E. induction calls as [|c calls IH]; intros self s E Hcalls; simpl.
    + rewrite E. eauto.
    + destruct (call_lookup c self sid) as [f Hf].
      destruct (decide (sid = call_session c)) as [Heq|].
      * assert (call_clock c <= expires_at s) as Hlive.
        { apply Hcalls; [by left|done]. }
        rewrite <- Heq in Hf. rewrite E in Hf. simpl in Hf.
        destruct (Z.ltb_spec (expires_at s) (call_clock c)); [lia|].
        apply (IH _ _ Hf). simpl. intros c' Hc'. apply Hcalls. by right.
      * rewrite E in Hf. apply (IH _ _ Hf). intros c' Hc'. apply Hcalls. by right.
Qed.

Lemma elem_of_session_expired now self sid :
  sid ∈ expired_sessions now self <->
  exists s, _sessions self !! sid = Some s /\ expires_at s < now.
Proof.
  unfold expired_sessions. rewrite list_elem_of_fmap. split.
  - intros ([sid' s] & -> & Hin).
    apply list_elem_of_In, filter_In in Hin as [Hin Hexp]. simpl in *.
    apply list_elem_of_In, elem_of_map_to_list in Hin. exists s. split; [done|lia].
  - intros (s & Hs & Hexp). exists (sid, s). split; [done|].
    apply list_elem_of_In, filter_In. split.
    + by apply list_elem_of_In, elem_of_map_to_list.
    + simpl. lia.
Qed.

Lemma foldl_delete_session_size (l : list string) :
  forall self,
    NoDup l -> (forall sid, sid ∈ l -> is_Some (_sessions self !! sid)) ->
    (size (_sessions (foldl (fun s sid => snd (delete_session sid s)) self l)) + length l
     = size (_sessions self))%nat.
Proof.
  induction l as [|x l IH]; intros self Hnd Hin; simpl; [lia|].
  apply NoDup_cons in Hnd as [Hx Hnd].
  assert (is_Some (_sessions self !! x)) as Hsome by (apply Hin; left).
  assert (size (_sessions (snd (delete_session x self))) = pred (size (_sessions self)))
    as Hdel.
  { unfold delete_session. destruct Hsome as [s Hs]. rewrite Hs. simpl.
    apply map_size_delete_Some. eauto. }
  assert (size (_sessions self) <> 0%nat) by (apply map_size_ne_0_lookup; eauto).
  specialize (IH (snd (delete_session x self)) Hnd). rewrite Hdel in IH.
  cut (size (_sessions (foldl (fun s sid => snd (delete_session sid s))
                          (snd (delete_session x self)) l)) + length l
       = pred (size (_sessions self)))%nat; [lia|].
  apply IH. intros sid Hsid. rewrite delete_session_lookup, decide_False.
  - apply Hin. by right.
  - intros ->. done.
Qed.

(** X9.  [cleanup_expired] of the session registry removes exactly the
    sessions whose expiry lies before the clock reading, leaves the others as
    they are, and returns the number of sessions removed. *)
Theorem sessions_cleanup_expired_spec (now : datetime) (self : t) :
  (forall sid,
     _sessions (snd (cleanup_expired now self)) !! sid =
       match _sessions self !! sid with
       | Some s => if expires_at s <? now then None else Some s
       | None => None
       end) /\
  (get_session_count (snd (cleanup_expired now self)) + fst (cleanup_expired now self)
   = get_session_count self)%nat.
Proof.
  unfold cleanup_expired, get_session_count. simpl. split.
  - intros sid. rewrite foldl_delete_session_lookup.
    destruct (decide (sid ∈ expired_sessions now self)) as [Hin|Hnot].
    + apply elem_of_session_expired in Hin as (s & -> & Hexp).
      by destruct (Z.ltb_spec (expires_at s) now); [|lia].
    + destruct (_sessions self !! sid) as [s|] eqn:E; [|done].
      destruct (Z.ltb_spec (expires_at s) now); [|done].
      exfalso. apply Hnot, elem_of_session_expired. eauto.
  - apply foldl_delete_session_size.
    + unfold expired_sessions. apply NoDup_fst_filter, NoDup_fst_map_to_list.
    + intros sid (s & -> & _)%elem_of_session_expired. eauto.
Qed.

End SessionFurther.

Section SessionFurtherExamples.
Import SessionManager Standin Examples FurtherExamples.

Lemma session_job_list_spec_witness :
  fst (add_download NEW_YEAR_2026 NEW_YEAR_2026 "0" "j1" registry_one) = true.
Proof.
  eapply proj1, (session_job_list_spec NEW_YEAR_2026 NEW_YEAR_2026 "0" "j1" registry_one).
  - reflexivity.
  - vm_compute. discriminate.
Defined.

Lemma session_absent_or_expired_witness :
  fst (add_download (NEW_YEAR_2026 + 25 * US_PER_HOUR) NEW_YEAR_2026 "0" "j1" registry_one)
    = false.
Proof.
  apply (session_absent_or_expired
           (AddDownload (NEW_YEAR_2026 + 25 * US_PER_HOUR) NEW_YEAR_2026 "0" "j1")
           registry_one).
  intros s [= <-]. reflexivity.
Defined.


Lemma session_lifetime_fixed_witness :
  fst (get_session (NEW_YEAR_2026 + 25 * US_PER_HOUR) NEW_YEAR_2026 "0"
         (foldl call registry_one
            [AddDownload (NEW_YEAR_2026 + 1) (NEW_YEAR_2026 + 1) "0" "j1";
             GetSession (NEW_YEAR_2026 + 23 * US_PER_HOUR) (NEW_YEAR_2026 + 23 * US_PER_HOUR)
               "0"])) = None.
Proof.
  eapply (session_lifetime_fixed _ registry_one "0").
  - reflexivity.
  - reflexivity.
Defined.

End SessionFurtherExamples.

(** ** The download queue: eviction and the records the operations leave *)

Section QueueFurther.
Context `{Uuid4}.
Import Models DownloadQueue.

Lemma size_foldl_delete {A} (l : list string) :
  forall m : gmap string A,
    NoDup l -> (forall x, x ∈ l -> is_Some (m !! x)) ->
    (size (foldl (fun m x => delete x m) m l) + length l = size m)%nat.
Proof.
  induction l as [|x l IH]; intros m Hnd Hin; simpl; [lia|].
  apply NoDup_cons in Hnd as [Hx Hnd].
  assert (is_Some (m !! x)) as Hsome by (apply Hin; left).
  assert (size m <> 0%nat) by (apply map_size_ne_0_lookup; eauto).
  specialize (IH (delete x m) Hnd). rewrite map_size_delete_Some in IH by done.
  cut (size (foldl (fun m x => delete x m) (delete x m) l) + length l = pred (size m))%nat;
    [lia|].
  apply IH. intros y Hy. rewrite lookup_delete_ne.
  - apply Hin. by right.
  - intros ->. done.
Qed.

Lemma downloads_foldl_evict (l : list string) :
  forall self, downloads (foldl evict self l) = foldl (fun m x => delete x m) (downloads self) l.
Proof. induction l as [|x l IH]; intros self; simpl; [done|]. by rewrite IH. Qed.

Lemma old_downloads_spec threshold self id :
  id ∈ old_downloads threshold self <->
  exists md, downloads self !! id = Some md /\ is_old threshold md = true.
Proof.
  split; [apply elem_of_old_downloads|].
  intros (md & Hmd & Hold). unfold old_downloads. apply list_elem_of_fmap.
  exists (id, md). split; [done|].
  apply list_elem_of_In, filter_In. split; [|done].
  by apply list_elem_of_In, elem_of_map_to_list.
Qed.

Lemma cleanup_threshold now hours threshold :
  rbind (timedelta_hours hours) (datetime_sub now) = Ok threshold ->
  threshold = now - hours * US_PER_HOUR.
Proof.
  unfold rbind, timedelta_hours, datetime_sub.
  destruct (_ && _); [|done]. destruct (_ && _); [|done]. by intros [= <-].
Qed.

(** X10.  [cleanup_old_downloads] either raises on a threshold that is no
    valid date, leaving the queue as it was, or evicts exactly the jobs that are
    completed, failed or cancelled and whose completion time lies before
    [now - max_age_hours]: their metadata and progress snapshot go, every
    other record stays, a job without a completion time is never evicted,
    the pending items are not touched, and the number returned is the number
    of jobs evicted. *)
Theorem cleanup_old_downloads_spec (now : datetime) (max_age_hours : Z) (self : t) :
  match fst (cleanup_old_downloads now max_age_hours self) with
  | Raise e => e = OverflowError /\ snd (cleanup_old_downloads now max_age_hours self) = self
  | Ok n =>
      (forall id,
         downloads (snd (cleanup_old_downloads now max_age_hours self)) !! id =
           match downloads self !! id with
           | Some md =>
               if bool_decide (status md ∈ [COMPLETED; FAILED; CANCELLED])
                  && match completed_at md with
                     | Some c => c <? now - max_age_hours * US_PER_HOUR
                     | None => false
                     end
               then None else Some md
           | None => None
           end) /\
      (forall id,
         progress (snd (cleanup_old_downloads now max_age_hours self)) !! id =
           if decide (is_Some (downloads self !! id) /\
                      downloads (snd (cleanup_old_downloads now max_age_hours self)) !! id = None)
           then None else progress self !! id) /\
      queue (snd (cleanup_old_downloads now max_age_hours self)) = queue self /\
      (size (downloads (snd (cleanup_old_downloads now max_age_hours self))) + n
       = size (downloads self))%nat
  end.
Proof.
  unfold cleanup_old_downloads.
  destruct (rbind (timedelta_hours max_age_hours) (datetime_sub now)) as [threshold|e] eqn:E;
    simpl.
  - apply cleanup_threshold in E. subst threshold.
    set (threshold := now - max_age_hours * US_PER_HOUR).
    assert (forall id,
      downloads (foldl evict self (old_downloads threshold self)) !! id =
        match downloads self !! id with
        | Some md => if is_old threshold md then None else Some md
        | None => None
        end) as Hd.
    { intros id. rewrite foldl_evict_downloads.
      destruct (decide (id ∈ old_downloads threshold self)) as [Hin|Hnot].
      - apply old_downloads_spec in Hin as (md & -> & ->). done.
      - destruct (downloads self !! id) as [md|] eqn:Hmd; [|done].
        destruct (is_old threshold md) eqn:Hold; [|done].
        exfalso. apply Hnot, old_downloads_spec. eauto. }
    split; [exact Hd|]. split; [|split].
    + intros id. rewrite foldl_evict_progress, Hd.
      destruct (decide (id ∈ old_downloads threshold self)) as [Hin|Hnot].
      * apply old_downloads_spec in Hin as (md & -> & ->).
        rewrite decide_True; [done|]. split; [eauto|done].
      * rewrite decide_False; [done|]. intros [[md Hmd] Hnone]. rewrite Hmd in Hnone.
        destruct (is_old threshold md) eqn:Hold; [|done].
        apply Hnot, old_downloads_spec. eauto.
    + apply foldl_evict_queue.
    + rewrite downloads_foldl_evict. apply size_foldl_delete.
      * unfold old_downloads. apply NoDup_fst_filter, NoDup_fst_map_to_list.
      * intros id (md & -> & _)%old_downloads_spec. eauto.
  - split; [|done]. unfold rbind, timedelta_hours, datetime_sub in E.
    destruct (_ && _); [|by injection E as <-].
    destruct (_ && _); [done|by injection E as <-].
Qed.

End QueueFurther.

(** ** The records each operation of the queue leaves *)

Section QueueRecords.
Context `{Uuid4}.
Import Models DownloadQueue.

Lemma add_download_records draw now request sid cookies uid self :
  downloads (snd (add_download draw now request sid cookies uid self)) =
    <[uuid4 draw := {| download_id := uuid4 draw; session_id := sid; user_id := uid;
                       url := Models.url request; status := PENDING; created_at := now;
                       completed_at := None; output_file := None; file_name := None;
                       error := None |}]> (downloads self) /\
  progress (snd (add_download draw now request sid cookies uid self)) =
    <[uuid4 draw := {| Models.download_id := uuid4 draw; Models.status := PENDING;
                       Models.progress := 0; downloaded_bytes := Some 0%Q;
                       total_bytes := None; speed := None; eta := None;
                       filename := None; Models.error := None |}]> (progress self).
Proof.
  unfold add_download, new_ProgressUpdate. cbn.
  change (Qle_bool 0 0 && Qle_bool 0 100) with true. cbn.
  destruct (put_nowait _ _); done.
Qed.

Lemma update_status_records id st self id' :
  downloads (_update_status id st self) !! id' =
    (if decide (id = id') then md_set_status st <$> downloads self !! id'
     else downloads self !! id') /\
  progress (_update_status id st self) !! id' =
    (if decide (id = id') then Models.set_status st <$> progress self !! id'
     else progress self !! id').
Proof.
  unfold _update_status. simpl. rewrite !lookup_alter.
  destruct (decide (id = id')) as [->|]; done.
Qed.

Lemma update_progress_records id p self id' :
  downloads (_update_progress id p self) !! id' =
    (if decide (id = id') then md_set_status (Models.status p) <$> downloads self !! id'
     else downloads self !! id') /\
  progress (_update_progress id p self) !! id' =
    (if decide (id = id') then Some p else progress self !! id').
Proof.
  unfold _update_progress. simpl. rewrite lookup_alter, lookup_insert.
  destruct (decide (id = id')) as [->|]; done.
Qed.

Lemma cancel_download_records now id self id' :
  downloads (snd (cancel_download now id self)) !! id' =
    (if decide (id = id')
     then (fun md => if bool_decide (status md ∈ [COMPLETED; FAILED]) then md
                     else md_set_completed_at now (md_set_status CANCELLED md))
            <$> downloads self !! id'
     else downloads self !! id') /\
  progress (snd (cancel_download now id self)) !! id' =
    (if decide (id = id')
     then match downloads self !! id with
          | Some md => if bool_decide (status md ∈ [COMPLETED; FAILED])
                       then progress self !! id'
                       else Models.set_status CANCELLED <$> progress self !! id'
          | None => progress self !! id'
          end
     else progress self !! id').
Proof.
  unfold cancel_download. destruct (downloads self !! id) as [md|] eqn:E.
  - destruct (bool_decide (status md ∈ [COMPLETED; FAILED])) eqn:Hb; simpl.
    + destruct (decide (id = id')) as [<-|]; [|done]. rewrite E. simpl. by rewrite Hb.
    + destruct (decide (id = id')) as [<-|].
      * rewrite !lookup_alter_eq, E. simpl. by rewrite Hb.
      * by rewrite !lookup_alter_ne.
  - simpl. destruct (decide (id = id')) as [<-|]; [|done]. by rewrite E.
Qed.

Lemma worker_failed_records now e id request self table id' :
  downloads (fst (worker_failed now e id request self table)) !! id' =
    (if decide (id = id')
     then (fun md => md_set_completed_at now (md_set_error e (md_set_status FAILED md)))
            <$> downloads self !! id'
     else downloads self !! id') /\
  progress (fst (worker_failed now e id request self table)) !! id' =
    (if decide (id = id') then Models.set_status FAILED <$> progress self !! id'
     else progress self !! id').
Proof.
  unfold worker_failed. rewrite downloads_update_status_eq.
  destruct (downloads self !! id) as [md|] eqn:E; simpl.
  - destruct (decide (id = id')) as [<-|].
    + by rewrite !lookup_alter_eq, E.
    + by rewrite !lookup_alter_ne.
  - destruct (decide (id = id')) as [<-|].
    + by rewrite !lookup_alter_eq, E.
    + by rewrite !lookup_alter_ne.
Qed.

Lemma worker_succeeded_records now out id request self table id' :
  downloads (fst (worker_succeeded now out id request self table)) !! id' =
    (if decide (id = id')
     then (fun md => md_set_completed_at now
                       (md_set_output (Downloader.path_str out) (Downloader.path_name out)
                          (md_set_status COMPLETED md)))
            <$> downloads self !! id'
     else downloads self !! id') /\
  progress (fst (worker_succeeded now out id request self table)) !! id' =
    (if decide (id = id')
     then Models.set_status (match downloads self !! id with
                             | Some _ => COMPLETED
                             | None => FAILED
                             end) <$> progress self !! id'
     else progress self !! id').
Proof.
  unfold worker_succeeded. rewrite downloads_update_status_eq.
  destruct (downloads self !! id) as [md|] eqn:E; simpl.
  - destruct (decide (id = id')) as [<-|].
    + by rewrite !lookup_alter_eq, E.
    + by rewrite !lookup_alter_ne.
  - destruct (worker_failed_records now (String.append "'" (String.append id "'")) id request
                (_update_status id COMPLETED self) table id') as [-> ->].
    destruct (update_status_records id COMPLETED self id') as [-> ->].
    destruct (decide (id = id')) as [<-|]; [|done].
    rewrite E. simpl. by destruct (progress self !! id).
Qed.

Lemma last_callback_records f id q id' :
  DownloadQueue.downloads (System.last_callback f id q) !! id' =
    (if decide (id = id')
     then (fun md => match f with
                     | Downloader.Rejected _ => md
                     | Downloader.Failed _ => md_set_status FAILED md
                     end) <$> downloads q !! id'
     else downloads q !! id') /\
  (forall md, downloads q !! id' = Some md ->
     (exists p, progress q !! id' = Some p /\ agree id' md p) ->
     forall md', DownloadQueue.downloads (System.last_callback f id q) !! id' = Some md' ->
     exists p, progress (System.last_callback f id q) !! id' = Some p /\ agree id' md' p).
Proof.
  unfold System.last_callback. destruct f as [m|m].
  - split.
    + destruct (decide (id = id')); [|done]. by destruct (downloads q !! id').
    + intros md Hmd Hp md' Hmd'. assert (md' = md) by congruence. by subst.
  - unfold Downloader.failure_snapshot, new_ProgressUpdate.
    change (Qle_bool 0 0 && Qle_bool 0 100) with true. cbn [andb].
    destruct (update_progress_records id
                {| Models.download_id := id; Models.status := FAILED; Models.progress := 0;
                   downloaded_bytes := Some 0%Q; total_bytes := None; speed := None;
                   eta := None; filename := None; Models.error := Some m |} q id')
      as [Hd Hp].
    split; [exact Hd|].
    intros md Hmd (p & Hp0 & Hid & Hpid & Hst) md'. rewrite Hd, Hp.
    destruct (decide (id = id')) as [<-|].
    + rewrite Hmd. simpl. intros [= <-]. eexists. split; [done|]. done.
    + rewrite Hmd. intros [= <-]. exists p. by repeat split.
Qed.

End QueueRecords.

(** ** The service: what every reachable state satisfies *)

Section SystemFurther.
Context `{Uuid4}.
Import Models.

Lemma cleanup_records now hours q id md :
  DownloadQueue.downloads (snd (DownloadQueue.cleanup_old_downloads now hours q)) !! id
    = Some md ->
  DownloadQueue.downloads q !! id = Some md /\
  DownloadQueue.progress (snd (DownloadQueue.cleanup_old_downloads now hours q)) !! id
    = DownloadQueue.progress q !! id.
Proof.
  unfold DownloadQueue.cleanup_old_downloads.
  destruct (rbind (timedelta_hours hours) (datetime_sub now)) as [threshold|e]; [|done].
  simpl. rewrite foldl_evict_downloads, foldl_evict_progress.
  by destruct (decide (id ∈ _)).
Qed.

Lemma hook_download_id data id p :
  Downloader._progress_hook data id = Ok (Some p) -> Models.download_id p = id.
Proof.
  unfold Downloader._progress_hook, new_ProgressUpdate, rbind.
  destruct (Downloader.hd_status data) as [st|]; [|done].
  destruct (String.eqb st "downloading").
  - destruct (if Downloader.truthy_num _ then _ else _) as [pr|]; [|done].
    destruct (_ && _); [|done]. by intros [= <-].
  - destruct (String.eqb st "finished"); [|done].
    destruct (_ && _); [|done]. by intros [= <-].
Qed.

Lemma take_head s call q :
  DownloadQueue.worker_take (System.dq s) = Some (call, q) ->
  head (queued_ids s) = Some (DownloadQueue.call_download_id call).
Proof.
  intros E. apply worker_take_effect in E as (rest & Hitems & _).
  unfold queued_ids. by rewrite Hitems.
Qed.

(* the pending items and the engine calls, taken together, only grow at the
   end, by the item a submission adds *)
Lemma step_items s ev s' :
  maxsize (DownloadQueue.queue (System.dq s)) = 0 ->
  System.step s ev = Some s' ->
  dispatched s' ++ items (DownloadQueue.queue (System.dq s')) =
    (dispatched s ++ items (DownloadQueue.queue (System.dq s))) ++
    match ev with
    | System.Submit _ request _ cookies _ => [(uuid4 (System.draws s), request, cookies)]
    | _ => []
    end /\
  System.draws s' =
    match ev with
    | System.Submit _ _ _ _ _ | System.SessionCreate _ _ _ _ => S (System.draws s)
    | _ => System.draws s
    end.
Proof.
  intros Hmax. unfold dispatched.
  destruct ev as [now request sid cookies uid| |jid data|now jid out|now jid f
                 |now jid|now hours|now uid email hours|n1 n2 sid jid|n1 n2 sid jid]; simpl.
  - intros [= <-]. simpl. rewrite queue_add_download by lia. simpl.
    by rewrite app_assoc.
  - destruct (_ <? _); [|done].
    destruct (DownloadQueue.worker_take (System.dq s)) as [[call q]|] eqn:E; [|done].
    intros [= <-]. apply worker_take_effect in E as (rest & Hitems & ->). simpl.
    rewrite Hitems, fmap_app, app_nil_r, <- app_assoc. done.
  - destruct (System.flying jid s) as [request|]; [|done].
    destruct (Downloader._progress_hook data jid) as [[p|]|]; intros [= <-];
      by rewrite app_nil_r.
  - destruct (System.flying jid s) as [request|]; [|done].
    intros [= <-]. simpl. by rewrite queue_worker_succeeded, app_nil_r.
  - destruct (System.flying jid s) as [request|]; [|done].
    intros [= <-]. simpl. rewrite queue_worker_failed, app_nil_r.
    assert (DownloadQueue.queue (System.last_callback f jid (System.dq s))
            = DownloadQueue.queue (System.dq s)) as ->; [|done].
    unfold System.last_callback. destruct f; [done|].
    by destruct (Downloader.failure_snapshot jid error_msg).
  - intros [= <-]. simpl. by rewrite queue_cancel_download, app_nil_r.
  - intros [= <-]. simpl. by rewrite cleanup_queue, app_nil_r.
  - intros [= <-]. simpl. by rewrite app_nil_r.
  - intros [= <-]. simpl. by rewrite app_nil_r.
  - intros [= <-]. simpl. by rewrite app_nil_r.
Qed.

Lemma run_items evs :
  forall s s',
    maxsize (DownloadQueue.queue (System.dq s)) = 0 ->
    System.run s evs = Some s' ->
    dispatched s' ++ items (DownloadQueue.queue (System.dq s')) =
      (dispatched s ++ items (DownloadQueue.queue (System.dq s)))
      ++ submitted (System.draws s) evs.
Proof.
  induction evs as [|ev evs IH]; intros s s' Hmax; simpl.
  - intros [= <-]. by rewrite app_nil_r.
  - destruct (System.step s ev) as [s1|] eqn:E; [|done]. intros Hrun.
    destruct (step_shape s ev s1 Hmax E) as (Hmax1 & _).
    destruct (step_items s ev s1 Hmax E) as [Hitems Hdraws].
    rewrite (IH s1 s' Hmax1 Hrun), Hitems, Hdraws, <- app_assoc.
    by destruct ev.
Qed.

Lemma submitted_ids evs :
  forall n,
    NoDup ((fun it : DownloadQueue.Item => fst (fst it)) <$> submitted n evs) /\
    (forall id, id ∈ (fun it : DownloadQueue.Item => fst (fst it)) <$> submitted n evs ->
       exists k, (n <= k)%nat /\ id = uuid4 k).
Proof.
  induction evs as [|ev evs IH]; intros n; simpl.
  - split; [constructor|]. by intros id ?%elem_of_nil.
  - destruct (IH n) as [Hnd Hge]. destruct (IH (S n)) as [Hnd' Hge'].
    destruct ev; try done.
    + rewrite fmap_cons. simpl. split.
      * apply NoDup_cons. split; [|done]. intros Hin.
        apply Hge' in Hin as (k & Hk & Heq). apply uuid4_inj in Heq. lia.
      * intros id [->|Hin]%elem_of_cons; [by exists n|].
        apply Hge' in Hin as (k & Hk & ->). exists k. split; [lia|done].
    + split; [done|]. intros id Hin.
      apply Hge' in Hin as (k & Hk & ->). exists k. split; [lia|done].
Qed.

Lemma step_max_concurrent s ev s' :
  System.step s ev = Some s' ->
  DownloadQueue.max_concurrent (System.dq s') = DownloadQueue.max_concurrent (System.dq s).
Proof.
  destruct ev as [now request sid cookies uid| |jid data|now jid out|now jid f
                 |now jid|now hours|now uid email hours|n1 n2 sid jid|n1 n2 sid jid]; simpl.
  - intros [= <-]. simpl. unfold DownloadQueue.add_download.
    destruct (new_ProgressUpdate _ _ _ _ _ _ _ _ _); [|done].
    by destruct (put_nowait _ _).
  - destruct (_ <? _); [|done].
    destruct (DownloadQueue.worker_take (System.dq s)) as [[call q]|] eqn:E; [|done].
    intros [= <-]. by apply worker_take_effect in E as (rest & _ & ->).
  - destruct (System.flying jid s) as [request|]; [|done].
    by destruct (Downloader._progress_hook data jid) as [[p|]|]; intros [= <-].
  - destruct (System.flying jid s) as [request|]; [|done].
    intros [= <-]. simpl. unfold DownloadQueue.worker_succeeded, DownloadQueue.worker_failed.
    destruct (_ !! jid); [done|]. by destruct (_ !! jid).
  - destruct (System.flying jid s) as [request|]; [|done].
    intros [= <-]. simpl. unfold DownloadQueue.worker_failed.
    assert (DownloadQueue.max_concurrent (System.last_callback f jid (System.dq s))
            = DownloadQueue.max_concurrent (System.dq s)) as <-.
    { unfold System.last_callback. destruct f; [done|].
      by destruct (Downloader.failure_snapshot jid error_msg). }
    by destruct (_ !! jid).
  - intros [= <-]. simpl. unfold DownloadQueue.cancel_download.
    destruct (_ !! jid); [|done]. by destruct (bool_decide _).
  - intros [= <-]. simpl. unfold DownloadQueue.cleanup_old_downloads.
    destruct (rbind _ _); [|done]. simpl.
    induction (DownloadQueue.old_downloads _ _) as [|x l IH] using rev_ind; [done|].
    by rewrite foldl_app.
  - by intros [= <-].
  - by intros [= <-].
  - by intros [= <-].
Qed.

(* the workers awaiting the engine are never more than the pool holds *)
Lemma step_in_flight s ev s' :
  System.step s ev = Some s' ->
  Z.of_nat (length (System.in_flight s)) <=
    Z.max 0 (DownloadQueue.max_concurrent (System.dq s)) ->
  Z.of_nat (length (System.in_flight s')) <=
    Z.max 0 (DownloadQueue.max_concurrent (System.dq s')).
Proof.
  intros Hstep. rewrite (step_max_concurrent _ _ _ Hstep). revert Hstep.
  assert (forall jid, (length (System.land jid (System.in_flight s))
                       <= length (System.in_flight s))%nat) as Hland.
  { intros jid. unfold System.land. apply filter_length_le. }
  destruct ev as [now request sid cookies uid| |jid data|now jid out|now jid f
                 |now jid|now hours|now uid email hours|n1 n2 sid jid|n1 n2 sid jid]; simpl.
  - by intros [= <-].
  - destruct (Z.ltb_spec (Z.of_nat (length (System.in_flight s)))
                (DownloadQueue.max_concurrent (System.dq s))); [|done].
    destruct (DownloadQueue.worker_take (System.dq s)) as [[call q]|]; [|done].
    intros [= <-]. simpl. rewrite length_app. simpl. lia.
  - destruct (System.flying jid s) as [request|]; [|done].
    by destruct (Downloader._progress_hook data jid) as [[p|]|]; intros [= <-].
  - destruct (System.flying jid s) as [request|]; [|done].
    intros [= <-]. simpl. specialize (Hland jid). lia.
  - destruct (System.flying jid s) as [request|]; [|done].
    intros [= <-]. simpl. specialize (Hland jid). lia.
  - by intros [= <-].
  - by intros [= <-].
  - by intros [= <-].
  - by intros [= <-].
  - by intros [= <-].
Qed.

Lemma busy_flying_step s ev s' :
  maxsize (DownloadQueue.queue (System.dq s)) = 0 ->
  busy_flying s -> System.step s ev = Some s' -> busy_flying s'.
Proof.
  intros Hmax Hbusy Hstep id Hst.
  pose proof (step_status s ev s' id Hstep) as Hstatus.
  destruct (step_shape s ev s' Hmax Hstep) as (_ & _ & Hshape).
  destruct ev as [now request sid cookies uid| |jid data|now jid out|now jid f
                 |now jid|now hours|now uid email hours|n1 n2 sid jid|n1 n2 sid jid].
  - destruct Hshape as (_ & _ & ->). rewrite Hstatus in Hst.
    destruct (decide (uuid4 (System.draws s) = id)); [by destruct Hst|by apply Hbusy].
  - destruct Hshape as (h' & Hq & ->). destruct Hstatus as (h & Hh & Hs).
    rewrite Hq in Hh. injection Hh as ->. rewrite Hs in Hst.
    apply elem_of_app. destruct (decide (h = id)) as [->|]; [right; by left|].
    left. by apply Hbusy.
  - destruct Hshape as [_ ->]. destruct Hstatus as [Hfly Hs].
    destruct (decide (jid = id)) as [->|]; [done|]. rewrite Hs in Hst. by apply Hbusy.
  - destruct Hshape as [_ ->]. destruct Hstatus as [Hfly Hs]. rewrite Hs in Hst.
    apply elem_of_landed. destruct (decide (jid = id)) as [->|].
    + destruct (System.status_of id s); simpl in Hst; by destruct Hst.
    + split; [by apply Hbusy|done].
  - destruct Hshape as [_ ->]. destruct Hstatus as [Hfly Hs]. rewrite Hs in Hst.
    apply elem_of_landed. destruct (decide (jid = id)) as [->|].
    + destruct (System.status_of id s); simpl in Hst; by destruct Hst.
    + split; [by apply Hbusy|done].
  - destruct Hshape as [_ ->]. rewrite Hstatus in Hst.
    destruct (decide (jid = id)) as [->|]; [|by apply Hbusy].
    apply Hbusy. destruct (System.status_of id s) as [st|]; simpl in Hst; [|by destruct Hst].
    destruct (bool_decide (st ∈ [COMPLETED; FAILED])); [done|by destruct Hst].
  - destruct Hshape as [_ ->].
    destruct Hstatus as [Hs|[Hs _]]; rewrite Hs in Hst; [by apply Hbusy|by destruct Hst].
  - destruct Hshape as [_ ->]. rewrite Hstatus in Hst. by apply Hbusy.
  - destruct Hshape as [_ ->]. rewrite Hstatus in Hst. by apply Hbusy.
  - destruct Hshape as [_ ->]. rewrite Hstatus in Hst. by apply Hbusy.
Qed.

Lemma snapshots_agree_step s ev s' :
  snapshots_agree (System.dq s) -> System.step s ev = Some s' ->
  snapshots_agree (System.dq s').
Proof.
  intros Hagree.
  destruct ev as [now request sid cookies uid| |jid data|now jid out|now jid f
                 |now jid|now hours|now uid email hours|n1 n2 sid jid|n1 n2 sid jid]; simpl.
  - intros [= <-] id md'. simpl.
    destruct (add_download_records (System.draws s) now request sid cookies uid (System.dq s))
      as [-> ->].
    rewrite !lookup_insert. destruct (decide (uuid4 (System.draws s) = id)) as [<-|].
    + intros [= <-]. eexists. split; [done|]. by repeat split.
    + apply Hagree.
  - destruct (_ <? _); [|done].
    destruct (DownloadQueue.worker_take (System.dq s)) as [[call q]|] eqn:E; [|done].
    intros [= <-] id md'. simpl.
    apply worker_take_effect in E as (rest & _ & ->).
    destruct (update_status_records (DownloadQueue.call_download_id call) DOWNLOADING
                (DownloadQueue.with_queue
                   {| maxsize := maxsize (DownloadQueue.queue (System.dq s)); items := rest |}
                   (System.dq s)) id) as [-> ->]. simpl.
    destruct (decide (DownloadQueue.call_download_id call = id)) as [_|]; [|apply Hagree].
    destruct (DownloadQueue.downloads (System.dq s) !! id) as [md|] eqn:Hmd; [|done].
    intros [= <-]. destruct (Hagree id md Hmd) as (p & -> & Hid & Hpid & Hst).
    eexists. split; [done|]. by repeat split.
  - destruct (System.flying jid s) as [request|]; [|done].
    destruct (Downloader._progress_hook data jid) as [[p|]|] eqn:Hhook;
      intros [= <-]; [|done..].
    intros id md'. unfold System.with_dq. cbn [System.dq].
    destruct (update_progress_records jid p (System.dq s) id) as [-> ->].
    destruct (decide (jid = id)) as [->|]; [|apply Hagree].
    destruct (DownloadQueue.downloads (System.dq s) !! id) as [md|] eqn:Hmd; [|done].
    intros [= <-]. destruct (Hagree id md Hmd) as (p0 & _ & Hid & _).
    exists p. split; [done|]. apply hook_download_id in Hhook. by repeat split.
  - destruct (System.flying jid s) as [request|]; [|done].
    intros [= <-] id md'. simpl.
    destruct (worker_succeeded_records now out jid request (System.dq s) (System.history s) id)
      as [-> ->].
    destruct (decide (jid = id)) as [->|]; [|apply Hagree].
    destruct (DownloadQueue.downloads (System.dq s) !! id) as [md|] eqn:Hmd; [|done].
    intros [= <-]. destruct (Hagree id md Hmd) as (p & -> & Hid & Hpid & Hst).
    eexists. split; [done|]. by repeat split.
  - destruct (System.flying jid s) as [request|]; [|done].
    intros [= <-] id md'. simpl.
    destruct (worker_failed_records now (Downloader.Failure_str f) jid request
                (System.last_callback f jid (System.dq s)) (System.history s) id) as [-> ->].
    destruct (last_callback_records f jid (System.dq s) id) as [Hd Hp].
    destruct (decide (jid = id)) as [->|].
    + destruct (DownloadQueue.downloads (System.last_callback f id (System.dq s)) !! id)
        as [md1|] eqn:Hmd1; [|done].
      intros [= <-].
      destruct (DownloadQueue.downloads (System.dq s) !! id) as [md|] eqn:Hmd; [|done].
      destruct (Hp md eq_refl (Hagree id md Hmd) md1 eq_refl) as (p1 & -> & Hid & Hpid & Hst).
      eexists. split; [done|]. by repeat split.
    + intros Hmd'. pose proof Hmd' as Hmd. rewrite Hd in Hmd.
      exact (Hp md' Hmd (Hagree id md' Hmd) md' Hmd').
  - intros [= <-] id md'. unfold System.with_dq. cbn [System.dq].
    destruct (cancel_download_records now jid (System.dq s) id) as [-> ->].
    destruct (decide (jid = id)) as [->|]; [|apply Hagree].
    destruct (DownloadQueue.downloads (System.dq s) !! id) as [md|] eqn:Hmd; [|done].
    simpl. destruct (Hagree id md Hmd) as (p & -> & Hid & Hpid & Hst).
    destruct (bool_decide _); intros [= <-]; eexists; (split; [done|]); by repeat split.
  - intros [= <-] id md'. unfold System.with_dq. cbn [System.dq]. intros Hmd'.
    apply cleanup_records in Hmd' as [Hmd ->]. by apply Hagree.
  - intros [= <-]. apply Hagree.
  - intros [= <-]. apply Hagree.
  - intros [= <-]. apply Hagree.
Qed.

Lemma record_ok_unsettled md :
  record_ok md ->
  DownloadQueue.status md <> COMPLETED -> DownloadQueue.status md <> FAILED ->
  DownloadQueue.output_file md = None /\ DownloadQueue.file_name md = None /\
  DownloadQueue.error md = None.
Proof.
  intros [Hc Hn Hf _ _] Hnc Hnf.
  destruct (DownloadQueue.output_file md) eqn:Ho.
  { exfalso. apply Hnc, Hc. eauto. }
  destruct (DownloadQueue.error md) eqn:He.
  { exfalso. apply Hnf, Hf. eauto. }
  destruct (DownloadQueue.file_name md) eqn:Hfn; [|done].
  assert (is_Some (@None string)) as [? ?]; [|done]. apply Hn. eauto.
Qed.

Lemma record_ok_busy st md :
  DownloadQueue.output_file md = None -> DownloadQueue.file_name md = None ->
  DownloadQueue.error md = None ->
  st = DOWNLOADING \/ st = PROCESSING ->
  record_ok (DownloadQueue.md_set_status st md).
Proof.
  intros Ho Hn He [-> | ->]; split; simpl; rewrite ?Ho, ?Hn, ?He;
    repeat match goal with
         | |- _ <-> _ => split
         end;
    intros Hx; first [done | by eauto | by destruct Hx | set_solver].
Qed.

Lemma record_ok_completed now file name md :
  DownloadQueue.error md = None ->
  record_ok (DownloadQueue.md_set_completed_at now
               (DownloadQueue.md_set_output file name
                  (DownloadQueue.md_set_status COMPLETED md))).
Proof.
  intros He. split; simpl; rewrite ?He;
    repeat match goal with
         | |- _ <-> _ => split
         end;
    intros Hx; first [done | by eauto | by destruct Hx | set_solver].
Qed.

Lemma record_ok_failed now e md :
  DownloadQueue.output_file md = None -> DownloadQueue.file_name md = None ->
  record_ok (DownloadQueue.md_set_completed_at now
               (DownloadQueue.md_set_error e (DownloadQueue.md_set_status FAILED md))).
Proof.
  intros Ho Hn. split; simpl; rewrite ?Ho, ?Hn;
    repeat match goal with
         | |- _ <-> _ => split
         end;
    intros Hx; first [done | by eauto | by destruct Hx | set_solver].
Qed.

Lemma record_ok_cancelled now md :
  DownloadQueue.output_file md = None -> DownloadQueue.file_name md = None ->
  DownloadQueue.error md = None ->
  record_ok (DownloadQueue.md_set_completed_at now
               (DownloadQueue.md_set_status CANCELLED md)).
Proof.
  intros Ho Hn He. split; simpl; rewrite ?Ho, ?Hn, ?He;
    repeat match goal with
         | |- _ <-> _ => split
         end;
    intros Hx; first [done | by eauto | by destruct Hx | set_solver].
Qed.

(* a job that is queued or in flight is neither completed nor failed *)
Lemma unsettled s id md :
  wf s -> id ∈ queued_ids s \/ id ∈ flying_ids s ->
  DownloadQueue.downloads (System.dq s) !! id = Some md ->
  DownloadQueue.status md <> COMPLETED /\ DownloadQueue.status md <> FAILED.
Proof.
  intros Hwf Hin Hmd.
  split; intros Hst.
  - destruct (wf_settled s Hwf id) as [Hq Hf]; [|tauto].
    left. unfold System.status_of, DownloadQueue.status_at. rewrite Hmd. simpl. by f_equal.
  - destruct (wf_settled s Hwf id) as [Hq Hf]; [|tauto].
    right. unfold System.status_of, DownloadQueue.status_at. rewrite Hmd. simpl. by f_equal.
Qed.

Lemma records_ok_step s ev s' :
  wf s -> records_ok (System.dq s) -> System.step s ev = Some s' ->
  records_ok (System.dq s').
Proof.
  intros Hwf Hok.
  destruct ev as [now request sid cookies uid| |jid data|now jid out|now jid f
                 |now jid|now hours|now uid email hours|n1 n2 sid jid|n1 n2 sid jid]; simpl.
  - intros [= <-] id md'. simpl.
    destruct (add_download_records (System.draws s) now request sid cookies uid (System.dq s))
      as [-> _].
    rewrite lookup_insert. destruct (decide (uuid4 (System.draws s) = id)) as [<-|].
    + intros [= <-]. split; simpl;
        repeat match goal with
             | |- _ <-> _ => split
             end;
        intros Hx; first [done | by eauto | by destruct Hx | set_solver].
    + apply Hok.
  - destruct (_ <? _); [|done].
    destruct (DownloadQueue.worker_take (System.dq s)) as [[call q]|] eqn:E; [|done].
    intros [= <-] id md'. simpl. pose proof (take_head s call q E) as Hhead.
    apply worker_take_effect in E as (rest & _ & ->).
    destruct (update_status_records (DownloadQueue.call_download_id call) DOWNLOADING
                (DownloadQueue.with_queue
                   {| maxsize := maxsize (DownloadQueue.queue (System.dq s)); items := rest |}
                   (System.dq s)) id) as [-> _]. simpl.
    destruct (decide (DownloadQueue.call_download_id call = id)) as [Heq|]; [|apply Hok].
    destruct (DownloadQueue.downloads (System.dq s) !! id) as [md|] eqn:Hmd; [|done].
    intros [= <-]. rewrite Heq in Hhead. apply head_Some_elem_of in Hhead.
    destruct (unsettled s id md Hwf (or_introl Hhead) Hmd) as [Hnc Hnf].
    destruct (record_ok_unsettled md (Hok id md Hmd) Hnc Hnf) as (Ho & Hn & He).
    apply record_ok_busy; auto.
  - destruct (System.flying jid s) as [request|] eqn:Hfly; [|done].
    apply flying_elem in Hfly.
    destruct (Downloader._progress_hook data jid) as [[p|]|] eqn:Hhook;
      intros [= <-]; [|done..].
    intros id md'. unfold System.with_dq. cbn [System.dq].
    destruct (update_progress_records jid p (System.dq s) id) as [-> _].
    destruct (decide (jid = id)) as [->|]; [|apply Hok].
    destruct (DownloadQueue.downloads (System.dq s) !! id) as [md|] eqn:Hmd; [|done].
    intros [= <-].
    destruct (unsettled s id md Hwf (or_intror Hfly) Hmd) as [Hnc Hnf].
    destruct (record_ok_unsettled md (Hok id md Hmd) Hnc Hnf) as (Ho & Hn & He).
    apply record_ok_busy; auto.
    apply hook_status in Hhook as [_ [[_ ->]|[_ ->]]]; auto.
  - destruct (System.flying jid s) as [request|] eqn:Hfly; [|done].
    apply flying_elem in Hfly.
    intros [= <-] id md'. simpl.
    destruct (worker_succeeded_records now out jid request (System.dq s) (System.history s) id)
      as [-> _].
    destruct (decide (jid = id)) as [->|]; [|apply Hok].
    destruct (DownloadQueue.downloads (System.dq s) !! id) as [md|] eqn:Hmd; [|done].
    intros [= <-].
    destruct (unsettled s id md Hwf (or_intror Hfly) Hmd) as [Hnc Hnf].
    destruct (record_ok_unsettled md (Hok id md Hmd) Hnc Hnf) as (Ho & Hn & He).
    by apply record_ok_completed.
  - destruct (System.flying jid s) as [request|] eqn:Hfly; [|done].
    apply flying_elem in Hfly.
    intros [= <-] id md'. simpl.
    destruct (worker_failed_records now (Downloader.Failure_str f) jid request
                (System.last_callback f jid (System.dq s)) (System.history s) id) as [-> _].
    destruct (last_callback_records f jid (System.dq s) id) as [-> _].
    destruct (decide (jid = id)) as [->|]; [|apply Hok].
    destruct (DownloadQueue.downloads (System.dq s) !! id) as [md|] eqn:Hmd; [|done].
    intros [= <-].
    destruct (unsettled s id md Hwf (or_intror Hfly) Hmd) as [Hnc Hnf].
    destruct (record_ok_unsettled md (Hok id md Hmd) Hnc Hnf) as (Ho & Hn & He).
    apply record_ok_failed; by destruct f.
  - intros [= <-] id md'. unfold System.with_dq. cbn [System.dq].
    destruct (cancel_download_records now jid (System.dq s) id) as [-> _].
    destruct (decide (jid = id)) as [->|]; [|apply Hok].
    destruct (DownloadQueue.downloads (System.dq s) !! id) as [md|] eqn:Hmd; [|done].
    simpl. destruct (bool_decide _) eqn:Hb; intros [= <-]; [by apply (Hok id)|].
    apply bool_decide_eq_false in Hb.
    destruct (record_ok_unsettled md (Hok id md Hmd)) as (Ho & Hn & He).
    { intros Hst. apply Hb. rewrite Hst. set_solver. }
    { intros Hst. apply Hb. rewrite Hst. set_solver. }
    by apply record_ok_cancelled.
  - intros [= <-] id md'. unfold System.with_dq. cbn [System.dq]. intros Hmd'.
    apply cleanup_records in Hmd' as [Hmd _]. by apply (Hok id).
  - intros [= <-]. apply Hok.
  - intros [= <-]. apply Hok.
  - intros [= <-]. apply Hok.
Qed.

Lemma first_by_download_id_None id table :
  History.first_by_download_id id table = None -> id ∉ History.download_id <$> table.
Proof.
  unfold History.first_by_download_id. induction table as [|r table IH]; simpl.
  - intros _. apply not_elem_of_nil.
  - destruct (String.eqb_spec (History.download_id r) id) as [|Hne]; [done|].
    intros Hnone. rewrite not_elem_of_cons. split; [done|by apply IH].
Qed.

Lemma history_ok_save id request q table md :
  history_ok table ->
  DownloadQueue.downloads q !! id = Some md ->
  (DownloadQueue.status md = COMPLETED \/ DownloadQueue.status md = FAILED) ->
  record_ok md ->
  history_ok (DownloadQueue._save_history id request q table).
Proof.
  intros [Hnd Hrows] Hmd Hst Hok.
  destruct (save_history_cases id request q table)
    as [->|(md' & uid & r & Hmd' & Hu & Hnz & Hfirst & -> & Hid & Huid & Hrst & _ & He & Hf & Hc)];
    [done|].
  assert (md' = md) by congruence. subst md'. split.
  - rewrite fmap_app. simpl. apply NoDup_app. split; [done|]. split; [|apply NoDup_singleton].
    intros x Hx ->%list_elem_of_singleton. rewrite Hid in Hx.
    by apply (first_by_download_id_None id table).
  - intros r' [Hin| ->%list_elem_of_singleton]%elem_of_app; [by apply Hrows|].
    destruct Hok as [Hoc _ Hof Hfin _]. split.
    + by rewrite Hrst.
    + by rewrite Huid.
    + rewrite Hc. apply Hfin. destruct Hst as [-> | ->]; set_solver.
    + by rewrite Hrst, Hf.
    + by rewrite Hrst, He.
Qed.

Lemma history_ok_step s ev s' :
  wf s -> records_ok (System.dq s) -> history_ok (System.history s) ->
  System.step s ev = Some s' -> history_ok (System.history s').
Proof.
  intros Hwf Hok Hhist Hstep.
  pose proof (records_ok_step s ev s' Hwf Hok Hstep) as Hok'. revert Hstep Hok'.
  destruct ev as [now request sid cookies uid| |jid data|now jid out|now jid f
                 |now jid|now hours|now uid email hours|n1 n2 sid jid|n1 n2 sid jid]; simpl.
  - by intros [= <-].
  - destruct (_ <? _); [|done].
    destruct (DownloadQueue.worker_take (System.dq s)) as [[call q]|]; [|done].
    by intros [= <-].
  - destruct (System.flying jid s) as [request|]; [|done].
    by destruct (Downloader._progress_hook data jid) as [[p|]|]; intros [= <-].
  - destruct (System.flying jid s) as [request|]; [|done].
    intros [= <-] Hok'. simpl in *.
    pose proof (worker_succeeded_effect now out jid request (System.dq s) (System.history s))
      as Heff.
    destruct (DownloadQueue.downloads (System.dq s) !! jid) as [md|];
      [|destruct Heff as [_ ->]; done].
    destruct Heff as (md' & Hmd' & _ & Hst & _ & ->).
    apply (history_ok_save _ _ _ _ md'); auto. by apply (Hok' jid).
  - destruct (System.flying jid s) as [request|]; [|done].
    intros [= <-] Hok'. simpl in *.
    pose proof (worker_failed_effect now (Downloader.Failure_str f) jid request
                  (System.last_callback f jid (System.dq s)) (System.history s)) as Heff.
    destruct (DownloadQueue.downloads (System.last_callback f jid (System.dq s)) !! jid)
      as [md|]; [|destruct Heff as [_ ->]; done].
    destruct Heff as (md' & Hmd' & _ & Hst & _ & ->).
    apply (history_ok_save _ _ _ _ md'); auto. by apply (Hok' jid).
  - by intros [= <-].
  - by intros [= <-].
  - by intros [= <-].
  - by intros [= <-].
  - by intros [= <-].
Qed.

Lemma healthy_init max_concurrent : healthy (System.init max_concurrent).
Proof.
  split.
  - apply wf_init.
  - intros id. unfold System.status_of, DownloadQueue.status_at. simpl.
    rewrite lookup_empty. by intros [?|?].
  - simpl. lia.
  - intros id md. simpl. by rewrite lookup_empty.
  - intros id md. simpl. by rewrite lookup_empty.
  - split; simpl; [constructor|]. by intros r ?%elem_of_nil.
Qed.

Lemma healthy_step s ev s' : healthy s -> System.step s ev = Some s' -> healthy s'.
Proof.
  intros [Hwf Hbusy Hpool Hagree Hrec Hhist] Hstep. split.
  - by apply (wf_step s ev).
  - apply (busy_flying_step s ev); [by apply wf_unbounded|done..].
  - by apply (step_in_flight s ev).
  - by apply (snapshots_agree_step s ev).
  - by apply (records_ok_step s ev).
  - by apply (history_ok_step s ev).
Qed.

Lemma healthy_run evs : forall s s', healthy s -> System.run s evs = Some s' -> healthy s'.
Proof.
  induction evs as [|ev evs IH]; intros s s' Hs; simpl.
  - by intros [= <-].
  - destruct (System.step s ev) as [s1|] eqn:E; [|done].
    apply IH. by apply (healthy_step s ev).
Qed.

Lemma run_max_concurrent evs :
  forall s s', System.run s evs = Some s' ->
    DownloadQueue.max_concurrent (System.dq s') = DownloadQueue.max_concurrent (System.dq s).
Proof.
  induction evs as [|ev evs IH]; intros s s'; simpl.
  - by intros [= <-].
  - destruct (System.step s ev) as [s1|] eqn:E; [|done].
    intros Hrun. rewrite (IH _ _ Hrun). by apply (step_max_concurrent s ev).
Qed.

(** X11.  Along every run of the service the workers hand the jobs to
    the engine in the order in which they were submitted, each with the
    request and cookies it was submitted with: the engine calls made so far
    followed by the pending items are exactly the submitted items, in order.
    No job is handed to the engine twice, and the queue size is the number
    of submissions not yet taken. *)
Theorem dispatch_in_submission_order (max_concurrent : Z) (evs : list System.Event)
    (s : System.t) :
  System.run (System.init max_concurrent) evs = Some s ->
  dispatched s ++ items (DownloadQueue.queue (System.dq s)) = submitted 0 evs /\
  NoDup (DownloadQueue.call_download_id <$> System.engine_calls s) /\
  (DownloadQueue.get_queue_size (System.dq s) + length (System.engine_calls s)
   = length (submitted 0 evs))%nat.
Proof.
  intros Hrun.
  pose proof (run_items evs (System.init max_concurrent) s eq_refl Hrun) as Hitems.
  simpl in Hitems. split; [exact Hitems|]. split.
  - destruct (submitted_ids evs 0) as [Hnd _]. rewrite <- Hitems, fmap_app in Hnd.
    apply NoDup_app in Hnd as [Hnd _]. unfold dispatched in Hnd.
    by rewrite <- list_fmap_compose in Hnd.
  - rewrite <- Hitems, length_app. unfold dispatched, DownloadQueue.get_queue_size, qsize.
    rewrite length_fmap. lia.
Qed.

(** X12.  Along every run of the service [get_active_count] is at most
    the number of workers awaiting the engine, which is at most
    [max_concurrent] (and zero when [max_concurrent] is negative): a job
    reads downloading or processing only while a worker awaits the engine
    for it. *)
Theorem active_count_bounded (max_concurrent : Z) (evs : list System.Event)
    (s : System.t) :
  System.run (System.init max_concurrent) evs = Some s ->
  (DownloadQueue.get_active_count (System.dq s) <= length (System.in_flight s))%nat /\
  Z.of_nat (length (System.in_flight s)) <= Z.max 0 max_concurrent /\
  (forall id,
     System.status_of id s = Some DOWNLOADING \/ System.status_of id s = Some PROCESSING ->
     is_Some (System.flying id s)).
Proof.
  intros Hrun.
  destruct (healthy_run evs _ s (healthy_init max_concurrent) Hrun)
    as [Hwf Hbusy Hpool _ _ _].
  rewrite (run_max_concurrent evs _ _ Hrun) in Hpool. simpl in Hpool.
  split; [|split; [exact Hpool|]].
  - unfold DownloadQueue.get_active_count.
    rewrite <- (length_fmap fst), <- (length_fmap fst (System.in_flight s)).
    apply submseteq_length, NoDup_submseteq.
    + apply NoDup_fst_filter, NoDup_fst_map_to_list.
    + intros id ([id' md] & -> & Hin)%list_elem_of_fmap.
      apply list_elem_of_In, filter_In in Hin as [Hin Hst]. simpl in *.
      apply list_elem_of_In, elem_of_map_to_list in Hin.
      apply bool_decide_eq_true in Hst. apply Hbusy. left.
      unfold System.status_of, DownloadQueue.status_at. rewrite Hin. simpl. by f_equal.
  - intros id Hst. apply Hbusy in Hst. unfold flying_ids in Hst.
    apply list_elem_of_fmap in Hst as ([id' r] & -> & Hin). simpl.
    unfold System.flying.
    destruct (List.find _ (System.in_flight s)) as [x|] eqn:E; [by eexists|].
    exfalso. apply list_elem_of_In in Hin.
    apply (find_none _ _ E) in Hin. simpl in Hin. by rewrite String.eqb_refl in Hin.
Qed.


(** X14.  Along every run of the service the fields of a job's metadata
    tell its status: the record is filed under its own id; it has an output
    file (and file name) exactly when it is completed and an error exactly
    when it is failed; a completed, failed or cancelled job has a completion
    time, and a pending job has none. *)
Theorem metadata_fields (max_concurrent : Z) (evs : list System.Event)
    (s : System.t) (id : string) (md : DownloadQueue.Metadata) :
  System.run (System.init max_concurrent) evs = Some s ->
  DownloadQueue.downloads (System.dq s) !! id = Some md ->
  DownloadQueue.download_id md = id /\ record_ok md.
Proof.
  intros Hrun Hmd.
  destruct (healthy_run evs _ s (healthy_init max_concurrent) Hrun)
    as [_ _ _ Hagree Hrec _].
  split; [|by apply (Hrec id)].
  by destruct (Hagree id md Hmd) as (p & _ & Hid & _).
Qed.

(** X15.  Along every run of the service the history table holds at most
    one row per job, and every row is of a job that ended completed or
    failed, has a non-zero user id and a completion time, and has a file path
    exactly when completed and an error message exactly when failed. *)
Theorem history_rows (max_concurrent : Z) (evs : list System.Event) (s : System.t) :
  System.run (System.init max_concurrent) evs = Some s ->
  NoDup (History.download_id <$> System.history s) /\
  (forall r, r ∈ System.history s -> row_ok r).
Proof.
  intros Hrun.
  by destruct (healthy_run evs _ s (healthy_init max_concurrent) Hrun)
    as [_ _ _ _ _ Hhist].
Qed.

End SystemFurther.

Section SystemFurtherExamples.
Import Models Standin Examples FurtherExamples.

Lemma dispatch_in_submission_order_witness :
  exists s,
    System.run (System.init 3) an_owned_download = Some s /\
    dispatched s ++ items (DownloadQueue.queue (System.dq s))
      = submitted 0 an_owned_download /\
    submitted 0 an_owned_download = [("0", a_request, None); ("1", a_request, None)].
Proof.
  destruct (System.run (System.init 3) an_owned_download) as [s|] eqn:E;
    [|vm_compute in E; discriminate].
  exists s. split; [reflexivity|]. split; [|reflexivity].
  exact (proj1 (dispatch_in_submission_order 3 an_owned_download s E)).
Defined.

Lemma active_count_bounded_witness :
  exists s,
    System.run (System.init 3) an_owned_download = Some s /\
    (DownloadQueue.get_active_count (System.dq s) <= length (System.in_flight s))%nat.
Proof.
  destruct (System.run (System.init 3) an_owned_download) as [s|] eqn:E;
    [|vm_compute in E; discriminate].
  exists s. split; [reflexivity|].
  exact (proj1 (active_count_bounded 3 an_owned_download s E)).
Defined.


Lemma metadata_fields_witness :
  exists s md,
    System.run (System.init 3) an_owned_download = Some s /\
    DownloadQueue.downloads (System.dq s) !! "0" = Some md /\
    record_ok md.
Proof.
  destruct (System.run (System.init 3) an_owned_download) as [s|] eqn:E;
    [|vm_compute in E; discriminate].
  destruct (DownloadQueue.downloads (System.dq s) !! "0") as [md|] eqn:Hmd.
  - exists s, md. split; [reflexivity|]. split; [exact Hmd|].
    exact (proj2 (metadata_fields 3 an_owned_download s "0" md E Hmd)).
  - exfalso. vm_compute in E. injection E as <-. vm_compute in Hmd. discriminate.
Defined.

Lemma history_rows_witness :
  exists s,
    System.run (System.init 3) an_owned_download = Some s /\
    NoDup (History.download_id <$> System.history s).
Proof.
  destruct (System.run (System.init 3) an_owned_download) as [s|] eqn:E;
    [|vm_compute in E; discriminate].
  exists s. split; [reflexivity|].
  exact (proj1 (history_rows 3 an_owned_download s E)).
Defined.

End SystemFurtherExamples.

(** ** The progress hook *)

Section HookFurther.
Import Models Downloader.




End HookFurther.

Section HookFurtherExamples.
Import Models Downloader Examples.


End HookFurtherExamples.
